(** * Product catalogue API: a shallow embedding of the request handlers

    The development follows the three source units of the repository:

    - the top-level server script (inline schema, inline authentication
      and validation middleware, route table, error-handling middleware),
      embedded in [Module Server];
    - the authentication middleware module, embedded in [Module Middleware];
    - the product controller and its router, embedded in [Module Controller].

    The document store, the schema layer in front of it and the
    JavaScript built-ins are external collaborators.  The store is a list
    of product documents threaded through every handler; the schema layer
    is modelled from the schema declaration of the source; the built-ins
    whose code is outside the repository are the fields of [Runtime]. *)

From stdpp Require Import gmap strings list sorting pretty.
From Stdlib Require Import QArith Qcanon Qround Ascii.

Open Scope Z_scope.

(** ** JavaScript numbers *)

(** A JavaScript number is a finite rational, one of the two infinities or
    NaN.  Rounding to binary64 and the sign of zero are not represented. *)
Inductive num :=
  | Fin (q : Qc)
  | PInf
  | NInf
  | NaN.

#[global] Instance num_eq_dec : EqDecision num.
Proof. solve_decision. Defined.

Definition ofZ (z : Z) : num := Fin (Q2Qc (inject_Z z)).

Definition Qc_sgn (q : Qc) : Z := Z.sgn (Qnum (this q)).

Definition inf_of_sign (s : Z) : num :=
  if decide (s = 0) then NaN else if decide (0 < s) then PInf else NInf.

Definition num_sgn (n : num) : Z :=
  match n with
  | Fin q => Qc_sgn q
  | PInf => 1
  | NInf => -1
  | NaN => 0
  end.

(** [a + b] *)
Definition num_add (a b : num) : num :=
  match a, b with
  | NaN, _ | _, NaN => NaN
  | Fin x, Fin y => Fin (x + y)%Qc
  | PInf, NInf | NInf, PInf => NaN
  | PInf, _ | _, PInf => PInf
  | NInf, _ | _, NInf => NInf
  end.

(** [a - b] *)
Definition num_sub (a b : num) : num :=
  match a, b with
  | NaN, _ | _, NaN => NaN
  | Fin x, Fin y => Fin (x - y)%Qc
  | PInf, PInf | NInf, NInf => NaN
  | PInf, _ | _, NInf => PInf
  | NInf, _ | _, PInf => NInf
  end.

(** [a * b] *)
Definition num_mul (a b : num) : num :=
  match a, b with
  | NaN, _ | _, NaN => NaN
  | Fin x, Fin y => Fin (x * y)%Qc
  | _, _ => inf_of_sign (num_sgn a * num_sgn b)
  end.

(** [a / b] *)
Definition num_div (a b : num) : num :=
  match a, b with
  | NaN, _ | _, NaN => NaN
  | Fin x, Fin y =>
      if decide (y = 0%Qc) then inf_of_sign (Qc_sgn x) else Fin (x / y)%Qc
  | Fin _, _ => Fin 0%Qc
  | _, Fin y => if decide (y = 0%Qc) then a else inf_of_sign (num_sgn a * Qc_sgn y)
  | _, _ => NaN
  end.

(** [Math.ceil] *)
Definition num_ceil (a : num) : num :=
  match a with
  | Fin x => ofZ (Qceiling x)
  | _ => a
  end.

(** [a < b] *)
Definition num_ltb (a b : num) : bool :=
  match a, b with
  | NaN, _ | _, NaN => false
  | Fin x, Fin y => bool_decide (x < y)%Qc
  | NInf, NInf | PInf, _ | _, NInf => false
  | _, _ => true
  end.

(** [a <= b] *)
Definition num_leb (a b : num) : bool :=
  match a, b with
  | NaN, _ | _, NaN => false
  | Fin x, Fin y => bool_decide (x ≤ y)%Qc
  | NInf, _ | _, PInf => true
  | _, _ => false
  end.

(** [Math.min] and [Math.max] on non-NaN operands, as the accumulators of
    the store's grouping stage use them. *)
Definition num_min (a b : num) : num := if num_leb a b then a else b.
Definition num_max (a b : num) : num := if num_leb a b then b else a.

(** Whether a number is a non-negative integer, and which one. *)
Definition num_to_nat (a : num) : option nat :=
  match a with
  | Fin x =>
      if decide (Qden (this x) = 1%positive ∧ 0 ≤ Qnum (this x))
      then Some (Z.to_nat (Qnum (this x))) else None
  | _ => None
  end.

(** ** JSON values of a request body *)

(** [VObject] stands for an array, or for an object without an [_id]
    property: the handlers never look inside one, and no cast of the
    schema accepts one.  (An object with an [_id] is read by the schema
    layer as a reference to a document; such bodies are not
    represented.) *)
Inductive value :=
  | VNull
  | VBool (b : bool)
  | VNum (n : num)
  | VStr (s : string)
  | VObject.

#[global] Instance value_eq_dec : EqDecision value.
Proof. solve_decision. Defined.

(** Truthiness of numbers, strings and values; a missing property reads
    as [undefined], which is [None] here. *)
Definition num_truthy (n : num) : bool :=
  match n with
  | Fin q => bool_decide (q ≠ 0%Qc)
  | NaN => false
  | _ => true
  end.

Definition str_truthy (s : string) : bool := bool_decide (s ≠ "").

Definition truthy (v : option value) : bool :=
  match v with
  | None | Some VNull => false
  | Some (VBool b) => b
  | Some (VNum n) => num_truthy n
  | Some (VStr s) => str_truthy s
  | Some VObject => true
  end.

(** [v !== undefined] *)
Definition defined (v : option value) : bool :=
  match v with
  | Some _ => true
  | None => false
  end.

(** Truthiness of an optional string (a header or a query parameter). *)
Definition present (s : option string) : bool :=
  match s with
  | Some s => str_truthy s
  | None => false
  end.

(** ** Built-ins and library functions outside the repository *)

Class Runtime := {
  (** [Number(s)] on a string *)
  toNumber : string → num;
  (** [String(n)] on a number *)
  numToString : num → string;
  (** [s.toLowerCase()] *)
  toLowerCase : string → string;
  (** [s.trim()] *)
  trim : string → string;
  (** [s.length] *)
  strLength : string → nat;
  (** whether the store's driver accepts the string as a document id *)
  isObjectId : string → bool;
  (** whether the store accepts the pattern of a [$regex] condition *)
  regexValid : string → bool;
  (** [$regex] with option [i]: pattern, then subject *)
  regexTest : string → string → bool;
  (** the standard validators of the request-validation library *)
  notEmpty : option value → bool;
  isNumeric : option value → bool;
  isBoolean : option value → bool;
  (** the casts of the schema layer for the paths [_id] and [createdAt],
      [updatedAt] of a document built from a whole body: the document id
      that a value stands for, or [None] when the value is refused; the
      time that a value stands for, with an inner [None] when it is
      empty, or [None] when the value is refused *)
  castObjectId : value → option string;
  castDate : value → option (option Z);
}.

(** ** Documents, errors, requests and responses *)

(** A stored product.  The four required paths always hold a value; the
    stock flag may be [null], which is [None]. *)
Record Product := {
  _id : string;
  name : string;
  description : string;
  price : num;
  category : string;
  inStock : option bool;
  createdAt : Z;
  updatedAt : Z;
}.

#[global] Instance Product_eq_dec : EqDecision Product.
Proof. solve_decision. Defined.

(** The store: the documents of the product collection in insertion
    order. *)
Abbreviation Store := (list Product).

(** A JavaScript error object, as far as the handlers read it.  The
    trace is represented by one line that names the error; its text is
    not modelled. *)
Record Error := {
  errName : string;
  message : string;
  statusCode : option Z;
  stack : string;
}.

#[global] Instance Error_eq_dec : EqDecision Error.
Proof. solve_decision. Defined.

Definition mkError (nm msg : string) (code : option Z) : Error :=
  {| errName := nm; message := msg; statusCode := code;
     stack := nm +:+ ": " +:+ msg |}.

(** Status codes of the [http-status-codes] table used by the source. *)
Module StatusCodes.
Definition OK : Z := 200.
Definition CREATED : Z := 201.
Definition NO_CONTENT : Z := 204.
Definition BAD_REQUEST : Z := 400.
Definition UNAUTHORIZED : Z := 401.
Definition FORBIDDEN : Z := 403.
Definition NOT_FOUND : Z := 404.
Definition INTERNAL_SERVER_ERROR : Z := 500.
End StatusCodes.

(** The custom error classes of the server script.  The second one is
    declared there and never constructed. *)
Definition NotFoundError (msg : string) : Error :=
  mkError "NotFoundError" msg (Some StatusCodes.NOT_FOUND).

Definition ValidationError (msg : string) : Error :=
  mkError "ValidationError" msg (Some StatusCodes.BAD_REQUEST).

(** Modelled from the spec: the [ApiError] class of [utils/ApiError], which
    the authentication middleware constructs from a status code and a
    message; the error carries that status code. *)
Definition ApiError (code : Z) (msg : string) : Error :=
  mkError "ApiError" msg (Some code).

(** Errors raised by the schema layer and the store; none carries a
    status code.  The message texts are abbreviated. *)
Definition CastError (path : string) : Error :=
  mkError "CastError" ("Cast failed at path " +:+ path) None.

Definition SchemaValidationError (errs : list (string * string)) : Error :=
  mkError "ValidationError"
    ("Product validation failed: " +:+ String.concat ", " (errs.*1)) None.

Definition StoreError (msg : string) : Error :=
  mkError "MongoServerError" msg None.

(** One row of [byCategory] in the statistics. *)
Record CategoryStats := {
  cs_id : string;
  count : Z;
  avgPrice : num;
  minPrice : num;
  maxPrice : num;
  totalValue : num;
}.

#[global] Instance CategoryStats_eq_dec : EqDecision CategoryStats.
Proof. solve_decision. Defined.

(** The JSON bodies the handlers send, one constructor per shape. *)
Inductive Body :=
  (** [{success, count, total, page, totalPages, hasNextPage,
      hasPreviousPage, data}] *)
  | ListJson (cnt : nat) (total : Z) (page totalPages : num)
      (hasNextPage hasPreviousPage : bool) (data : list Product)
  (** [{success, total, totalPages, currentPage, data}] *)
  | PageJson (total : Z) (totalPages : num) (currentPage : value)
      (data : list Product)
  (** [{success, count, data}] *)
  | SearchJson (cnt : nat) (data : list Product)
  (** [{success, data}] with one product *)
  | ProductJson (data : Product)
  (** [{success, data: {}}] *)
  | EmptyJson
  (** [{success, data: {totalProducts, inStock, outOfStock, byCategory}}] *)
  | StatsJson (totalProducts inStockCount outOfStock : Z)
      (byCategory : list CategoryStats)
  (** [{success: false, error}] *)
  | ErrorJson (error : string)
  (** [{success: false, message}], with [stack] when given *)
  | MessageJson (msg : string) (trace : option string)
  (** [{success: false, errors}] *)
  | ErrorsJson (errors : list (string * string))
  (** a plain-text body *)
  | Text (s : string)
  (** no body *)
  | NoBody.

#[global] Instance Body_eq_dec : EqDecision Body.
Proof. solve_decision. Defined.

Record Response := {
  status : Z;
  body : Body;
}.

#[global] Instance Response_eq_dec : EqDecision Response.
Proof. solve_decision. Defined.

Inductive Method := GET | POST | PUT | DELETE.

#[global] Instance Method_eq_dec : EqDecision Method.
Proof. solve_decision. Defined.

(** A request after parsing: the path as its segments, header names in
    lower case, query parameters as strings (repeated or bracketed
    parameters, which parse to arrays or objects, are not represented), the
    route parameters bound by the router and the JSON body as an object. *)
Record Request := {
  method : Method;
  path : list string;
  headers : gmap string string;
  query : gmap string string;
  params : gmap string string;
  reqBody : gmap string value;
}.

(** The method of a request as it arrives.  The routes are registered
    for four methods; a [HEAD] request is answered by the routes for
    [GET]; for every other method no route is registered. *)
Inductive Verb :=
  | Routed (m : Method)
  | HEAD
  | OPTIONS
  | OtherVerb (name : string).

#[global] Instance Verb_eq_dec : EqDecision Verb.
Proof. solve_decision. Defined.

(** What a handler reads besides the request: the process environment,
    the clock, the identifier the store assigns to the next document, and
    the order in which the store returns, for this request, the documents
    that tie on a sort key: by ascending rank.  The store fixes no such
    order, within a query or from one query to the next. *)
Record Ctx := {
  env : gmap string string;
  now : Z;
  freshId : string;
  tieRank : Product → Z;
}.

(** What a middleware or handler does with a request. *)
Inductive Outcome :=
  | Send (r : Response)
  | Next
  | NextErr (e : Error)
  | Throw (e : Error).

#[global] Instance Outcome_eq_dec : EqDecision Outcome.
Proof. solve_decision. Defined.

(** Results of store operations. *)
Inductive result (A : Type) :=
  | Ok (a : A)
  | Err (e : Error).
Arguments Ok {A} a.
Arguments Err {A} e.

(** A request as it arrives at the server script, before the global
    middleware and the routes: its method, the segments of its path, its
    headers and query parameters as in [Request], and what the JSON body
    parser makes of its body: the object it leaves in [req.body], empty
    when there is nothing to parse, or the error it passes to [next],
    which carries the parser's own status code (400 for a body that is
    not JSON, 413 for one that is too large, 415 for an encoding it does
    not support). *)
Record Incoming := {
  i_verb : Verb;
  i_path : list string;
  i_headers : gmap string string;
  i_query : gmap string string;
  i_parsed : result (gmap string value);
}.

Definition json (code : Z) (b : Body) : Outcome :=
  Send {| status := code; body := b |}.

(** ** The schema layer *)

(** A schema declaration, path by path, with the options the source uses:
    [required] with its message, [trim], [lowercase], [maxlength], [enum]
    and [min] with their messages, and the default of the stock flag. *)
Record StringPath := {
  s_required : string;
  s_trim : bool;
  s_lowercase : bool;
  s_maxlength : option (nat * string);
  s_enum : option (list string * string);
}.

Record NumberPath := {
  n_required : string;
  n_min : option (num * string);
}.

Record Schema := {
  sName : StringPath;
  sDescription : StringPath;
  sPrice : NumberPath;
  sCategory : StringPath;
  sInStockDefault : bool;
}.

(** The enumeration of categories, the same in both schema declarations. *)
Definition categories : list string :=
  ["electronics"; "clothing"; "home"; "kitchen"; "sports"; "other"].

(** The schema of the model module. *)
Definition productSchema : Schema := {|
  sName := {|
    s_required := "Please provide a product name";
    s_trim := true;
    s_lowercase := false;
    s_maxlength := Some (100%nat, "Name cannot be more than 100 characters");
    s_enum := None |};
  sDescription := {|
    s_required := "Please provide a product description";
    s_trim := true;
    s_lowercase := false;
    s_maxlength :=
      Some (1000%nat, "Description cannot be more than 1000 characters");
    s_enum := None |};
  sPrice := {|
    n_required := "Please provide a price";
    n_min := Some (ofZ 0, "Price must be a positive number") |};
  sCategory := {|
    s_required := "Please provide a category";
    s_trim := false;
    s_lowercase := true;
    s_maxlength := None;
    s_enum := Some (categories, " is not a valid category") |};
  sInStockDefault := true;
|}.

(** A document under construction or modification: the value of each
    path ([None] is null or unset), the cast errors recorded by
    assignments, and the stored document it was loaded from, if any. *)
Record Doc := {
  d_name : option string;
  d_description : option string;
  d_price : option num;
  d_category : option string;
  d_inStock : option bool;
  d_castErrors : list (string * string);
  d_orig : option Product;
}.

Section SchemaLayer.
Context `{R : Runtime}.

(** The casts of the schema types.  The outer [None] is a cast error, an
    inner [None] is null. *)
Definition castString (v : option value) : option (option string) :=
  match v with
  | None | Some VNull => Some None
  | Some (VStr s) => Some (Some s)
  | Some (VNum n) => Some (Some (numToString n))
  | Some (VBool b) => Some (Some (if b then "true" else "false"))
  | Some VObject => None
  end.

Definition castNumber (v : option value) : option (option num) :=
  match v with
  | None | Some VNull => Some None
  | Some (VStr s) =>
      if decide (s = "") then Some None
      else match toNumber s with
           | NaN => None
           | n => Some (Some n)
           end
  | Some (VBool b) => Some (Some (ofZ (if b then 1 else 0)))
  | Some (VNum NaN) => None
  | Some (VNum n) => Some (Some n)
  | Some VObject => None
  end.

Definition castBoolean (v : option value) : option (option bool) :=
  match v with
  | None | Some VNull => Some None
  | Some (VBool b) => Some (Some b)
  | Some (VStr s) =>
      if bool_decide (s ∈ ["true"; "1"; "yes"]) then Some (Some true)
      else if bool_decide (s ∈ ["false"; "0"; "no"]) then Some (Some false)
      else None
  | Some (VNum n) =>
      if decide (n = ofZ 1) then Some (Some true)
      else if decide (n = ofZ 0) then Some (Some false)
      else None
  | Some VObject => None
  end.

(** The setters [trim] and [lowercase] of a string path. *)
Definition setString (p : StringPath) (s : string) : string :=
  let s := if s_trim p then trim s else s in
  if s_lowercase p then toLowerCase s else s.

(** The validators of a path; the first failing one gives the message. *)
Definition validateString (p : StringPath) (v : option string)
  : option string :=
  match v with
  | None => Some (s_required p)
  | Some s =>
      if decide (strLength s = 0%nat) then Some (s_required p)
      else match s_maxlength p with
           | Some (n, msg) =>
               if decide (strLength s ≤ n)%nat then None else Some msg
           | None => None
           end
           ∪
           match s_enum p with
           | Some (vals, msg) =>
               if bool_decide (s ∈ vals) then None else Some (s +:+ msg)
           | None => None
           end
  end.

Definition validateNumber (p : NumberPath) (v : option num) : option string :=
  match v with
  | None => Some (n_required p)
  | Some n =>
      match n_min p with
      | Some (lo, msg) => if num_leb lo n then None else Some msg
      | None => None
      end
  end.

Definition pathError (path : string) (e : option string)
  : list (string * string) :=
  match e with
  | Some msg => [(path, msg)]
  | None => []
  end.

(** [doc.validate()]: the recorded cast errors, then the validators of
    the four required paths. *)
Definition validate (sch : Schema) (d : Doc) : list (string * string) :=
  d_castErrors d
  ++ pathError "name" (validateString (sName sch) (d_name d))
  ++ pathError "description"
       (validateString (sDescription sch) (d_description d))
  ++ pathError "price" (validateNumber (sPrice sch) (d_price d))
  ++ pathError "category" (validateString (sCategory sch) (d_category d)).

(** Assignments [doc.path = v]: cast, then the setters; a failed cast is
    recorded and surfaces at validation. *)
Definition castFailed (path : string) (d : Doc) : Doc :=
  {| d_name := d_name d; d_description := d_description d;
     d_price := d_price d; d_category := d_category d;
     d_inStock := d_inStock d;
     d_castErrors := d_castErrors d ++ [(path, "Cast failed")];
     d_orig := d_orig d |}.

Definition assignName (sch : Schema) (v : option value) (d : Doc) : Doc :=
  match castString v with
  | Some s =>
      {| d_name := setString (sName sch) <$> s;
         d_description := d_description d; d_price := d_price d;
         d_category := d_category d; d_inStock := d_inStock d;
         d_castErrors := d_castErrors d; d_orig := d_orig d |}
  | None => castFailed "name" d
  end.

Definition assignDescription (sch : Schema) (v : option value) (d : Doc)
  : Doc :=
  match castString v with
  | Some s =>
      {| d_name := d_name d;
         d_description := setString (sDescription sch) <$> s;
         d_price := d_price d; d_category := d_category d;
         d_inStock := d_inStock d;
         d_castErrors := d_castErrors d; d_orig := d_orig d |}
  | None => castFailed "description" d
  end.

Definition assignPrice (v : option value) (d : Doc) : Doc :=
  match castNumber v with
  | Some n =>
      {| d_name := d_name d; d_description := d_description d;
         d_price := n; d_category := d_category d;
         d_inStock := d_inStock d;
         d_castErrors := d_castErrors d; d_orig := d_orig d |}
  | None => castFailed "price" d
  end.

Definition assignCategory (sch : Schema) (v : option value) (d : Doc) : Doc :=
  match castString v with
  | Some s =>
      {| d_name := d_name d; d_description := d_description d;
         d_price := d_price d;
         d_category := setString (sCategory sch) <$> s;
         d_inStock := d_inStock d;
         d_castErrors := d_castErrors d; d_orig := d_orig d |}
  | None => castFailed "category" d
  end.

Definition assignInStock (v : option value) (d : Doc) : Doc :=
  match castBoolean v with
  | Some b =>
      {| d_name := d_name d; d_description := d_description d;
         d_price := d_price d; d_category := d_category d;
         d_inStock := b;
         d_castErrors := d_castErrors d; d_orig := d_orig d |}
  | None => castFailed "inStock" d
  end.

End SchemaLayer.

(** ** Strings *)

(** The pieces of a string between separator characters, empty pieces
    included. *)
Fixpoint splitBy (sep : ascii → bool) (s : string) : list string :=
  match s with
  | EmptyString => [""]
  | String a s' =>
      if sep a then "" :: splitBy sep s'
      else match splitBy sep s' with
           | h :: t => String a h :: t
           | [] => [String a ""]
           end
  end.

(** [s.split(c)] for a one-character separator. *)
Definition split (c : ascii) (s : string) : list string :=
  splitBy (λ a, bool_decide (a = c)) s.

Definition isBlank (a : ascii) : bool :=
  bool_decide (a ∈ [" "; "009"; "010"; "011"; "012"; "013"]%char).

(** The non-empty pieces of a string between blanks, as the store's sort
    specification is read. *)
Definition words (s : string) : list string :=
  filter (λ w, w ≠ "") (splitBy isBlank s).

(** ** The store *)

(** The filter object the handlers build.  Every condition is optional. *)
Inductive CategoryCond :=
  | CatIs (c : string)
  | CatIn (cs : list string).

Record Query := {
  qName : option string;
  qPrice : option (option num * option num);
  qCategory : option CategoryCond;
  qInStock : option bool;
  qOr : option string;
}.

Definition emptyQuery : Query :=
  {| qName := None; qPrice := None; qCategory := None;
     qInStock := None; qOr := None |}.

Definition numCmp (a b : num) : comparison :=
  if num_ltb a b then Lt else if num_ltb b a then Gt else Eq.

Definition stockCmp (a b : option bool) : comparison :=
  match a, b with
  | None, None => Eq
  | None, Some _ => Lt
  | Some _, None => Gt
  | Some x, Some y => Bool.compare x y
  end.

(** The order of two documents on one field; a field that no document
    has orders nothing. *)
Definition fieldCmp (f : string) (a b : Product) : comparison :=
  if decide (f = "_id") then String.compare (_id a) (_id b)
  else if decide (f = "name") then String.compare (name a) (name b)
  else if decide (f = "description")
    then String.compare (description a) (description b)
  else if decide (f = "price") then numCmp (price a) (price b)
  else if decide (f = "category")
    then String.compare (category a) (category b)
  else if decide (f = "inStock") then stockCmp (inStock a) (inStock b)
  else if decide (f = "createdAt") then (createdAt a ?= createdAt b)
  else if decide (f = "updatedAt") then (updatedAt a ?= updatedAt b)
  else Eq.

(** A sort specification: field names, a leading [-] for descending. *)
Definition parseSort (s : string) : list (string * bool) :=
  (λ w, match w with
        | String "-" f => (f, false)
        | _ => (w, true)
        end) <$> words s.

Fixpoint sortCmp (spec : list (string * bool)) (a b : Product) : comparison :=
  match spec with
  | [] => Eq
  | (f, asc) :: spec' =>
      match (if asc : bool then fieldCmp f a b else fieldCmp f b a) with
      | Eq => sortCmp spec' a b
      | c => c
      end
  end.

Definition sortLe (spec : list (string * bool)) (a b : Product) : Prop :=
  sortCmp spec a b ≠ Gt.

#[global] Instance sortLe_dec spec : RelDecision (sortLe spec).
Proof. intros a b. unfold sortLe. solve_decision. Defined.

(** The order among the documents that tie on a sort specification. *)
Definition rankLe (rank : Product → Z) (a b : Product) : Prop :=
  rank a ≤ rank b.

#[global] Instance rankLe_dec rank : RelDecision (rankLe rank).
Proof. intros a b. unfold rankLe. solve_decision. Defined.

(** [.sort(s)]: the documents in the order of the specification.  The
    order among the documents that tie on it is not fixed by the code:
    the sort starts from the documents arranged by the rank given with
    the request, about which nothing is assumed. *)
Definition sortDocs (rank : Product → Z) (s : string) (docs : list Product)
  : list Product :=
  merge_sort (sortLe (parseSort s)) (merge_sort (rankLe rank) docs).

(** The window of a sorted result: [skip] documents dropped, then at most
    [limit] kept, a limit of zero meaning no limit.  A skip or limit that
    is not a non-negative integer is refused. *)
Definition window (skip limit : num) (docs : list Product)
  : result (list Product) :=
  match num_to_nat skip, num_to_nat limit with
  | Some s, Some l =>
      Ok (if decide (l = 0%nat) then drop s docs else take l (drop s docs))
  | _, _ => Err (StoreError "skip and limit must be non-negative integers")
  end.

Fixpoint replaceDoc (p' : Product) (st : Store) : Store :=
  match st with
  | [] => []
  | p :: st' =>
      if decide (_id p = _id p') then p' :: st' else p :: replaceDoc p' st'
  end.

Fixpoint removeDoc (id : string) (st : Store) : Store :=
  match st with
  | [] => []
  | p :: st' => if decide (_id p = id) then st' else p :: removeDoc id st'
  end.

Definition lookupDoc (id : string) (st : Store) : option Product :=
  List.find (λ p, bool_decide (_id p = id)) st.

Section StoreOps.
Context `{R : Runtime}.

(** [Model.findById]: the id is cast first, and a string that is not a
    document id makes the lookup fail with a cast error. *)
Definition findById (id : string) (st : Store) : result (option Product) :=
  if isObjectId id then Ok (lookupDoc id st) else Err (CastError "_id").

(** The filter is cast through the schema before it reaches the store: a
    NaN price bound is a cast error, category values go through the
    setters of the category path, and the store refuses a malformed
    pattern. *)
Definition queryError (q : Query) : option Error :=
  match qPrice q with
  | Some (Some NaN, _) | Some (_, Some NaN) => Some (CastError "price")
  | _ =>
      if bool_decide (from_option regexValid true (qName q)
                      ∧ from_option regexValid true (qOr q))
      then None
      else Some (StoreError "Regular expression is invalid")
  end.

Definition matchesCategory (sch : Schema) (c : CategoryCond) (p : Product)
  : bool :=
  match c with
  | CatIs c => bool_decide (category p = setString (sCategory sch) c)
  | CatIn cs => bool_decide (category p ∈ setString (sCategory sch) <$> cs)
  end.

Definition matches (sch : Schema) (q : Query) (p : Product) : bool :=
  from_option (λ pat, regexTest pat (name p)) true (qName q)
  && from_option (λ b,
       from_option (λ lo, num_leb lo (price p)) true b.1
       && from_option (λ hi, num_leb (price p) hi) true b.2) true (qPrice q)
  && from_option (λ c, matchesCategory sch c p) true (qCategory q)
  && from_option (λ b, bool_decide (inStock p = Some b)) true (qInStock q)
  && from_option (λ pat,
       regexTest pat (name p) || regexTest pat (description p)) true (qOr q).

Definition selectDocs (sch : Schema) (q : Query) (st : Store)
  : result (list Product) :=
  match queryError q with
  | Some e => Err e
  | None => Ok (List.filter (matches sch q) st)
  end.

(** [Model.countDocuments(query)] *)
Definition countDocuments (sch : Schema) (q : Query) (st : Store) : result Z :=
  match selectDocs sch q st with
  | Ok ds => Ok (Z.of_nat (length ds))
  | Err e => Err e
  end.

(** [Model.find(query).sort(sort).skip(skip).limit(limit)] *)
Definition findPage (sch : Schema) (q : Query) (rank : Product → Z)
    (sort : string) (skip limit : num) (st : Store) : result (list Product) :=
  match selectDocs sch q st with
  | Ok ds => window skip limit (sortDocs rank sort ds)
  | Err e => Err e
  end.

(** [Model.find(query)] *)
Definition find (sch : Schema) (q : Query) (st : Store)
  : result (list Product) :=
  selectDocs sch q st.

(** A document loaded from the store, and a new one. *)
Definition hydrate (p : Product) : Doc :=
  {| d_name := Some (name p); d_description := Some (description p);
     d_price := Some (price p); d_category := Some (category p);
     d_inStock := inStock p; d_castErrors := []; d_orig := Some p |}.

Definition newDoc : Doc :=
  {| d_name := None; d_description := None; d_price := None;
     d_category := None; d_inStock := None; d_castErrors := [];
     d_orig := None |}.

(** [doc.save()]: validation, then the timestamps, then the write.  A new
    document gets its id and both timestamps; a loaded one is written
    back, with [updatedAt] refreshed when a path has changed. *)
Definition save (sch : Schema) (ctx : Ctx) (d : Doc) (st : Store)
  : result (Product * Store) :=
  match validate sch d, d_name d, d_description d, d_price d, d_category d with
  | [], Some n, Some de, Some pr, Some c =>
      match d_orig d with
      | None =>
          let p := {| _id := freshId ctx; name := n; description := de;
                      price := pr; category := c; inStock := d_inStock d;
                      createdAt := now ctx; updatedAt := now ctx |} in
          Ok (p, st ++ [p])
      | Some o =>
          let p := {| _id := _id o; name := n; description := de;
                      price := pr; category := c; inStock := d_inStock d;
                      createdAt := createdAt o; updatedAt := updatedAt o |} in
          let p' := if decide (p = o) then o
                    else {| _id := _id o; name := n; description := de;
                            price := pr; category := c;
                            inStock := d_inStock d;
                            createdAt := createdAt o;
                            updatedAt := now ctx |} in
          Ok (p', replaceDoc p' st)
      end
  | errs, _, _, _, _ => Err (SchemaValidationError errs)
  end.

(** [new Model(body)] and [doc.save()] for a document built from a whole
    body.  The paths [_id] and [createdAt] are paths of the schema like
    the declared ones, so the values that the body gives for them are
    kept: the document is stored under [id] when the body gave one and
    under the id the store assigns otherwise, with [createdAt] at
    [created] when the body gave a time and at the time of the save
    otherwise; [updatedAt] of a new document is its [createdAt].  The
    store refuses a second document under an id. *)
Definition saveAs (sch : Schema) (ctx : Ctx) (id : option string)
    (created : option Z) (d : Doc) (st : Store) : result (Product * Store) :=
  match validate sch d, d_name d, d_description d, d_price d, d_category d with
  | [], Some n, Some de, Some pr, Some c =>
      let t := default (now ctx) created in
      let p := {| _id := default (freshId ctx) id; name := n;
                  description := de; price := pr; category := c;
                  inStock := d_inStock d; createdAt := t; updatedAt := t |} in
      match lookupDoc (_id p) st with
      | Some _ => Err (StoreError "E11000 duplicate key error")
      | None => Ok (p, st ++ [p])
      end
  | errs, _, _, _, _ => Err (SchemaValidationError errs)
  end.

End StoreOps.

(** ** The aggregation pipeline of the statistics *)

Definition sumPrices (ps : list Product) : num :=
  foldr (λ p acc, num_add (price p) acc) (ofZ 0) ps.

Definition extremePrice (pick : num → num → num) (ps : list Product) : num :=
  match ps with
  | [] => NaN
  | p :: ps' => foldr (λ q acc, pick (price q) acc) (price p) ps'
  end.

(** One group of the [$group] stage: the accumulators over the documents
    of category [c]. *)
Definition groupOf (docs : list Product) (c : string) : CategoryStats :=
  let ps := filter (λ p, category p = c) docs in
  {| cs_id := c;
     count := Z.of_nat (length ps);
     avgPrice := num_div (sumPrices ps) (ofZ (Z.of_nat (length ps)));
     minPrice := extremePrice num_min ps;
     maxPrice := extremePrice num_max ps;
     totalValue := sumPrices ps |}.

Definition idLe (a b : CategoryStats) : Prop :=
  String.compare (cs_id a) (cs_id b) ≠ Gt.

#[global] Instance idLe_dec : RelDecision idLe.
Proof. intros a b. unfold idLe. solve_decision. Defined.

(** [Model.aggregate([{$group: {_id: '$category', ...}}, {$sort: {_id: 1}}])] *)
Definition aggregate (st : Store) : list CategoryStats :=
  merge_sort idLe (groupOf st <$> remove_dups (category <$> st)).

(** ** Handlers and routing *)

(** A middleware or handler: it reads the request and may change the
    store. *)
Definition Handler : Type := Ctx → Request → Store → Outcome * Store.

(** [req.params.id] *)
Definition paramId (req : Request) : string := default "" (params req !! "id").

(** A numeric query parameter with its default, read as a number. *)
Definition numParam `{R : Runtime} (dflt : Z) (v : option string) : num :=
  from_option toNumber (ofZ dflt) v.

(** A query parameter used as a condition when it is truthy. *)
Definition whenPresent (v : option string) : option string :=
  if present v then v else None.

(** The condition on the stock flag: only the literal strings count. *)
Definition stockCond (v : option string) : option bool :=
  if bool_decide (v = Some "true" ∨ v = Some "false")
  then Some (bool_decide (v = Some "true")) else None.

Inductive Seg :=
  | Lit (s : string)
  | Param (x : string).

Record Route := {
  r_method : Method;
  r_path : list Seg;
  r_chain : list Handler;
}.

Section Routing.
Context `{R : Runtime}.

(** Path matching: literal segments regardless of case, a parameter
    bound to any non-empty segment. *)
Fixpoint matchPath (pat : list Seg) (p : list string)
    (acc : gmap string string) : option (gmap string string) :=
  match pat, p with
  | [], [] => Some acc
  | Lit s :: pat', x :: p' =>
      if decide (toLowerCase x = toLowerCase s) then matchPath pat' p' acc
      else None
  | Param k :: pat', x :: p' =>
      if decide (x = "") then None else matchPath pat' p' (<[k := x]> acc)
  | _, _ => None
  end.

Definition withParams (req : Request) (ps : gmap string string) : Request :=
  {| method := method req; path := path req; headers := headers req;
     query := query req; params := ps; reqBody := reqBody req |}.

(** The handlers of one route in order, each running when the one before
    it called [next()]. *)
Fixpoint runChain (hs : list Handler) (ctx : Ctx) (req : Request) (st : Store)
  : Outcome * Store :=
  match hs with
  | [] => (Next, st)
  | h :: hs' =>
      match h ctx req st with
      | (Next, st') => runChain hs' ctx req st'
      | r => r
      end
  end.

(** The routes in registration order: the first one whose method and
    path match runs, and the later ones only if it calls [next()]. *)
Fixpoint dispatch (routes : list Route) (ctx : Ctx) (req : Request)
    (st : Store) : Outcome * Store :=
  match routes with
  | [] => (Next, st)
  | r :: routes' =>
      match (if decide (r_method r = method req)
             then matchPath (r_path r) (path req) ∅ else None) with
      | Some ps =>
          match runChain (r_chain r) ctx (withParams req ps) st with
          | (Next, st') => dispatch routes' ctx req st'
          | res => res
          end
      | None => dispatch routes' ctx req st
      end
  end.

End Routing.

(** *** The authentication middleware module *)

Module Middleware.

Definition authenticate : Handler := λ ctx req st,
  let apiKey :=
    if present (headers req !! "x-api-key") then headers req !! "x-api-key"
    else query req !! "apiKey" in
  if negb (present apiKey)
  then (Throw (ApiError StatusCodes.UNAUTHORIZED "API key is required"), st)
  else if bool_decide (apiKey ≠ env ctx !! "API_KEY")
  then (Throw (ApiError StatusCodes.FORBIDDEN "Invalid API key"), st)
  else (Next, st).

End Middleware.

(** *** The product controller and its router *)

Module Controller.
Section Handlers.
Context `{R : Runtime}.

(** Build query object *)
Definition buildQuery (req : Request) : Query :=
  let name := query req !! "name" in
  let minPrice := query req !! "minPrice" in
  let maxPrice := query req !! "maxPrice" in
  let category := query req !! "category" in
  let inStock := query req !! "inStock" in
  {| qName := whenPresent name;
     qPrice :=
       if present minPrice || present maxPrice
       then Some (toNumber <$> whenPresent minPrice,
                  toNumber <$> whenPresent maxPrice)
       else None;
     qCategory := (λ c, CatIn (split "," c)) <$> whenPresent category;
     qInStock := stockCond inStock;
     qOr := None |}.

Definition getProducts : Handler := λ ctx req st,
  let page := numParam 1 (query req !! "page") in
  let limit := numParam 10 (query req !! "limit") in
  let sort := default "-createdAt" (query req !! "sort") in
  let q := buildQuery req in
  match countDocuments productSchema q st with
  | Err e => (NextErr e, st)
  | Ok total =>
      match findPage productSchema q (tieRank ctx) sort
              (num_mul (num_sub page (ofZ 1)) limit) limit st with
      | Err e => (NextErr e, st)
      | Ok products =>
          let totalPages := num_ceil (num_div (ofZ total) limit) in
          let hasNextPage := num_ltb page totalPages in
          let hasPreviousPage := num_ltb (ofZ 1) page in
          (json StatusCodes.OK
             (ListJson (length products) total page totalPages
                hasNextPage hasPreviousPage products), st)
      end
  end.

Definition notFoundWithId (id : string) : Outcome :=
  json StatusCodes.NOT_FOUND (ErrorJson ("Product not found with id of " +:+ id)).

Definition getProductById : Handler := λ ctx req st,
  match findById (paramId req) st with
  | Err e => (NextErr e, st)
  | Ok None => (notFoundWithId (paramId req), st)
  | Ok (Some product) => (json StatusCodes.OK (ProductJson product), st)
  end.

Definition createProduct : Handler := λ ctx req st,
  let name := reqBody req !! "name" in
  let description := reqBody req !! "description" in
  let price := reqBody req !! "price" in
  let category := reqBody req !! "category" in
  let inStock := reqBody req !! "inStock" in
  let doc :=
    assignInStock (if defined inStock then inStock else Some (VBool true))
      (assignCategory productSchema category
         (assignPrice price
            (assignDescription productSchema description
               (assignName productSchema name newDoc)))) in
  match save productSchema ctx doc st with
  | Err e => (NextErr e, st)
  | Ok (product, st') => (json StatusCodes.CREATED (ProductJson product), st')
  end.

Definition updateProduct : Handler := λ ctx req st,
  let name := reqBody req !! "name" in
  let description := reqBody req !! "description" in
  let price := reqBody req !! "price" in
  let category := reqBody req !! "category" in
  let inStock := reqBody req !! "inStock" in
  match findById (paramId req) st with
  | Err e => (NextErr e, st)
  | Ok None => (notFoundWithId (paramId req), st)
  | Ok (Some found) =>
      let product := hydrate found in
      let product :=
        if truthy name then assignName productSchema name product
        else product in
      let product :=
        if truthy description
        then assignDescription productSchema description product
        else product in
      let product :=
        if truthy price then assignPrice price product else product in
      let product :=
        if truthy category then assignCategory productSchema category product
        else product in
      let product :=
        if defined inStock then assignInStock inStock product
        else product in
      match save productSchema ctx product st with
      | Err e => (NextErr e, st)
      | Ok (updatedProduct, st') =>
          (json StatusCodes.OK (ProductJson updatedProduct), st')
      end
  end.

Definition deleteProduct : Handler := λ ctx req st,
  match findById (paramId req) st with
  | Err e => (NextErr e, st)
  | Ok None => (notFoundWithId (paramId req), st)
  | Ok (Some product) =>
      (json StatusCodes.OK EmptyJson, removeDoc (_id product) st)
  end.

(** The statistics computed from the grouped rows and the count of
    documents in stock. *)
Definition statsData (stats : list CategoryStats) (inStockCount : Z) : Body :=
  let totalProducts := foldl (λ acc curr, acc + count curr) 0 stats in
  StatsJson totalProducts inStockCount (totalProducts - inStockCount) stats.

Definition inStockQuery : Query :=
  {| qName := None; qPrice := None; qCategory := None;
     qInStock := Some true; qOr := None |}.

Definition getProductStats : Handler := λ ctx req st,
  let stats := aggregate st in
  match countDocuments productSchema inStockQuery st with
  | Err e => (NextErr e, st)
  | Ok inStockCount => (json StatusCodes.OK (statsData stats inStockCount), st)
  end.

(** The router, paths relative to its mount point. *)
Definition router : list Route := [
  {| r_method := GET; r_path := []; r_chain := [getProducts] |};
  {| r_method := GET; r_path := [Lit "stats"]; r_chain := [getProductStats] |};
  {| r_method := GET; r_path := [Param "id"]; r_chain := [getProductById] |};
  {| r_method := POST; r_path := []; r_chain := [createProduct] |};
  {| r_method := PUT; r_path := [Param "id"]; r_chain := [updateProduct] |};
  {| r_method := DELETE; r_path := [Param "id"]; r_chain := [deleteProduct] |}
].

End Handlers.
End Controller.

(** *** The top-level server script *)

Module Server.

(** The inline schema: the declaration of the model module with other
    [required] messages. *)
Definition productSchema : Schema := {|
  sName := {|
    s_required := "Name is required";
    s_trim := true;
    s_lowercase := false;
    s_maxlength := Some (100%nat, "Name cannot be more than 100 characters");
    s_enum := None |};
  sDescription := {|
    s_required := "Description is required";
    s_trim := true;
    s_lowercase := false;
    s_maxlength :=
      Some (1000%nat, "Description cannot be more than 1000 characters");
    s_enum := None |};
  sPrice := {|
    n_required := "Price is required";
    n_min := Some (ofZ 0, "Price must be a positive number") |};
  sCategory := {|
    s_required := "Category is required";
    s_trim := false;
    s_lowercase := true;
    s_maxlength := None;
    s_enum := Some (categories, " is not a valid category") |};
  sInStockDefault := true;
|}.

Definition dquote : string := String (ascii_of_nat 34) "".

Section Handlers.
Context `{R : Runtime}.

(** [Model.findByIdAndUpdate(id, update, {new: true, runValidators:
    true})]: the id and the paths of the update are cast, the validators
    of the paths in the update run, and the document, if there is one, is
    written with those paths replaced; the update of the source always
    carries [updatedAt]. *)
Definition castUpdate (sch : Schema) (upd : gmap string value) : Doc :=
  let d := newDoc in
  let d := if defined (upd !! "name")
           then assignName sch (upd !! "name") d else d in
  let d := if defined (upd !! "description")
           then assignDescription sch (upd !! "description") d else d in
  let d := if defined (upd !! "price")
           then assignPrice (upd !! "price") d else d in
  let d := if defined (upd !! "category")
           then assignCategory sch (upd !! "category") d else d in
  if defined (upd !! "inStock")
  then assignInStock (upd !! "inStock") d else d.

Definition validateUpdate (sch : Schema) (upd : gmap string value) (d : Doc)
  : list (string * string) :=
  (if defined (upd !! "name")
   then pathError "name" (validateString (sName sch) (d_name d)) else [])
  ++ (if defined (upd !! "description")
      then pathError "description"
             (validateString (sDescription sch) (d_description d)) else [])
  ++ (if defined (upd !! "price")
      then pathError "price" (validateNumber (sPrice sch) (d_price d)) else [])
  ++ (if defined (upd !! "category")
      then pathError "category"
             (validateString (sCategory sch) (d_category d)) else []).

Definition findByIdAndUpdate (sch : Schema) (ctx : Ctx) (id : string)
    (upd : gmap string value) (st : Store) : result (option Product * Store) :=
  if negb (isObjectId id) then Err (CastError "_id")
  else
    let d := castUpdate sch upd in
    match d_castErrors d, validateUpdate sch upd d with
    | (path, _) :: _, _ => Err (CastError path)
    | [], (e :: errs) => Err (SchemaValidationError (e :: errs))
    | [], [] =>
        match lookupDoc id st with
        | None => Ok (None, st)
        | Some o =>
            let p := {|
              _id := _id o;
              name := default (name o) (d_name d);
              description := default (description o) (d_description d);
              price := default (price o) (d_price d);
              category := default (category o) (d_category d);
              inStock := if defined (upd !! "inStock")
                         then d_inStock d else inStock o;
              createdAt := createdAt o;
              updatedAt := now ctx |} in
            Ok (Some p, replaceDoc p st)
        end
    end.

(** [Model.findByIdAndDelete(id)] *)
Definition findByIdAndDelete (id : string) (st : Store)
  : result (option Product * Store) :=
  match findById id st with
  | Err e => Err e
  | Ok None => Ok (None, st)
  | Ok (Some p) => Ok (Some p, removeDoc id st)
  end.

(** Authentication middleware *)
Definition authenticate : Handler := λ ctx req st,
  let apiKey := headers req !! "x-api-key" in
  if negb (present apiKey) || bool_decide (apiKey ≠ env ctx !! "API_KEY")
  then (json StatusCodes.UNAUTHORIZED
          (MessageJson "Invalid or missing API key" None), st)
  else (Next, st).

(** Validation middleware: every check runs, and the failures are
    reported together. *)
Definition validateProduct : Handler := λ ctx req st,
  let b := reqBody req in
  let errors :=
    (if notEmpty (b !! "name") then [] else [("name", "Name is required")])
    ++ (if notEmpty (b !! "description") then []
        else [("description", "Description is required")])
    ++ (if isNumeric (b !! "price") then []
        else [("price", "Price must be a number")])
    ++ (if notEmpty (b !! "category") then []
        else [("category", "Category is required")])
    ++ (if defined (b !! "inStock")
        then if isBoolean (b !! "inStock") then []
             else [("inStock", "inStock must be a boolean")]
        else []) in
  match errors with
  | [] => (Next, st)
  | _ => (json StatusCodes.BAD_REQUEST (ErrorsJson errors), st)
  end.

Definition welcome : Handler := λ ctx req st,
  (json StatusCodes.OK
     (Text "Welcome to the Product API! Go to /api/products to see all products."),
   st).

(** Build query *)
Definition buildQuery (req : Request) : Query :=
  let category := query req !! "category" in
  let inStock := query req !! "inStock" in
  let search := query req !! "search" in
  {| qName := None;
     qPrice := None;
     qCategory := CatIs <$> whenPresent category;
     qInStock := stockCond inStock;
     qOr := whenPresent search |}.

(** Get all products with filtering and pagination *)
Definition listProducts : Handler := λ ctx req st,
  let page := numParam 1 (query req !! "page") in
  let limit := numParam 10 (query req !! "limit") in
  let sort := default "-createdAt" (query req !! "sort") in
  let q := buildQuery req in
  match countDocuments productSchema q st with
  | Err e => (NextErr e, st)
  | Ok total =>
      match findPage productSchema q (tieRank ctx) sort
              (num_mul (num_sub page (ofZ 1)) limit)
              (num_mul limit (ofZ 1)) st with
      | Err e => (NextErr e, st)
      | Ok products =>
          (json StatusCodes.OK
             (PageJson total (num_ceil (num_div (ofZ total) limit))
                (from_option VStr (VNum (ofZ 1)) (query req !! "page"))
                products), st)
      end
  end.

(** Get product by ID *)
Definition getProduct : Handler := λ ctx req st,
  match findById (paramId req) st with
  | Err e => (NextErr e, st)
  | Ok None => (NextErr (NotFoundError "Product not found"), st)
  | Ok (Some product) => (json StatusCodes.OK (ProductJson product), st)
  end.

(** The paths of a body besides the declared ones that
    [new Product(req.body)] reads: [_id], the two timestamps and the
    version key [__v], a number.  A value that does not cast is recorded
    like any failed cast; a value given for [updatedAt] is otherwise
    replaced at the save, and the version is no part of a [Product]. *)
Definition bodyId (b : gmap string value) : option (option string) :=
  match b !! "_id" with
  | None => Some None
  | Some v => Some <$> castObjectId v
  end.

Definition bodyDate (k : string) (b : gmap string value)
  : option (option Z) :=
  match b !! k with
  | None => Some None
  | Some v => castDate v
  end.

Definition assignMeta (b : gmap string value) (d : Doc) : Doc :=
  let d := if bodyId b is None then castFailed "_id" d else d in
  let d := if bodyDate "createdAt" b is None
           then castFailed "createdAt" d else d in
  let d := if bodyDate "updatedAt" b is None
           then castFailed "updatedAt" d else d in
  if castNumber (b !! "__v") is None then castFailed "__v" d else d.

(** Create a new product *)
Definition createProduct : Handler := λ ctx req st,
  let b := reqBody req in
  let doc :=
    assignMeta b
      (assignInStock (if defined (b !! "inStock") then b !! "inStock"
                      else Some (VBool (sInStockDefault productSchema)))
         (assignCategory productSchema (b !! "category")
            (assignPrice (b !! "price")
               (assignDescription productSchema (b !! "description")
                  (assignName productSchema (b !! "name") newDoc))))) in
  match saveAs productSchema ctx (default None (bodyId b))
          (default None (bodyDate "createdAt" b)) doc st with
  | Err e => (NextErr e, st)
  | Ok (product, st') => (json StatusCodes.CREATED (ProductJson product), st')
  end.

(** Update a product *)
Definition updateProduct : Handler := λ ctx req st,
  match findByIdAndUpdate productSchema ctx (paramId req) (reqBody req) st with
  | Err e => (NextErr e, st)
  | Ok (None, _) => (NextErr (NotFoundError "Product not found"), st)
  | Ok (Some product, st') => (json StatusCodes.OK (ProductJson product), st')
  end.

(** Delete a product *)
Definition deleteProduct : Handler := λ ctx req st,
  match findByIdAndDelete (paramId req) st with
  | Err e => (NextErr e, st)
  | Ok (None, _) => (NextErr (NotFoundError "Product not found"), st)
  | Ok (Some _, st') =>
      (Send {| status := StatusCodes.NO_CONTENT; body := NoBody |}, st')
  end.

(** Get product statistics *)
Definition statistics : Handler := λ ctx req st,
  let stats := aggregate st in
  match countDocuments productSchema emptyQuery st with
  | Err e => (NextErr e, st)
  | Ok totalProducts =>
      match countDocuments productSchema Controller.inStockQuery st with
      | Err e => (NextErr e, st)
      | Ok inStockCount =>
          (json StatusCodes.OK
             (StatsJson totalProducts inStockCount
                (totalProducts - inStockCount) stats), st)
      end
  end.

(** Search products by name or description *)
Definition search : Handler := λ ctx req st,
  let q := query req !! "q" in
  if negb (present q)
  then (json StatusCodes.BAD_REQUEST
          (MessageJson ("Search query parameter " +:+ dquote +:+ "q"
                        +:+ dquote +:+ " is required") None), st)
  else
    match find productSchema
            {| qName := None; qPrice := None; qCategory := None;
               qInStock := None; qOr := q |} st with
    | Err e => (NextErr e, st)
    | Ok products =>
        (json StatusCodes.OK (SearchJson (length products) products), st)
    end.

(** 404 handler *)
Definition notFound : Handler := λ ctx req st,
  (Throw (NotFoundError "Endpoint not found"), st).

(** Error handling middleware *)
Definition errorHandler (ctx : Ctx) (err : Error) : Response :=
  let statusCode :=
    match statusCode err with
    | Some c => if decide (c = 0) then StatusCodes.INTERNAL_SERVER_ERROR else c
    | None => StatusCodes.INTERNAL_SERVER_ERROR
    end in
  let message :=
    if str_truthy (message err) then message err
    else "Internal Server Error" in
  {| status := statusCode;
     body := MessageJson message
               (if bool_decide (env ctx !! "NODE_ENV" = Some "development")
                then Some (stack err) else None) |}.

Definition products : list Seg := [Lit "api"; Lit "products"].

(** The routes in the order the script registers them. *)
Definition routes : list Route := [
  {| r_method := GET; r_path := []; r_chain := [welcome] |};
  {| r_method := GET; r_path := products; r_chain := [listProducts] |};
  {| r_method := GET; r_path := products ++ [Param "id"];
     r_chain := [getProduct] |};
  {| r_method := POST; r_path := products;
     r_chain := [authenticate; validateProduct; createProduct] |};
  {| r_method := PUT; r_path := products ++ [Param "id"];
     r_chain := [authenticate; validateProduct; updateProduct] |};
  {| r_method := DELETE; r_path := products ++ [Param "id"];
     r_chain := [authenticate; deleteProduct] |};
  {| r_method := GET; r_path := products ++ [Lit "statistics"];
     r_chain := [statistics] |};
  {| r_method := GET; r_path := products ++ [Lit "search"];
     r_chain := [search] |}
].

(** The routes and what follows them, for a request of one of the four
    methods that have routes, once the global middleware has let it
    through with its body parsed: the routes, then the 404 handler, and
    the error handler for whatever was thrown or passed to [next]. *)
Definition app (ctx : Ctx) (req : Request) (st : Store) : Response * Store :=
  let '(out, st') :=
    match dispatch routes ctx req st with
    | (Next, st') => notFound ctx req st'
    | res => res
    end in
  match out with
  | Send r => (r, st')
  | NextErr e | Throw e => (errorHandler ctx e, st')
  | Next => (errorHandler ctx (NotFoundError "Endpoint not found"), st')
  end.

(** [cors()] with its defaults answers a preflight request, which is
    every [OPTIONS] request, at once: 204 and no body.  Every other
    request goes on. *)
Definition preflight : Response :=
  {| status := StatusCodes.NO_CONTENT; body := NoBody |}.

(** The answer to a [HEAD] request is sent without its body. *)
Definition headOnly (r : Response) : Response :=
  {| status := status r; body := NoBody |}.

(** The request that the routes see, with the parsed body. *)
Definition received (m : Method) (inc : Incoming) (b : gmap string value)
  : Request :=
  {| method := m; path := i_path inc; headers := i_headers inc;
     query := i_query inc; params := ∅; reqBody := b |}.

(** The whole application: the global middleware in the order of
    [app.use], then the routes.  [cors()] answers an [OPTIONS] request
    before anything else sees it.  [express.json()] hands a failure to
    the error handler, past every route and the 404 handler.  The logger
    answers nothing.  The routes for [GET] answer a [HEAD] request, and
    a request of a method without routes reaches the 404 handler. *)
Definition serve (ctx : Ctx) (inc : Incoming) (st : Store)
  : Response * Store :=
  match i_verb inc with
  | OPTIONS => (preflight, st)
  | v =>
      match i_parsed inc with
      | Err e =>
          (if v is HEAD then headOnly (errorHandler ctx e)
           else errorHandler ctx e, st)
      | Ok b =>
          match v with
          | Routed m => app ctx (received m inc b) st
          | HEAD =>
              let '(r, st') := app ctx (received GET inc b) st in
              (headOnly r, st')
          | _ =>
              match notFound ctx (received GET inc b) st with
              | (Send r, st') => (r, st')
              | (NextErr e, st') | (Throw e, st') => (errorHandler ctx e, st')
              | (Next, st') =>
                  (errorHandler ctx (NotFoundError "Endpoint not found"), st')
              end
          end
      end
  end.

End Handlers.
End Server.

(** ** A reference runtime *)

(** An executable instance of [Runtime] for running the handlers on
    examples.  It agrees with the JavaScript built-ins on ASCII text, on
    plain decimal literals (sign, digits, optional fraction) and on
    patterns made of ordinary characters, for which a case-insensitive
    [$regex] is a case-insensitive substring test; a pattern with a
    metacharacter is reported as refused. *)
Module Ref.

Definition digit (a : ascii) : option Z :=
  let n := Z.of_nat (nat_of_ascii a) in
  if decide (48 ≤ n ≤ 57) then Some (n - 48) else None.

Fixpoint digits (s : string) (acc : Z) : option Z :=
  match s with
  | EmptyString => Some acc
  | String a s' => d ← digit a; digits s' (10 * acc + d)
  end.

Definition lower (a : ascii) : ascii :=
  let n := nat_of_ascii a in
  if decide (65 ≤ n ≤ 90)%nat then ascii_of_nat (n + 32) else a.

Fixpoint toLowerCase (s : string) : string :=
  match s with
  | EmptyString => EmptyString
  | String a s' => String (lower a) (toLowerCase s')
  end.

Fixpoint trimStart (s : string) : string :=
  match s with
  | String a s' => if isBlank a then trimStart s' else s
  | EmptyString => EmptyString
  end.

Fixpoint trimEnd (s : string) : string :=
  match s with
  | EmptyString => EmptyString
  | String a s' =>
      match trimEnd s' with
      | EmptyString => if isBlank a then EmptyString else String a EmptyString
      | t => String a t
      end
  end.

Definition trim (s : string) : string := trimEnd (trimStart s).

(** An unsigned decimal literal: digits, optionally a point and digits,
    with digits on one side of the point at least. *)
Definition unsignedDecimal (s : string) : option Qc :=
  match split "." s with
  | [i] => if decide (i = "") then None
           else z ← digits i 0; Some (Q2Qc (inject_Z z))
  | [i; f] =>
      if decide (i = "" ∧ f = "") then None
      else
        z ← digits (i +:+ f) 0;
        Some (Q2Qc (Qmake z (Z.to_pos (10 ^ Z.of_nat (String.length f)))))
  | _ => None
  end.

Definition toNumber (s : string) : num :=
  let s := trim s in
  if decide (s = "") then ofZ 0
  else if decide (s = "Infinity" ∨ s = "+Infinity") then PInf
  else if decide (s = "-Infinity") then NInf
  else match s with
       | String "-" u => from_option (λ q, Fin (- q)%Qc) NaN (unsignedDecimal u)
       | String "+" u => from_option Fin NaN (unsignedDecimal u)
       | _ => from_option Fin NaN (unsignedDecimal s)
       end.

Definition isHex (a : ascii) : bool :=
  let n := nat_of_ascii a in
  bool_decide ((48 ≤ n ≤ 57) ∨ (65 ≤ n ≤ 70) ∨ (97 ≤ n ≤ 102))%nat.

Definition isObjectId (s : string) : bool :=
  bool_decide (String.length s = 24%nat)
  && forallb isHex (String.list_ascii_of_string s).

Definition ordinary (a : ascii) : bool :=
  let n := nat_of_ascii a in
  bool_decide ((48 ≤ n ≤ 57) ∨ (65 ≤ n ≤ 90) ∨ (97 ≤ n ≤ 122) ∨ n = 32)%nat.

Definition regexValid (pat : string) : bool :=
  forallb ordinary (String.list_ascii_of_string pat).

Fixpoint isInfix (pat s : string) : bool :=
  String.prefix pat s
  || match s with
     | EmptyString => false
     | String _ s' => isInfix pat s'
     end.

Definition regexTest (pat s : string) : bool :=
  isInfix (toLowerCase pat) (toLowerCase s).

(** Decimal digits of a fraction [n / d] with [0 <= n < d], at most
    [fuel] of them. *)
Fixpoint fraction (fuel : nat) (n d : Z) : string :=
  match fuel with
  | O => ""
  | S fuel' =>
      if decide (n = 0) then ""
      else pretty (10 * n / d) +:+ fraction fuel' (10 * n mod d) d
  end.

Definition numToString (n : num) : string :=
  match n with
  | NaN => "NaN"
  | PInf => "Infinity"
  | NInf => "-Infinity"
  | Fin q =>
      let a := Z.abs (Qnum (this q)) in
      let d := Zpos (Qden (this q)) in
      (if decide (Qnum (this q) < 0) then "-" else "")
      +:+ pretty (a / d)
      +:+ (if decide (a mod d = 0) then ""
           else "." +:+ fraction 17 (a mod d) d)
  end.

(** The string the validators see for a field value. *)
Definition fieldString (v : option value) : string :=
  match v with
  | None | Some VNull | Some (VNum NaN) => ""
  | Some (VStr s) => s
  | Some (VNum n) => numToString n
  | Some (VBool b) => if b then "true" else "false"
  | Some VObject => "[object Object]"
  end.

Definition notEmpty (v : option value) : bool :=
  bool_decide (fieldString v ≠ "").

Definition isNumeric (v : option value) : bool :=
  let s := fieldString v in
  let u := match s with
           | String "-" u | String "+" u => u
           | _ => s
           end in
  match split "." u with
  | [i] => bool_decide (i ≠ "") && bool_decide (is_Some (digits i 0))
  | [i; f] => bool_decide (f ≠ "") && bool_decide (is_Some (digits (i +:+ f) 0))
  | _ => false
  end.

Definition isBoolean (v : option value) : bool :=
  bool_decide (fieldString v ∈ ["true"; "false"; "1"; "0"]).

(** A document id is read from its string, a time from a number of
    milliseconds; every other value is refused, date strings among
    them. *)
Definition castObjectId (v : value) : option string :=
  match v with
  | VStr s => if isObjectId s then Some s else None
  | _ => None
  end.

Definition castDate (v : value) : option (option Z) :=
  match v with
  | VNull => Some None
  | VNum (Fin q) => Some (Some (Qfloor q))
  | _ => None
  end.

End Ref.

#[global] Instance refRuntime : Runtime := {|
  toNumber := Ref.toNumber;
  numToString := Ref.numToString;
  toLowerCase := Ref.toLowerCase;
  trim := Ref.trim;
  strLength := String.length;
  isObjectId := Ref.isObjectId;
  regexValid := Ref.regexValid;
  regexTest := Ref.regexTest;
  notEmpty := Ref.notEmpty;
  isNumeric := Ref.isNumeric;
  isBoolean := Ref.isBoolean;
  castObjectId := Ref.castObjectId;
  castDate := Ref.castDate;
|}.

(** * Properties *)

(** ** Vocabulary *)

(** How a gate or handler fails: the status of the response it sends, or
    the status code carried by the error it throws or passes on. *)
Definition failsWith (code : Z) (o : Outcome) : Prop :=
  match o with
  | Send r => status r = code
  | NextErr e | Throw e => statusCode e = Some code
  | Next => False
  end.

(** The credential the middleware gate reads: the header, or else the
    query parameter. *)
Definition credential (req : Request) : option string :=
  if present (headers req !! "x-api-key") then headers req !! "x-api-key"
  else query req !! "apiKey".

(** The mutating routes of the server script. *)
Definition mutating `{R : Runtime} (req : Request) : Prop :=
  (method req = POST ∧ is_Some (matchPath Server.products (path req) ∅))
  ∨ ((method req = PUT ∨ method req = DELETE)
     ∧ is_Some (matchPath (Server.products ++ [Param "id"]) (path req) ∅)).

(** Two documents that agree on everything but [updatedAt]. *)
Definition sameData (p p' : Product) : Prop :=
  _id p' = _id p ∧ name p' = name p ∧ description p' = description p
  ∧ price p' = price p ∧ category p' = category p
  ∧ inStock p' = inStock p ∧ createdAt p' = createdAt p.

(** The value of a schema path of a stored product, as a JSON value. *)
Definition fieldOf (k : string) (p : Product) : option value :=
  if decide (k = "name") then Some (VStr (name p))
  else if decide (k = "description") then Some (VStr (description p))
  else if decide (k = "price") then Some (VNum (price p))
  else if decide (k = "category") then Some (VStr (category p))
  else if decide (k = "inStock") then Some (from_option VBool VNull (inStock p))
  else None.

(** What an update of the product [p] leaves in place: the document id,
    the creation time, and the prior value of every path the body
    omits. *)
Definition retains (body : gmap string value) (p p' : Product) : Prop :=
  _id p' = _id p ∧ createdAt p' = createdAt p
  ∧ ∀ k, body !! k = None → fieldOf k p' = fieldOf k p.

(** A successful update by the controller, path by path: a truthy value
    of the body is cast and set, anything else leaves the path as it
    was. *)
Definition controllerUpdated `{R : Runtime} (body : gmap string value)
    (p p' : Product) : Prop :=
  _id p' = _id p ∧ createdAt p' = createdAt p
  ∧ (if truthy (body !! "name")
     then ∃ s, castString (body !! "name") = Some (Some s) ∧ name p' = trim s
     else name p' = name p)
  ∧ (if truthy (body !! "description")
     then ∃ s, castString (body !! "description") = Some (Some s)
               ∧ description p' = trim s
     else description p' = description p)
  ∧ (if truthy (body !! "price")
     then castNumber (body !! "price") = Some (Some (price p'))
     else price p' = price p)
  ∧ (if truthy (body !! "category")
     then ∃ s, castString (body !! "category") = Some (Some s)
               ∧ category p' = toLowerCase s
     else category p' = category p)
  ∧ (if defined (body !! "inStock")
     then castBoolean (body !! "inStock") = Some (inStock p')
     else inStock p' = inStock p).

(** The invariants of a stored product: a non-negative price and a
    category of the enumeration. *)
Definition validProduct (p : Product) : Prop :=
  num_leb (ofZ 0) (price p) = true ∧ category p ∈ categories.

Definition storeInv (st : Store) : Prop := Forall validProduct st.

(** What the two schema declarations share on the price and category
    paths. *)
Definition guarded (sch : Schema) : Prop :=
  (∃ msg, n_min (sPrice sch) = Some (ofZ 0, msg))
  ∧ (∃ msg, s_enum (sCategory sch) = Some (categories, msg))
  ∧ s_trim (sCategory sch) = false ∧ s_lowercase (sCategory sch) = true.

(** A payload meets the invariants when its price casts to a
    non-negative number and its category, lower-cased, is in the
    enumeration. *)
Definition payloadOk `{R : Runtime} (b : gmap string value) : Prop :=
  ∃ n c, castNumber (b !! "price") = Some (Some n)
         ∧ num_leb (ofZ 0) n = true
         ∧ castString (b !! "category") = Some (Some c)
         ∧ toLowerCase c ∈ categories.

(** A validation failure: an error named [ValidationError] passed on, or
    a 400 response listing field errors. *)
Definition validationFailure (o : Outcome) : Prop :=
  match o with
  | NextErr e => errName e = "ValidationError"
  | Send r => status r = 400 ∧ ∃ errs, body r = ErrorsJson errs
  | _ => False
  end.

(** The handlers of the create route of the server script. *)
Definition serverCreate `{R : Runtime} : Handler :=
  runChain [Server.authenticate; Server.validateProduct; Server.createProduct].

(** The handlers of the update route of the server script. *)
Definition serverUpdate `{R : Runtime} : Handler :=
  runChain [Server.authenticate; Server.validateProduct; Server.updateProduct].

(** An integer as a rational. *)
Definition qz (z : Z) : Qc := Q2Qc (inject_Z z).

(** [n] is the ceiling of [t / l] for a positive [l]: the least integer
    with [t <= n * l]. *)
Definition isCeil (n t : Z) (l : Qc) : Prop :=
  (qz t ≤ qz n * l)%Qc ∧ (qz (n - 1) * l < qz t)%Qc.

(** The sum of [count] over the rows of [byCategory]. *)
Definition sumCounts (rows : list CategoryStats) : Z :=
  foldr (λ row acc, count row + acc) 0 rows.

(** A query without its condition on the category. *)
Definition otherConds (q : Query) : Query :=
  {| qName := qName q; qPrice := qPrice q; qCategory := None;
     qInStock := qInStock q; qOr := qOr q |}.

(** The items of a list response. *)
Definition returnedItems (o : Outcome) : option (list Product) :=
  match o with
  | Send {| body := ListJson _ _ _ _ _ _ data |}
  | Send {| body := PageJson _ _ _ data |} => Some data
  | _ => None
  end.

(** ** The claims that the code does not meet, as they are stated *)

(** On a mutating route the gate answers 401 without a credential and
    403 with a credential other than the configured secret. *)
Definition gateClaim `{R : Runtime} (ctx : Ctx) (req : Request) (st : Store)
  : Prop :=
  mutating req →
  (headers req !! "x-api-key" = None →
   status (Server.app ctx req st).1 = 401)
  ∧ (∀ k, headers req !! "x-api-key" = Some k →
          Some k ≠ env ctx !! "API_KEY" →
          status (Server.app ctx req st).1 = 403).

(** A lookup answers 404 when no record has the id and when the id is
    not well formed. *)
Definition getByIdClaim `{R : Runtime} (ctx : Ctx) (id : string) (st : Store)
  : Prop :=
  lookupDoc id st = None ∨ isObjectId id = false →
  status (Server.app ctx
            {| method := GET; path := ["api"; "products"; id]; headers := ∅;
               query := ∅; params := ∅; reqBody := ∅ |} st).1 = 404.

(** With only a category parameter and a store that fits in the default
    page, the items are exactly the records whose category is one of the
    comma-separated values. *)
Definition categoryClaim (list : Handler) (ctx : Ctx) (c : string) (st : Store)
  : Prop :=
  (length st ≤ 10)%nat →
  ∀ items,
    returnedItems
      (list ctx {| method := GET; path := ["api"; "products"]; headers := ∅;
                   query := {[ "category" := c ]}; params := ∅;
                   reqBody := ∅ |} st).1 = Some items →
    ∀ p, p ∈ items ↔ p ∈ st ∧ category p ∈ split "," c.

(** An error without a status code is answered with 500, and outside
    production the body carries a trace. *)
Definition responderClaim `{R : Runtime} (ctx : Ctx) (err : Error) : Prop :=
  (statusCode err = None → status (Server.errorHandler ctx err) = 500)
  ∧ (env ctx !! "NODE_ENV" ≠ Some "production" →
     ∃ msg t, body (Server.errorHandler ctx err) = MessageJson msg (Some t)).

(** The controller's update never sets a price to zero. *)
Definition neverZeroClaim `{R : Runtime} (ctx : Ctx) (req : Request)
    (st : Store) : Prop :=
  ∀ p p', lookupDoc (paramId req) st = Some p →
          price p ≠ ofZ 0 →
          lookupDoc (paramId req) (Controller.updateProduct ctx req st).2
          = Some p' →
          price p' ≠ ofZ 0.

(** ** Example data *)

Definition exCtx : Ctx :=
  {| env := {[ "API_KEY" := "s3cret"; "NODE_ENV" := "development" ]};
     now := 5000; freshId := "65f000000000000000000004";
     tieRank := λ _, 0 |}.

Definition testCtx : Ctx :=
  {| env := {[ "API_KEY" := "s3cret"; "NODE_ENV" := "test" ]};
     now := 5000; freshId := "65f000000000000000000004";
     tieRank := λ _, 0 |}.

Definition laptop : Product :=
  {| _id := "65f000000000000000000001"; name := "Laptop";
     description := "Fast"; price := Fin (Q2Qc (129999 # 100));
     category := "electronics"; inStock := Some true;
     createdAt := 1000; updatedAt := 1000 |}.

Definition shirt : Product :=
  {| _id := "65f000000000000000000002"; name := "Shirt";
     description := "Cotton"; price := ofZ 20;
     category := "clothing"; inStock := Some false;
     createdAt := 2000; updatedAt := 2000 |}.

Definition kettle : Product :=
  {| _id := "65f000000000000000000003"; name := "Kettle";
     description := "Steel"; price := ofZ 35;
     category := "kitchen"; inStock := Some true;
     createdAt := 3000; updatedAt := 3000 |}.

Definition exStore : Store := [laptop; shirt; kettle].

Definition getReq (p : list string) (qs : gmap string string) : Request :=
  {| method := GET; path := p; headers := ∅; query := qs; params := ∅;
     reqBody := ∅ |}.

Definition postReq (hs : gmap string string) (b : gmap string value)
  : Request :=
  {| method := POST; path := ["api"; "products"]; headers := hs;
     query := ∅; params := ∅; reqBody := b |}.

Definition putReq (id : string) (b : gmap string value) : Request :=
  {| method := PUT; path := ["api"; "products"; id];
     headers := {[ "x-api-key" := "s3cret" ]}; query := ∅;
     params := {[ "id" := id ]}; reqBody := b |}.

Definition laptopBody : gmap string value :=
  {[ "name" := VStr "Laptop"; "description" := VStr "Fast";
     "price" := VNum (Fin (Q2Qc (129999 # 100)));
     "category" := VStr "Electronics" ]}.

(** ** Vocabulary of the properties beyond the claims *)

(** A route answers a request when its method and its path match. *)
Definition routeMatches `{R : Runtime} (r : Route) (req : Request) : Prop :=
  r_method r = method req ∧ is_Some (matchPath (r_path r) (path req) ∅).

(** The routes of method [m] are the ones that can answer a request of
    verb [v]. *)
Definition handledAs (v : Verb) (m : Method) : Prop :=
  match v with
  | Routed m' => m' = m
  | HEAD => m = GET
  | _ => False
  end.

(** A request as it arrives, for the examples: no headers, no query, and
    the body as the parser leaves it. *)
Definition incoming (v : Verb) (p : list string)
    (b : result (gmap string value)) : Incoming :=
  {| i_verb := v; i_path := p; i_headers := ∅; i_query := ∅;
     i_parsed := b |}.

(** The error of the JSON body parser for a body that is too large. *)
Definition tooLarge : Error :=
  mkError "PayloadTooLargeError" "request entity too large" (Some 413).

(** The request carries the configured secret in its header. *)
Definition authorized (ctx : Ctx) (req : Request) : Prop :=
  present (headers req !! "x-api-key") = true
  ∧ headers req !! "x-api-key" = env ctx !! "API_KEY".

(** The ids of the documents of a store. *)
Definition ids (st : Store) : list string := _id <$> st.

(** The declared paths of a product that a create stores for a body: the
    cast values with the setters of the schema applied, and the stock
    flag, [true] when the body omits it. *)
Definition normalised `{R : Runtime} (body : gmap string value)
    (p : Product) : Prop :=
  (∃ s, castString (body !! "name") = Some (Some s) ∧ name p = trim s)
  ∧ (∃ s, castString (body !! "description") = Some (Some s)
          ∧ description p = trim s)
  ∧ castNumber (body !! "price") = Some (Some (price p))
  ∧ (∃ s, castString (body !! "category") = Some (Some s)
          ∧ category p = toLowerCase s)
  ∧ (if defined (body !! "inStock")
     then castBoolean (body !! "inStock") = Some (inStock p)
     else inStock p = Some true).

(** What a successful create of the controller stores for a body: the
    controller passes on the five declared paths only, so the product
    has the id the store assigns and both timestamps at the time of the
    request. *)
Definition created `{R : Runtime} (ctx : Ctx) (body : gmap string value)
    (p : Product) : Prop :=
  _id p = freshId ctx ∧ createdAt p = now ctx ∧ updatedAt p = now ctx
  ∧ normalised body p.

(** What a successful create of the server script stores for a body: the
    script passes on the whole body, so an [_id] of the body is the id
    of the product and a [createdAt] of the body its creation time; the
    id the store assigns and the time of the request are used for what
    the body leaves out, and [updatedAt] is the creation time. *)
Definition createdFrom `{R : Runtime} (ctx : Ctx) (body : gmap string value)
    (p : Product) : Prop :=
  match body !! "_id" with
  | Some v => castObjectId v = Some (_id p)
  | None => _id p = freshId ctx
  end
  ∧ match body !! "createdAt" with
    | Some v => castDate v = Some (Some (createdAt p))
                ∨ (castDate v = Some None ∧ createdAt p = now ctx)
    | None => createdAt p = now ctx
    end
  ∧ updatedAt p = createdAt p
  ∧ normalised body p.

(** What one request may do to the store: nothing, append one valid
    document, under the id the store assigns or under an id that no
    document has, write one document back under its id, or remove one
    document. *)
Inductive storeStep (ctx : Ctx) (st : Store) : Store → Prop :=
  | step_none : storeStep ctx st st
  | step_insert p :
      _id p = freshId ctx ∨ lookupDoc (_id p) st = None →
      validProduct p → storeStep ctx st (st ++ [p])
  | step_replace p :
      (storeInv st → validProduct p) → storeStep ctx st (replaceDoc p st)
  | step_remove id : storeStep ctx st (removeDoc id st).

(** The answer to a request that changed the store: 201 to a POST, 200 to
    a PUT, and to a DELETE the status [deleted], which is 204 in the
    server script and 200 in the controller. *)
Definition successFor (deleted : Z) (m : Method) (code : Z) : Prop :=
  match m with
  | POST => code = 201
  | PUT => code = 200
  | DELETE => code = deleted
  | GET => False
  end.

(** The store after a sequence of requests to an application, each with
    the context of its moment. *)
Definition after (app : Ctx → Request → Store → Store)
    (reqs : list (Ctx * Request)) (st : Store) : Store :=
  foldl (λ s cr, app cr.1 cr.2 s) st reqs.

(** A write by a request of method [m]: one store operation, answered
    with the success status of the method. *)
Definition wrote (deleted : Z) (ctx : Ctx) (st : Store) (m : Method)
    (res : Outcome * Store) : Prop :=
  storeStep ctx st res.2
  ∧ ∃ r, res.1 = Send r ∧ successFor deleted m (status r).

(** A body that gives an [_id] and a [createdAt] besides the declared
    paths. *)
Definition taggedBody : gmap string value :=
  <[ "_id" := VStr "65f0000000000000000000aa" ]>
    (<[ "createdAt" := VNum (ofZ 1234) ]> laptopBody).

(** A delete request for an id, with the secret. *)
Definition deleteReq (id : string) : Request :=
  {| method := DELETE; path := ["api"; "products"; id];
     headers := {[ "x-api-key" := "s3cret" ]}; query := ∅;
     params := {[ "id" := id ]}; reqBody := ∅ |}.

(** The documents a list request selects, in the order of its sort
    parameter, before the window of the page is cut out. *)
Definition selection `{R : Runtime} (ctx : Ctx) (sch : Schema) (q : Query)
    (req : Request) (st : Store) : list Product :=
  sortDocs (tieRank ctx) (default "-createdAt" (query req !! "sort"))
    (List.filter (matches sch q) st).

(** What the query parameters of the controller's list ask of a product:
    a parameter that is absent or empty asks nothing, and the stock
    parameter asks something only as the literal [true] or [false]. *)
Definition meets `{R : Runtime} (req : Request) (p : Product) : Prop :=
  (∀ n, query req !! "name" = Some n → n ≠ "" → regexTest n (name p) = true)
  ∧ (∀ lo, query req !! "minPrice" = Some lo → lo ≠ "" →
       num_leb (toNumber lo) (price p) = true)
  ∧ (∀ hi, query req !! "maxPrice" = Some hi → hi ≠ "" →
       num_leb (price p) (toNumber hi) = true)
  ∧ (∀ c, query req !! "category" = Some c → c ≠ "" →
       category p ∈ toLowerCase <$> split "," c)
  ∧ (query req !! "inStock" = Some "true" → inStock p = Some true)
  ∧ (query req !! "inStock" = Some "false" → inStock p = Some false).

(** The same for the list of the server script, which reads [category],
    [inStock] and [search]. *)
Definition serverMeets `{R : Runtime} (req : Request) (p : Product) : Prop :=
  (∀ c, query req !! "category" = Some c → c ≠ "" →
     category p = toLowerCase c)
  ∧ (query req !! "inStock" = Some "true" → inStock p = Some true)
  ∧ (query req !! "inStock" = Some "false" → inStock p = Some false)
  ∧ (∀ s, query req !! "search" = Some s → s ≠ "" →
       regexTest s (name p) = true ∨ regexTest s (description p) = true).

(** The rows of a statistics response. *)
Definition statsRows (o : Outcome) : option (list CategoryStats) :=
  match o with
  | Send {| body := StatsJson _ _ _ rows |} => Some rows
  | _ => None
  end.


(** The checks of the validation middleware on a body. *)
Definition checked `{R : Runtime} (b : gmap string value) : Prop :=
  notEmpty (b !! "name") = true ∧ notEmpty (b !! "description") = true
  ∧ isNumeric (b !! "price") = true ∧ notEmpty (b !! "category") = true
  ∧ (defined (b !! "inStock") = true → isBoolean (b !! "inStock") = true).



(** What the two list responses have in common: the total, the number of
    pages and the items. *)
Definition listSummary (o : Outcome) : option (Z * num * list Product) :=
  match o with
  | Send {| body := ListJson _ total _ tp _ _ data |}
  | Send {| body := PageJson total tp _ data |} => Some (total, tp, data)
  | _ => None
  end.

(** * Proofs *)

(** Evaluation of a decidable statement about concrete data. *)
Ltac run := apply (bool_decide_unpack _); by vm_compute.

(** ** The store *)

Lemma lookupDoc_id id st p : lookupDoc id st = Some p → _id p = id.
Proof.
  unfold lookupDoc. intros H. apply find_some in H as [_ H].
  by apply bool_decide_eq_true in H.
Qed.

Lemma lookupDoc_replace p' st p :
  lookupDoc (_id p') st = Some p →
  lookupDoc (_id p') (replaceDoc p' st) = Some p'.
Proof.
  unfold lookupDoc. induction st as [|q st IH]; simpl; [done|].
  case_bool_decide as Hq.
  - intros _. rewrite decide_True by done. simpl.
    by rewrite bool_decide_eq_true_2.
  - intros H. rewrite decide_False by done. simpl.
    rewrite bool_decide_eq_false_2 by done. auto.
Qed.

Lemma lookupDoc_replace_ne p' st id :
  id ≠ _id p' → lookupDoc id (replaceDoc p' st) = lookupDoc id st.
Proof.
  unfold lookupDoc. intros Hne. induction st as [|q st IH]; simpl; [done|].
  destruct (decide (_id q = _id p')) as [Hq|Hq]; simpl.
  - rewrite !bool_decide_eq_false_2; [done| |]; congruence.
  - by rewrite IH.
Qed.

Lemma window_sublist skip limit docs data :
  window skip limit docs = Ok data → data `sublist_of` docs.
Proof.
  unfold window. destruct (num_to_nat skip) as [s|]; [|done].
  destruct (num_to_nat limit) as [l|]; [|done].
  intros [= <-]. case_decide.
  - apply sublist_drop.
  - etrans; [apply sublist_take|apply sublist_drop].
Qed.

Lemma window_sub skip limit docs data p :
  window skip limit docs = Ok data → p ∈ data → p ∈ docs.
Proof. intros Hw Hp. eapply elem_of_sublist, window_sublist; eauto. Qed.

(** ** Documents: assignment, validation, saving *)

Ltac kept :=
  unfold assignName, assignDescription, assignPrice, assignCategory,
    assignInStock, castFailed;
  by repeat case_match.

(** Case analysis on the conditions that guard the assignments
    mentioned in a hypothesis. *)
Ltac guards H :=
  repeat match type of H with
         | context [if ?b then _ else _] => destruct b
         end.

Section Documents.
Context `{R : Runtime}.

Lemma assignName_description sch v d : d_description (assignName sch v d) = d_description d.
Proof. kept. Qed.

Lemma assignName_price sch v d : d_price (assignName sch v d) = d_price d.
Proof. kept. Qed.

Lemma assignName_category sch v d : d_category (assignName sch v d) = d_category d.
Proof. kept. Qed.

Lemma assignName_inStock sch v d : d_inStock (assignName sch v d) = d_inStock d.
Proof. kept. Qed.

Lemma assignName_orig sch v d : d_orig (assignName sch v d) = d_orig d.
Proof. kept. Qed.

Lemma assignDescription_name sch v d : d_name (assignDescription sch v d) = d_name d.
Proof. kept. Qed.

Lemma assignDescription_price sch v d : d_price (assignDescription sch v d) = d_price d.
Proof. kept. Qed.

Lemma assignDescription_category sch v d : d_category (assignDescription sch v d) = d_category d.
Proof. kept. Qed.

Lemma assignDescription_inStock sch v d : d_inStock (assignDescription sch v d) = d_inStock d.
Proof. kept. Qed.

Lemma assignDescription_orig sch v d : d_orig (assignDescription sch v d) = d_orig d.
Proof. kept. Qed.

Lemma assignPrice_name v d : d_name (assignPrice v d) = d_name d.
Proof. kept. Qed.

Lemma assignPrice_description v d : d_description (assignPrice v d) = d_description d.
Proof. kept. Qed.

Lemma assignPrice_category v d : d_category (assignPrice v d) = d_category d.
Proof. kept. Qed.

Lemma assignPrice_inStock v d : d_inStock (assignPrice v d) = d_inStock d.
Proof. kept. Qed.

Lemma assignPrice_orig v d : d_orig (assignPrice v d) = d_orig d.
Proof. kept. Qed.

Lemma assignCategory_name sch v d : d_name (assignCategory sch v d) = d_name d.
Proof. kept. Qed.

Lemma assignCategory_description sch v d : d_description (assignCategory sch v d) = d_description d.
Proof. kept. Qed.

Lemma assignCategory_price sch v d : d_price (assignCategory sch v d) = d_price d.
Proof. kept. Qed.

Lemma assignCategory_inStock sch v d : d_inStock (assignCategory sch v d) = d_inStock d.
Proof. kept. Qed.

Lemma assignCategory_orig sch v d : d_orig (assignCategory sch v d) = d_orig d.
Proof. kept. Qed.

Lemma assignInStock_name v d : d_name (assignInStock v d) = d_name d.
Proof. kept. Qed.

Lemma assignInStock_description v d : d_description (assignInStock v d) = d_description d.
Proof. kept. Qed.

Lemma assignInStock_price v d : d_price (assignInStock v d) = d_price d.
Proof. kept. Qed.

Lemma assignInStock_category v d : d_category (assignInStock v d) = d_category d.
Proof. kept. Qed.

Lemma assignInStock_orig v d : d_orig (assignInStock v d) = d_orig d.
Proof. kept. Qed.

Lemma assignName_ok sch v d :
  d_castErrors (assignName sch v d) = [] →
  ∃ s, castString v = Some s
       ∧ d_name (assignName sch v d) = setString (sName sch) <$> s
       ∧ d_castErrors d = [].
Proof.
  unfold assignName, castFailed. destruct (castString v) as [s|]; simpl.
  - intros H. by exists s.
  - intros H. by apply app_eq_nil in H as [_ ?].
Qed.

Lemma assignDescription_ok sch v d :
  d_castErrors (assignDescription sch v d) = [] →
  ∃ s, castString v = Some s
       ∧ d_description (assignDescription sch v d)
         = setString (sDescription sch) <$> s
       ∧ d_castErrors d = [].
Proof.
  unfold assignDescription, castFailed. destruct (castString v) as [s|]; simpl.
  - intros H. by exists s.
  - intros H. by apply app_eq_nil in H as [_ ?].
Qed.

Lemma assignPrice_ok v d :
  d_castErrors (assignPrice v d) = [] →
  ∃ n, castNumber v = Some n ∧ d_price (assignPrice v d) = n
       ∧ d_castErrors d = [].
Proof.
  unfold assignPrice, castFailed. destruct (castNumber v) as [s|]; simpl.
  - intros H. by exists s.
  - intros H. by apply app_eq_nil in H as [_ ?].
Qed.

Lemma assignCategory_ok sch v d :
  d_castErrors (assignCategory sch v d) = [] →
  ∃ s, castString v = Some s
       ∧ d_category (assignCategory sch v d) = setString (sCategory sch) <$> s
       ∧ d_castErrors d = [].
Proof.
  unfold assignCategory, castFailed. destruct (castString v) as [s|]; simpl.
  - intros H. by exists s.
  - intros H. by apply app_eq_nil in H as [_ ?].
Qed.

Lemma assignInStock_ok v d :
  d_castErrors (assignInStock v d) = [] →
  ∃ b, castBoolean v = Some b ∧ d_inStock (assignInStock v d) = b
       ∧ d_castErrors d = [].
Proof.
  unfold assignInStock, castFailed. destruct (castBoolean v) as [s|]; simpl.
  - intros H. by exists s.
  - intros H. by apply app_eq_nil in H as [_ ?].
Qed.

Lemma pathError_nil path e : pathError path e = [] → e = None.
Proof. by destruct e. Qed.

Lemma validate_nil sch d :
  validate sch d = [] →
  d_castErrors d = []
  ∧ validateString (sName sch) (d_name d) = None
  ∧ validateString (sDescription sch) (d_description d) = None
  ∧ validateNumber (sPrice sch) (d_price d) = None
  ∧ validateString (sCategory sch) (d_category d) = None.
Proof.
  unfold validate. intros H.
  repeat (apply app_eq_nil in H as [? H]).
  eauto 10 using pathError_nil.
Qed.

Lemma validateNumber_min p lo msg n :
  n_min p = Some (lo, msg) →
  validateNumber p (Some n) = None → num_leb lo n = true.
Proof.
  unfold validateNumber. intros ->. by destruct (num_leb lo n).
Qed.

Lemma validateString_enum p vals msg s :
  s_enum p = Some (vals, msg) →
  validateString p (Some s) = None → s ∈ vals.
Proof.
  unfold validateString. intros ->. case_decide; [done|].
  case_bool_decide; [done|].
  by destruct (s_maxlength p) as [[??]|]; [case_decide|].
Qed.

Lemma save_loaded sch ctx d st o p' st' :
  d_orig d = Some o →
  save sch ctx d st = Ok (p', st') →
  st' = replaceDoc p' st ∧ _id p' = _id o ∧ createdAt p' = createdAt o
  ∧ d_name d = Some (name p') ∧ d_description d = Some (description p')
  ∧ d_price d = Some (price p') ∧ d_category d = Some (category p')
  ∧ d_inStock d = inStock p' ∧ validate sch d = [].
Proof.
  unfold save. intros Ho.
  destruct (validate sch d);
    [|by destruct (d_name d), (d_description d), (d_price d), (d_category d)].
  destruct (d_name d) as [n|]; [|done].
  destruct (d_description d) as [de|]; [|done].
  destruct (d_price d) as [pr|]; [|done].
  destruct (d_category d) as [c|]; [|done].
  rewrite Ho. case_decide as Heq; intros [= <- <-].
  - rewrite <- Heq. simpl. done.
  - simpl. done.
Qed.

Lemma save_new sch ctx d st p' st' :
  d_orig d = None →
  save sch ctx d st = Ok (p', st') →
  st' = st ++ [p'] ∧ _id p' = freshId ctx
  ∧ d_name d = Some (name p') ∧ d_description d = Some (description p')
  ∧ d_price d = Some (price p') ∧ d_category d = Some (category p')
  ∧ d_inStock d = inStock p' ∧ validate sch d = [].
Proof.
  unfold save. intros Ho.
  destruct (validate sch d);
    [|by destruct (d_name d), (d_description d), (d_price d), (d_category d)].
  destruct (d_name d) as [n|]; [|done].
  destruct (d_description d) as [de|]; [|done].
  destruct (d_price d) as [pr|]; [|done].
  destruct (d_category d) as [c|]; [|done].
  rewrite Ho. intros [= <- <-]. simpl. done.
Qed.

Lemma save_error sch ctx d st e :
  save sch ctx d st = Err e → errName e = "ValidationError".
Proof.
  unfold save.
  destruct (validate sch d), (d_name d), (d_description d), (d_price d),
    (d_category d), (d_orig d); by intros [= <-].
Qed.

End Documents.

Create Rewrite HintDb doc.
#[global] Hint Rewrite
@assignName_description @assignName_price @assignName_category @assignName_inStock @assignName_orig @assignDescription_name @assignDescription_price @assignDescription_category @assignDescription_inStock @assignDescription_orig @assignPrice_name @assignPrice_description @assignPrice_category @assignPrice_inStock @assignPrice_orig @assignCategory_name @assignCategory_description @assignCategory_price @assignCategory_inStock @assignCategory_orig @assignInStock_name @assignInStock_description @assignInStock_price @assignInStock_category @assignInStock_orig
 : doc.

(** ** Authentication *)

Lemma middleware_gate (ctx : Ctx) (req : Request) (st : Store) :
  (present (credential req) = false →
     Middleware.authenticate ctx req st
     = (Throw (ApiError 401 "API key is required"), st))
  ∧ (present (credential req) = true →
     credential req ≠ env ctx !! "API_KEY" →
     Middleware.authenticate ctx req st
     = (Throw (ApiError 403 "Invalid API key"), st))
  ∧ (present (credential req) = true →
     credential req = env ctx !! "API_KEY" →
     Middleware.authenticate ctx req st = (Next, st)).
Proof.
  unfold Middleware.authenticate, credential.
  destruct (present (headers req !! "x-api-key")) eqn:Hh.
  - rewrite Hh. simpl. repeat split; intros; try done.
    + by rewrite bool_decide_eq_true_2.
    + by rewrite bool_decide_eq_false_2 by (by intros ?).
  - destruct (present (query req !! "apiKey")) eqn:Hq; simpl;
      repeat split; intros; try done.
    + by rewrite bool_decide_eq_true_2.
    + by rewrite bool_decide_eq_false_2 by (by intros ?).
Qed.

Section Gate.
Context `{R : Runtime}.

Lemma inline_gate (ctx : Ctx) (req : Request) (st : Store) :
  present (headers req !! "x-api-key") = false
  ∨ headers req !! "x-api-key" ≠ env ctx !! "API_KEY" →
  Server.authenticate ctx req st
  = (json 401 (MessageJson "Invalid or missing API key" None), st).
Proof.
  unfold Server.authenticate. intros [H|H].
  - by rewrite H.
  - rewrite (bool_decide_eq_true_2 _ H). by rewrite orb_true_r.
Qed.

Lemma inline_gate_outcome (ctx : Ctx) (req : Request) (st : Store) :
  Server.authenticate ctx req st = (Next, st)
  ∨ Server.authenticate ctx req st
    = (json 401 (MessageJson "Invalid or missing API key" None), st).
Proof. unfold Server.authenticate. case_match; auto. Qed.

(** On each mutating route the gate runs first. *)
Lemma app_gate (ctx : Ctx) (req : Request) (st : Store) :
  mutating req →
  present (headers req !! "x-api-key") = false
  ∨ headers req !! "x-api-key" ≠ env ctx !! "API_KEY" →
  Server.app ctx req st
  = ({| status := 401;
        body := MessageJson "Invalid or missing API key" None |}, st).
Proof.
  intros Hm Hk. unfold Server.app, Server.routes.
  destruct Hm as [[Hmeth [ps Hps]]|[Hmeth [ps Hps]]].
  - cbn [dispatch r_method r_path r_chain]. rewrite Hmeth.
    repeat (rewrite decide_False by done).
    rewrite decide_True by done. rewrite Hps.
    cbn [runChain]. by rewrite inline_gate.
  - cbn [dispatch r_method r_path r_chain].
    destruct Hmeth as [Hmeth|Hmeth]; rewrite Hmeth.
    + repeat (rewrite decide_False by done).
      rewrite decide_True by done. rewrite Hps.
      cbn [runChain]. by rewrite inline_gate.
    + repeat (rewrite decide_False by done).
      rewrite decide_True by done. rewrite Hps.
      cbn [runChain]. by rewrite inline_gate.
Qed.

End Gate.

(** C1, as amended.  The middleware Auth Gate, which reads the header or
    else the [apiKey] query parameter, fails with 401 when no non-empty
    credential is supplied and with 403 when a non-empty credential
    differs from the configured secret.  The inline Auth Gate of the
    server script, which guards every mutating route there, answers 401
    in both cases, before anything else runs and without touching the
    store. *)
Theorem auth_gate_status `{R : Runtime} (ctx : Ctx) (req : Request)
    (st : Store) :
  (present (credential req) = false →
     Middleware.authenticate ctx req st
     = (Throw (ApiError 401 "API key is required"), st))
  ∧ (present (credential req) = true →
     credential req ≠ env ctx !! "API_KEY" →
     Middleware.authenticate ctx req st
     = (Throw (ApiError 403 "Invalid API key"), st))
  ∧ (mutating req →
     present (headers req !! "x-api-key") = false
     ∨ headers req !! "x-api-key" ≠ env ctx !! "API_KEY" →
     Server.app ctx req st
     = ({| status := 401;
           body := MessageJson "Invalid or missing API key" None |}, st)).
Proof.
  destruct (middleware_gate ctx req st) as (H1 & H2 & _).
  split; [done|]. split; [done|]. apply app_gate.
Qed.

Lemma auth_gate_status_witness :
  Middleware.authenticate exCtx (postReq ∅ laptopBody) exStore
  = (Throw (ApiError 401 "API key is required"), exStore)
  ∧ Middleware.authenticate exCtx
      (postReq {[ "x-api-key" := "guess" ]} laptopBody) exStore
    = (Throw (ApiError 403 "Invalid API key"), exStore)
  ∧ Server.app exCtx (postReq {[ "x-api-key" := "guess" ]} laptopBody) exStore
    = ({| status := 401;
          body := MessageJson "Invalid or missing API key" None |}, exStore).
Proof.
  split; [|split].
  - apply (auth_gate_status exCtx (postReq ∅ laptopBody) exStore).
    reflexivity.
  - apply (auth_gate_status exCtx
             (postReq {[ "x-api-key" := "guess" ]} laptopBody) exStore).
    + reflexivity.
    + vm_compute. discriminate.
  - apply (auth_gate_status exCtx
             (postReq {[ "x-api-key" := "guess" ]} laptopBody) exStore).
    + left. split; [reflexivity|]. vm_compute. eexists. reflexivity.
    + right. vm_compute. discriminate.
Defined.

(** C1 as stated fails on the server script: a create request with a
    credential other than the secret is answered 401, not 403. *)
Lemma wrong_key_is_unauthorized :
  ¬ gateClaim exCtx (postReq {[ "x-api-key" := "guess" ]} laptopBody) exStore.
Proof.
  intros H. destruct H as [_ H].
  - left. split; [reflexivity|]. vm_compute. eexists. reflexivity.
  - specialize (H "guess"). revert H. vm_compute. intros H.
    discriminate H; [reflexivity|discriminate].
Qed.

(** ** Routing and the error responder *)

Section Dispatch.
Context `{R : Runtime}.

Lemma errorHandler_status ctx e :
  statusCode e = None → status (Server.errorHandler ctx e) = 500.
Proof. unfold Server.errorHandler. by intros ->. Qed.


(** A GET request for a product path of three segments is answered by
    the lookup route, whatever the third segment is. *)
Lemma get_by_id_route ctx hs qs ps b id st :
  id ≠ "" →
  Server.app ctx
    {| method := GET; path := ["api"; "products"; id]; headers := hs;
       query := qs; params := ps; reqBody := b |} st
  = match findById id st with
    | Err e => (Server.errorHandler ctx e, st)
    | Ok None =>
        (Server.errorHandler ctx (NotFoundError "Product not found"), st)
    | Ok (Some product) =>
        ({| status := 200; body := ProductJson product |}, st)
    end.
Proof.
  intros Hid. unfold Server.app, Server.routes, Server.products.
  cbn [dispatch r_method r_path r_chain app method path matchPath].
  rewrite !decide_True by done.
  cbn [matchPath]. rewrite decide_False by done.
  cbn [runChain]. unfold Server.getProduct at 1, paramId.
  cbn [params withParams]. rewrite lookup_insert_eq. simpl.
  by destruct (findById id st) as [[?|]|].
Qed.

(** The handlers of a chain, one step at a time. *)
(** The validation middleware answers 400 or calls [next()]; it never
    touches the store. *)
Lemma validateProduct_outcome ctx req st :
  Server.validateProduct ctx req st = (Next, st)
  ∨ ∃ errs, Server.validateProduct ctx req st
            = (json 400 (ErrorsJson errs), st).
Proof. unfold Server.validateProduct. case_match; eauto. Qed.

Lemma runChain_last (h : Handler) ctx req st :
  runChain [h] ctx req st = h ctx req st.
Proof. simpl. by destruct (h ctx req st) as [[] ?]. Qed.

Lemma runChain_next (h : Handler) hs ctx req st st' :
  h ctx req st = (Next, st') →
  runChain (h :: hs) ctx req st = runChain hs ctx req st'.
Proof. simpl. by intros ->. Qed.

Lemma runChain_send (h : Handler) hs ctx req st r st' :
  h ctx req st = (Send r, st') →
  runChain (h :: hs) ctx req st = (Send r, st').
Proof. simpl. by intros ->. Qed.

(** The search handler itself, were it reached. *)
Lemma search_handler ctx req st :
  (present (query req !! "q") = false →
   ∃ msg, Server.search ctx req st = (json 400 (MessageJson msg None), st))
  ∧ (∀ q, query req !! "q" = Some q → q ≠ "" → regexValid q = true →
     let found :=
       List.filter
         (λ p, regexTest q (name p) || regexTest q (description p)) st in
     Server.search ctx req st
     = (json 200 (SearchJson (length found) found), st)).
Proof.
  unfold Server.search. split.
  - intros ->. simpl. by eexists.
  - intros q Hq Hne Hv. rewrite Hq. simpl.
    unfold str_truthy. rewrite bool_decide_eq_true_2 by done. simpl.
    unfold find, selectDocs, queryError. simpl. rewrite Hv. simpl.
    done.
Qed.

End Dispatch.

(** C2 fails on the code.  The server script registers the lookup route
    [/api/products/:id] before [/api/products/search], so a search
    request is answered by the lookup with the id [search]: whatever the
    query string, the lookup fails on the id and the response is 500,
    neither the 400 nor the list of matches of the search handler. *)
Theorem search_route_shadowed `{R : Runtime} (ctx : Ctx)
    (qs : gmap string string) (st : Store) :
  isObjectId "search" = false →
  Server.app ctx (getReq ["api"; "products"; "search"] qs) st
  = (Server.errorHandler ctx (CastError "_id"), st)
  ∧ status (Server.app ctx (getReq ["api"; "products"; "search"] qs) st).1
    = 500.
Proof.
  intros H. unfold getReq. rewrite get_by_id_route by done.
  unfold findById. by rewrite H.
Qed.

Lemma search_route_shadowed_witness :
  Server.app exCtx (getReq ["api"; "products"; "search"] ∅) exStore
  = (Server.errorHandler exCtx (CastError "_id"), exStore)
  ∧ status (Server.app exCtx
              (getReq ["api"; "products"; "search"] ∅) exStore).1 = 500.
Proof. apply (search_route_shadowed exCtx ∅ exStore). reflexivity. Defined.

(** ** Lookup by id *)

Section GetById.
Context `{R : Runtime}.

Lemma controller_get_by_id ctx req st :
  (isObjectId (paramId req) = true → lookupDoc (paramId req) st = None →
   Controller.getProductById ctx req st
   = (json 404
        (ErrorJson ("Product not found with id of " +:+ paramId req)), st))
  ∧ (isObjectId (paramId req) = false →
     Controller.getProductById ctx req st = (NextErr (CastError "_id"), st)).
Proof.
  unfold Controller.getProductById, findById.
  split; [intros -> ->|intros ->]; done.
Qed.

Lemma server_get_by_id ctx req st :
  (isObjectId (paramId req) = true → lookupDoc (paramId req) st = None →
   Server.getProduct ctx req st
   = (NextErr (NotFoundError "Product not found"), st))
  ∧ (isObjectId (paramId req) = false →
     Server.getProduct ctx req st = (NextErr (CastError "_id"), st)).
Proof.
  unfold Server.getProduct, findById.
  split; [intros -> ->|intros ->]; done.
Qed.

End GetById.

(** C3, as amended.  A lookup fails with NotFound (404) when the id is a
    well-formed identifier and no record has it: the controller answers
    404 itself, the server script passes on an error that carries 404 and
    its Error Responder answers 404.  When the id is not a well-formed
    identifier the store's lookup raises a cast error without a status
    code; both handlers pass it on, and the Error Responder of the server
    script answers 500. *)
Theorem get_by_id_status `{R : Runtime} (ctx : Ctx) (req : Request)
    (st : Store) :
  (isObjectId (paramId req) = true → lookupDoc (paramId req) st = None →
     failsWith 404 (Controller.getProductById ctx req st).1
     ∧ failsWith 404 (Server.getProduct ctx req st).1
     ∧ (paramId req ≠ "" →
        status (Server.app ctx
                  (getReq ["api"; "products"; paramId req] (query req)) st).1
        = 404))
  ∧ (isObjectId (paramId req) = false →
     Controller.getProductById ctx req st = (NextErr (CastError "_id"), st)
     ∧ Server.getProduct ctx req st = (NextErr (CastError "_id"), st)
     ∧ statusCode (CastError "_id") = None
     ∧ (paramId req ≠ "" →
        status (Server.app ctx
                  (getReq ["api"; "products"; paramId req] (query req)) st).1
        = 500)).
Proof.
  destruct (controller_get_by_id ctx req st) as [Hc1 Hc2].
  destruct (server_get_by_id ctx req st) as [Hs1 Hs2].
  split.
  - intros Hid Hno. rewrite Hc1, Hs1 by done. repeat split.
    intros Hne. unfold getReq. rewrite get_by_id_route by done.
    unfold findById. by rewrite Hid, Hno.
  - intros Hid. rewrite Hc2, Hs2 by done. repeat split.
    intros Hne. unfold getReq. rewrite get_by_id_route by done.
    unfold findById. by rewrite Hid.
Qed.

Lemma get_by_id_status_witness :
  (failsWith 404
     (Controller.getProductById exCtx
        (putReq "65f0000000000000000000ff" ∅) exStore).1
   ∧ failsWith 404
       (Server.getProduct exCtx
          (putReq "65f0000000000000000000ff" ∅) exStore).1
   ∧ status (Server.app exCtx
               (getReq ["api"; "products"; "65f0000000000000000000ff"] ∅)
               exStore).1 = 404)
  ∧ status (Server.app exCtx
              (getReq ["api"; "products"; "abc"] ∅) exStore).1 = 500.
Proof.
  split.
  - destruct (get_by_id_status exCtx
                (putReq "65f0000000000000000000ff" ∅) exStore) as [H _].
    destruct H as (H1 & H2 & H3); [reflexivity|reflexivity|].
    split; [exact H1|]. split; [exact H2|].
    apply H3. vm_compute. discriminate.
  - destruct (get_by_id_status exCtx (putReq "abc" ∅) exStore) as [_ H].
    destruct H as (_ & _ & _ & H); [reflexivity|].
    apply H. vm_compute. discriminate.
Defined.

(** C3 as stated fails on the code: the lookup of an id that is not well
    formed is answered 500, not 404. *)
Lemma malformed_id_is_server_error : ¬ getByIdClaim exCtx "abc" exStore.
Proof.
  unfold getByIdClaim. intros H.
  assert (status (Server.app exCtx
                    (getReq ["api"; "products"; "abc"] ∅) exStore).1 = 500)
    as H500 by run.
  unfold getReq in H500. rewrite H in H500; [done|]. by right.
Qed.

(** ** The error responder *)

(** C9, as amended.  An error that carries no status code is answered
    with status 500, and the body carries the diagnostic trace exactly
    when the environment mode is [development]; in every other mode,
    production or not, and when the mode is not set, the body has no
    trace. *)
Theorem error_responder `{R : Runtime} (ctx : Ctx) (err : Error) :
  (statusCode err = None → status (Server.errorHandler ctx err) = 500)
  ∧ ∃ msg,
      (env ctx !! "NODE_ENV" = Some "development" →
       body (Server.errorHandler ctx err) = MessageJson msg (Some (stack err)))
      ∧ (env ctx !! "NODE_ENV" ≠ Some "development" →
         body (Server.errorHandler ctx err) = MessageJson msg None).
Proof.
  split; [apply errorHandler_status|].
  unfold Server.errorHandler. simpl. eexists. split; intros H.
  - by rewrite bool_decide_eq_true_2.
  - by rewrite bool_decide_eq_false_2.
Qed.

Lemma error_responder_witness :
  status (Server.errorHandler exCtx (CastError "_id")) = 500
  ∧ (∃ msg, body (Server.errorHandler exCtx (CastError "_id"))
            = MessageJson msg (Some (stack (CastError "_id"))))
  ∧ (∃ msg, body (Server.errorHandler testCtx (CastError "_id"))
            = MessageJson msg None).
Proof.
  destruct (error_responder exCtx (CastError "_id")) as [Hs [msg [Hdev _]]].
  destruct (error_responder testCtx (CastError "_id")) as [_ [msg' [_ Hno]]].
  split; [apply Hs; reflexivity|]. split.
  - exists msg. apply Hdev. reflexivity.
  - exists msg'. apply Hno. vm_compute. discriminate.
Defined.

(** C9 as stated fails on the code: in the mode [test], which is not
    production, the body of the error response has no trace. *)
Lemma no_trace_in_test_mode : ¬ responderClaim testCtx (CastError "_id").
Proof.
  intros [_ H]. destruct H as (msg & t & H); [vm_compute; discriminate|].
  revert H. vm_compute. discriminate.
Qed.

(** ** Updates *)

Lemma retains_fields body p p' :
  _id p' = _id p → createdAt p' = createdAt p →
  (body !! "name" = None → name p' = name p) →
  (body !! "description" = None → description p' = description p) →
  (body !! "price" = None → price p' = price p) →
  (body !! "category" = None → category p' = category p) →
  (body !! "inStock" = None → inStock p' = inStock p) →
  retains body p p'.
Proof.
  intros ?? Hn Hd Hp Hc Hi. repeat split; [done..|].
  intros k Hk. unfold fieldOf.
  repeat case_decide; subst; rewrite ?Hn, ?Hd, ?Hp, ?Hc, ?Hi; done.
Qed.

Lemma retains_empty p p' : retains ∅ p p' → sameData p p'.
Proof.
  intros (? & ? & H). unfold sameData.
  pose proof (H "name" (lookup_empty _)) as Hn.
  pose proof (H "description" (lookup_empty _)) as Hd.
  pose proof (H "price" (lookup_empty _)) as Hp.
  pose proof (H "category" (lookup_empty _)) as Hc.
  pose proof (H "inStock" (lookup_empty _)) as Hi.
  unfold fieldOf in *. simpl in *.
  injection Hn as ->. injection Hd as ->. injection Hp as ->.
  injection Hc as ->. injection Hi as Hi. repeat split; try done.
  by destruct (inStock p), (inStock p'); simplify_eq.
Qed.

Section Update.
Context `{R : Runtime}.

(** The controller's update, when the product exists: it fails and
    leaves the store as it was, or it succeeds and writes back a
    document described by [controllerUpdated]. *)
Lemma controller_update_cases ctx req st p :
  lookupDoc (paramId req) st = Some p →
  ((Controller.updateProduct ctx req st).2 = st
   ∧ ∀ q, (Controller.updateProduct ctx req st).1
          ≠ json StatusCodes.OK (ProductJson q))
  ∨ ∃ p', Controller.updateProduct ctx req st
          = (json StatusCodes.OK (ProductJson p'), replaceDoc p' st)
          ∧ controllerUpdated (reqBody req) p p'.
Proof.
  intros Hp. unfold Controller.updateProduct, findById.
  destruct (isObjectId (paramId req)); [|by left].
  rewrite Hp.
  match goal with |- context [save _ _ ?d _] => set (doc := d) end.
  assert (d_orig doc = Some p) as Ho.
  { subst doc. repeat case_match; by autorewrite with doc. }
  destruct (save productSchema ctx doc st) as [[p' st']|e] eqn:Hs;
    [|by left].
  apply (save_loaded _ _ _ _ _ _ _ Ho) in Hs
    as (-> & Hid & Hc & Hn & Hd & Hpr & Hcat & Hin & Hv).
  apply validate_nil in Hv as (Hce & _).
  right. exists p'. split; [done|]. unfold controllerUpdated.
  split; [done|]. split; [done|]. subst doc.
  destruct (defined (reqBody req !! "inStock"));
    [apply assignInStock_ok in Hce as (b5 & Hb5 & Hd5 & Hce)|];
  (destruct (truthy (reqBody req !! "category"));
    [apply assignCategory_ok in Hce as (b4 & Hb4 & Hd4 & Hce)|]);
  (destruct (truthy (reqBody req !! "price"));
    [apply assignPrice_ok in Hce as (b3 & Hb3 & Hd3 & Hce)|]);
  (destruct (truthy (reqBody req !! "description"));
    [apply assignDescription_ok in Hce as (b2 & Hb2 & Hd2 & Hce)|]);
  (destruct (truthy (reqBody req !! "name"));
    [apply assignName_ok in Hce as (b1 & Hb1 & Hd1 & Hce)|]);
  autorewrite with doc in Hn, Hd, Hpr, Hcat, Hin;
  rewrite ?Hd1 in Hn; rewrite ?Hd2 in Hd; rewrite ?Hd3 in Hpr;
  rewrite ?Hd4 in Hcat; rewrite ?Hd5 in Hin;
  clear Ho Hce; try clear Hd1; try clear Hd2; try clear Hd3;
  try clear Hd4; try clear Hd5;
  unfold setString in *; simpl in Hn, Hd, Hpr, Hcat, Hin;
  repeat match goal with
         | H : _ <$> ?b = Some _ |- _ => destruct b; simplify_eq/=
         end;
  simplify_eq; repeat (split; [by eauto|]); by eauto.
Qed.

(** The document found under the id after the controller's update. *)
Lemma controller_update_after ctx req st p :
  lookupDoc (paramId req) st = Some p →
  ∃ p', lookupDoc (paramId req) (Controller.updateProduct ctx req st).2
        = Some p'
        ∧ (p' = p ∨ controllerUpdated (reqBody req) p p')
        ∧ (∀ q, (Controller.updateProduct ctx req st).1
                = json StatusCodes.OK (ProductJson q) →
                q = p' ∧ controllerUpdated (reqBody req) p p')
        ∧ ∀ id, id ≠ paramId req →
            lookupDoc id (Controller.updateProduct ctx req st).2
            = lookupDoc id st.
Proof.
  intros Hp. pose proof (lookupDoc_id _ _ _ Hp) as Hpid.
  destruct (controller_update_cases ctx req st p Hp)
    as [[Hst Hno]|(p' & Hup & Hu)].
  - exists p. rewrite Hst. split; [done|]. split; [by left|].
    split; [|done]. intros q Hq. by destruct (Hno q).
  - exists p'. rewrite Hup. simpl. pose proof Hu as [Hid _].
    split; [|split; [by right|split]].
    + rewrite <- Hpid, <- Hid. apply (lookupDoc_replace _ _ p).
      by rewrite Hid, Hpid.
    + by intros q [= <-].
    + intros id Hne. apply lookupDoc_replace_ne. congruence.
Qed.

Lemma controllerUpdated_retains body p p' :
  controllerUpdated body p p' → retains body p p'.
Proof.
  intros (Hid & Hc & Hn & Hd & Hp & Hcat & Hi).
  apply retains_fields; try done; intros Hb; rewrite Hb in *; done.
Qed.

Lemma retains_refl body p : retains body p p.
Proof. by repeat split. Qed.

Lemma controller_update_frame ctx req st p :
  lookupDoc (paramId req) st = Some p →
  ∃ p', lookupDoc (paramId req) (Controller.updateProduct ctx req st).2
        = Some p'
        ∧ retains (reqBody req) p p'
        ∧ ∀ id, id ≠ paramId req →
            lookupDoc id (Controller.updateProduct ctx req st).2
            = lookupDoc id st.
Proof.
  intros Hp.
  destruct (controller_update_after ctx req st p Hp)
    as (p' & Hl & [Heq|Hu] & _ & Hf); exists p'.
  - subst p'. eauto using retains_refl.
  - eauto using controllerUpdated_retains.
Qed.

Lemma server_update_frame ctx req st p :
  lookupDoc (paramId req) st = Some p →
  ∃ p', lookupDoc (paramId req) (Server.updateProduct ctx req st).2 = Some p'
        ∧ retains (reqBody req) p p'
        ∧ ∀ id, id ≠ paramId req →
            lookupDoc id (Server.updateProduct ctx req st).2
            = lookupDoc id st.
Proof.
  intros Hp. unfold Server.updateProduct, Server.findByIdAndUpdate.
  destruct (isObjectId (paramId req)); simpl;
    [|exists p; by repeat split].
  destruct (d_castErrors _) as [|[??]?]; [|exists p; by repeat split].
  destruct (Server.validateUpdate _ _ _); [|exists p; by repeat split].
  rewrite Hp. simpl.
  pose proof (lookupDoc_id _ _ _ Hp) as Hpid.
  eexists. split; [|split].
  - rewrite <- Hpid at 1.
    apply (lookupDoc_replace {| _id := _id p |} _ p). simpl. by rewrite Hpid.
  - apply retains_fields; simpl; try done; intros Hb;
      unfold Server.castUpdate; rewrite Hb; simpl.
    + by repeat case_match; autorewrite with doc.
    + by repeat case_match; autorewrite with doc.
    + by repeat case_match; autorewrite with doc.
    + by repeat case_match; autorewrite with doc.
    + done.
  - intros id Hne. apply lookupDoc_replace_ne. simpl. congruence.
Qed.

(** The whole chain of the update route: gate, validation middleware,
    handler. *)
Lemma server_update_chain_frame ctx req st p :
  lookupDoc (paramId req) st = Some p →
  ∃ p', lookupDoc (paramId req) (serverUpdate ctx req st).2 = Some p'
        ∧ retains (reqBody req) p p'
        ∧ ∀ id, id ≠ paramId req →
            lookupDoc id (serverUpdate ctx req st).2 = lookupDoc id st.
Proof.
  intros Hp. unfold serverUpdate.
  destruct (inline_gate_outcome ctx req st) as [Ha|Ha].
  - rewrite (runChain_next _ _ _ _ _ _ Ha).
    destruct (validateProduct_outcome ctx req st) as [Hv|[errs Hv]].
    + rewrite (runChain_next _ _ _ _ _ _ Hv), runChain_last.
      by apply server_update_frame.
    + rewrite (runChain_send _ _ _ _ _ _ _ Hv). simpl.
      exists p. eauto using retains_refl.
  - rewrite (runChain_send _ _ _ _ _ _ _ Ha). simpl.
    exists p. eauto using retains_refl.
Qed.

End Update.

(** C4.  An update of an existing product, by the controller, by the
    update handler of the server script or through its whole update
    route, leaves the product under its id with the same id and creation
    time and with the prior value of every field the body omits, so that
    only supplied fields change; with an empty body every field except
    [updatedAt] is unchanged; and no other document of the store
    changes. *)
Theorem update_retains_omitted `{R : Runtime} (ctx : Ctx) (req : Request)
    (st : Store) (p : Product) :
  lookupDoc (paramId req) st = Some p →
  ∀ update,
    update = Controller.updateProduct ∨ update = Server.updateProduct
    ∨ update = serverUpdate →
    ∃ p', lookupDoc (paramId req) (update ctx req st).2 = Some p'
          ∧ retains (reqBody req) p p'
          ∧ (reqBody req = ∅ → sameData p p')
          ∧ ∀ id, id ≠ paramId req →
              lookupDoc id (update ctx req st).2 = lookupDoc id st.
Proof.
  intros Hp update Hu.
  assert (∃ p', lookupDoc (paramId req) (update ctx req st).2 = Some p'
                ∧ retains (reqBody req) p p'
                ∧ ∀ id, id ≠ paramId req →
                    lookupDoc id (update ctx req st).2 = lookupDoc id st)
    as (p' & Hl & Hr & Hf).
  { destruct Hu as [->|[->| ->]];
      eauto using controller_update_frame, server_update_frame,
        server_update_chain_frame. }
  exists p'. split; [done|]. split; [done|]. split; [|done].
  intros Hb. rewrite Hb in Hr. by apply retains_empty.
Qed.

Lemma update_retains_omitted_witness :
  let req := putReq "65f000000000000000000001"
               {[ "price" := VNum (ofZ 999) ]} in
  ∃ p', lookupDoc (paramId req) (Controller.updateProduct exCtx req exStore).2
        = Some p'
        ∧ retains (reqBody req) laptop p'
        ∧ (reqBody req = ∅ → sameData laptop p')
        ∧ ∀ id, id ≠ paramId req →
            lookupDoc id (Controller.updateProduct exCtx req exStore).2
            = lookupDoc id exStore.
Proof.
  intros req. apply (update_retains_omitted exCtx req exStore laptop).
  - reflexivity.
  - left. reflexivity.
Defined.

Lemma ofZ_1_0 : ofZ 1 ≠ ofZ 0.
Proof. intros H. by apply (f_equal num_truthy) in H. Qed.

(** C10, as amended.  In the controller's update a field supplied with
    a falsy value is ignored: a falsy name, description, price or
    category, such as a price of 0 or an empty string, leaves the field
    at its prior value, while a successful update does set [inStock] to
    [false].  The price can still become 0, and only in this way: through
    a non-empty string that the schema casts to zero, such as the string
    of the digit 0, which is truthy and is applied. *)
Theorem update_ignores_falsy `{R : Runtime} (ctx : Ctx) (req : Request)
    (st : Store) (p : Product) :
  lookupDoc (paramId req) st = Some p →
  ∃ p', lookupDoc (paramId req) (Controller.updateProduct ctx req st).2
        = Some p'
    ∧ (truthy (reqBody req !! "name") = false → name p' = name p)
    ∧ (truthy (reqBody req !! "description") = false →
       description p' = description p)
    ∧ (truthy (reqBody req !! "price") = false → price p' = price p)
    ∧ (truthy (reqBody req !! "category") = false →
       category p' = category p)
    ∧ (∀ q, (Controller.updateProduct ctx req st).1
            = json StatusCodes.OK (ProductJson q) →
            reqBody req !! "inStock" = Some (VBool false) →
            inStock p' = Some false)
    ∧ (price p' = ofZ 0 →
       price p = ofZ 0
       ∨ ∃ s, reqBody req !! "price" = Some (VStr s) ∧ s ≠ ""
              ∧ toNumber s = ofZ 0).
Proof.
  intros Hp.
  destruct (controller_update_after ctx req st p Hp)
    as (p' & Hl & Hcase & Hok & _).
  exists p'. split; [done|].
  assert (∀ q, (Controller.updateProduct ctx req st).1
               = json StatusCodes.OK (ProductJson q) →
               reqBody req !! "inStock" = Some (VBool false) →
               inStock p' = Some false) as Hstock.
  { intros q Hq Hb. destruct (Hok q Hq) as (_ & _ & _ & _ & _ & _ & _ & Hi).
    rewrite Hb in Hi. simpl in Hi. congruence. }
  destruct Hcase as [->|(_ & _ & Hn & Hd & Hpr & Hc & _)].
  { repeat (split; [done|]). by left. }
  split; [by intros Hf; rewrite Hf in Hn|].
  split; [by intros Hf; rewrite Hf in Hd|].
  split; [by intros Hf; rewrite Hf in Hpr|].
  split; [by intros Hf; rewrite Hf in Hc|].
  split; [done|]. intros Hz.
  destruct (truthy (reqBody req !! "price")) eqn:Ht; [|left; congruence].
  right. rewrite Hz in Hpr.
  destruct (reqBody req !! "price") as [[|b|n|s|]|] eqn:Hv; try done.
  - simpl in Hpr. destruct b; [|done].
    injection Hpr as Hpr. by destruct ofZ_1_0.
  - simpl in Hpr. simpl in Ht. destruct n; try done.
    injection Hpr as ->. done.
  - exists s. simpl in Ht, Hpr. unfold str_truthy in Ht.
    apply bool_decide_eq_true in Ht.
    rewrite decide_False in Hpr by done.
    split; [done|]. split; [done|].
    destruct (toNumber s); congruence.
Qed.

Lemma update_ignores_falsy_witness :
  let req := putReq "65f000000000000000000001"
               {[ "price" := VNum (ofZ 0); "name" := VStr "";
                  "inStock" := VBool false ]} in
  ∃ p', lookupDoc (paramId req) (Controller.updateProduct exCtx req exStore).2
        = Some p'
        ∧ name p' = name laptop ∧ price p' = price laptop
        ∧ inStock p' = Some false.
Proof.
  intros req.
  destruct (update_ignores_falsy exCtx req exStore laptop)
    as (p' & Hl & Hn & _ & Hp & _ & Hi & _); [reflexivity|].
  exists p'. split; [exact Hl|].
  split; [apply Hn; reflexivity|].
  split; [apply Hp; reflexivity|].
  apply (Hi {| _id := "65f000000000000000000001"; name := "Laptop";
               description := "Fast"; price := Fin (Q2Qc (129999 # 100));
               category := "electronics"; inStock := Some false;
               createdAt := 1000; updatedAt := 5000 |}); [|reflexivity].
  apply (bool_decide_unpack _). vm_compute. exact I.
Defined.

(** C10 as stated fails on the code: an update whose price is the
    string of the digit 0 sets the price of the laptop to zero. *)
Lemma string_zero_sets_price :
  ¬ neverZeroClaim exCtx
      (putReq "65f000000000000000000001" {[ "price" := VStr "0" ]}) exStore.
Proof.
  intros H.
  apply (H laptop
           {| _id := "65f000000000000000000001"; name := "Laptop";
              description := "Fast"; price := ofZ 0;
              category := "electronics"; inStock := Some true;
              createdAt := 1000; updatedAt := 5000 |}).
  - reflexivity.
  - run.
  - run.
  - reflexivity.
Qed.

(** ** Creation *)

Section Create.
Context `{R : Runtime}.

Lemma guarded_model : guarded productSchema.
Proof. repeat split; by eexists. Qed.

Lemma guarded_server : guarded Server.productSchema.
Proof. repeat split; by eexists. Qed.

(** A saved new document went through the casts and the validators. *)
Lemma insert_ok sch ctx v1 v2 v3 v4 v5 st p st' :
  guarded sch →
  save sch ctx
    (assignInStock v5
       (assignCategory sch v4
          (assignPrice v3
             (assignDescription sch v2 (assignName sch v1 newDoc))))) st
  = Ok (p, st') →
  st' = st ++ [p] ∧ validProduct p
  ∧ castNumber v3 = Some (Some (price p))
  ∧ ∃ c, castString v4 = Some (Some c) ∧ category p = toLowerCase c.
Proof.
  intros ((m1 & Hmin) & (m2 & Henum) & Htrim & Hlow) Hs.
  apply save_new in Hs as (-> & _ & _ & _ & Hpr & Hcat & _ & Hv);
    [|by autorewrite with doc].
  apply validate_nil in Hv as (Hce & _ & _ & Hvp & Hvc).
  rewrite Hpr in Hvp. rewrite Hcat in Hvc.
  apply assignInStock_ok in Hce as (_ & _ & _ & Hce).
  autorewrite with doc in Hpr, Hcat.
  apply assignCategory_ok in Hce as (c & Hc & Hdc & Hce).
  rewrite Hdc in Hcat.
  apply assignPrice_ok in Hce as (n & Hn & Hdn & _).
  autorewrite with doc in Hcat. rewrite Hdn in Hpr. subst n.
  destruct c as [c|]; [|done]. injection Hcat as Hcat.
  unfold setString in Hcat. rewrite Htrim, Hlow in Hcat.
  split; [done|]. split; [|eauto].
  split; eauto using validateNumber_min, validateString_enum.
Qed.

Lemma payloadOk_of_insert b p c :
  validProduct p →
  castNumber (b !! "price") = Some (Some (price p)) →
  castString (b !! "category") = Some (Some c) →
  category p = toLowerCase c →
  payloadOk b.
Proof.
  intros [Hp Hc] Hn Hs Hcat. exists (price p), c. by rewrite <- Hcat.
Qed.

Lemma controller_create ctx req st :
  (storeInv st → storeInv (Controller.createProduct ctx req st).2)
  ∧ (∀ p, (Controller.createProduct ctx req st).1
          = json StatusCodes.CREATED (ProductJson p) →
          validProduct p ∧ (Controller.createProduct ctx req st).2 = st ++ [p])
  ∧ (¬ payloadOk (reqBody req) →
     validationFailure (Controller.createProduct ctx req st).1
     ∧ (Controller.createProduct ctx req st).2 = st).
Proof.
  unfold Controller.createProduct.
  match goal with |- context [save _ _ ?d _] =>
    destruct (save productSchema ctx d st) as [[p st']|e] eqn:Hs end.
  - apply (insert_ok _ _ _ _ _ _ _ _ _ _ guarded_model) in Hs
      as (-> & Hv & Hn & c & Hc & Hcat).
    simpl. split; [|split].
    + intros Hst. apply Forall_app. split; [done|]. by constructor.
    + by intros q [= <-].
    + intros []. eauto using payloadOk_of_insert.
  - simpl. split; [done|]. split; [done|]. intros _. split; [|done].
    by apply save_error in Hs.
Qed.

(** The document that the create of the server script builds from a
    whole body: the paths [_id], [createdAt], [updatedAt] and [__v] add
    cast errors and leave the declared paths as they are. *)
Lemma assignMeta_fields b d :
  d_name (Server.assignMeta b d) = d_name d
  ∧ d_description (Server.assignMeta b d) = d_description d
  ∧ d_price (Server.assignMeta b d) = d_price d
  ∧ d_category (Server.assignMeta b d) = d_category d
  ∧ d_inStock (Server.assignMeta b d) = d_inStock d
  ∧ d_orig (Server.assignMeta b d) = d_orig d.
Proof. unfold Server.assignMeta, castFailed. by repeat case_match. Qed.

Lemma assignMeta_ok b d :
  d_castErrors (Server.assignMeta b d) = [] →
  d_castErrors d = []
  ∧ is_Some (Server.bodyId b)
  ∧ is_Some (Server.bodyDate "createdAt" b)
  ∧ is_Some (Server.bodyDate "updatedAt" b).
Proof.
  unfold Server.assignMeta.
  destruct (Server.bodyId b), (Server.bodyDate "createdAt" b),
    (Server.bodyDate "updatedAt" b), (castNumber (b !! "__v"));
    unfold castFailed; simpl; intros H;
    try (by apply app_eq_nil in H as [_ ?]);
    try (by apply app_eq_nil in H as [H _];
         apply app_eq_nil in H as [_ ?]).
  by repeat split; eauto.
Qed.

Lemma assignMeta_validate sch b d :
  validate sch (Server.assignMeta b d) = [] →
  validate sch d = []
  ∧ is_Some (Server.bodyId b)
  ∧ is_Some (Server.bodyDate "createdAt" b)
  ∧ is_Some (Server.bodyDate "updatedAt" b).
Proof.
  unfold validate.
  destruct (assignMeta_fields b d) as (-> & -> & -> & -> & _).
  intros H. apply app_eq_nil in H as [Hce ->].
  apply assignMeta_ok in Hce as (-> & ?). done.
Qed.

(** A save of a new document under a given id and creation time: the
    validation fails, or the document is written, or the store refuses
    it because the id is taken. *)
Lemma saveAs_result sch ctx id created d st :
  (∃ errs, saveAs sch ctx id created d st = Err (SchemaValidationError errs))
  ∨ ∃ p, validate sch d = []
         ∧ d_name d = Some (name p) ∧ d_description d = Some (description p)
         ∧ d_price d = Some (price p) ∧ d_category d = Some (category p)
         ∧ d_inStock d = inStock p
         ∧ _id p = default (freshId ctx) id
         ∧ createdAt p = default (now ctx) created
         ∧ updatedAt p = createdAt p
         ∧ (lookupDoc (_id p) st = None
            ∧ saveAs sch ctx id created d st = Ok (p, st ++ [p])
            ∨ is_Some (lookupDoc (_id p) st)
              ∧ saveAs sch ctx id created d st
                = Err (StoreError "E11000 duplicate key error")).
Proof.
  unfold saveAs.
  destruct (validate sch d) as [|err errs];
    [|left; by destruct (d_name d), (d_description d), (d_price d),
                (d_category d); eexists].
  destruct (d_name d) as [n|]; [|left; by eexists].
  destruct (d_description d) as [de|]; [|left; by eexists].
  destruct (d_price d) as [pr|]; [|left; by eexists].
  destruct (d_category d) as [c|]; [|left; by eexists].
  right. eexists {| _id := _; name := n |}. cbn [_id name description price
    category inStock createdAt updatedAt].
  do 9 (split; [done|]).
  destruct (lookupDoc _ st) eqn:Hl; [right|left]; by eauto.
Qed.

Lemma save_valid_new sch ctx d st n de pr c :
  validate sch d = [] → d_orig d = None →
  d_name d = Some n → d_description d = Some de →
  d_price d = Some pr → d_category d = Some c →
  ∃ q, save sch ctx d st = Ok (q, st ++ [q])
       ∧ name q = n ∧ description q = de ∧ price q = pr ∧ category q = c
       ∧ inStock q = d_inStock d.
Proof.
  intros Hv Ho Hn Hd Hp Hc. unfold save. rewrite Hv, Hn, Hd, Hp, Hc, Ho.
  by eexists.
Qed.

(** What the create of the server script does, case by case. *)
Lemma server_create_cases ctx req st :
  let b := reqBody req in
  (∃ errs, Server.createProduct ctx req st
           = (NextErr (SchemaValidationError errs), st))
  ∨ ∃ p, validProduct p ∧ payloadOk b
         ∧ _id p = default (freshId ctx) (default None (Server.bodyId b))
         ∧ (lookupDoc (_id p) st = None
            ∧ Server.createProduct ctx req st
              = (json StatusCodes.CREATED (ProductJson p), st ++ [p])
            ∨ is_Some (lookupDoc (_id p) st)
              ∧ Server.createProduct ctx req st
                = (NextErr (StoreError "E11000 duplicate key error"), st)).
Proof.
  intros b. unfold Server.createProduct. fold b.
  match goal with |- context [saveAs _ _ ?i ?t (Server.assignMeta _ ?d) _] =>
    set (doc := d);
    destruct (saveAs_result Server.productSchema ctx i t
                (Server.assignMeta b doc) st)
      as [[errs ->]|(p & Hv & Hn & Hd & Hpr & Hc & _ & Hid & _ & _ & Hr)]
  end; [left; by eexists|].
  right. exists p.
  apply assignMeta_validate in Hv as [Hv _].
  destruct (assignMeta_fields b doc) as (Hfn & Hfd & Hfp & Hfc & _ & _).
  rewrite Hfn in Hn. rewrite Hfd in Hd. rewrite Hfp in Hpr.
  rewrite Hfc in Hc.
  destruct (save_valid_new Server.productSchema ctx doc st _ _ _ _ Hv
              ltac:(subst doc; by autorewrite with doc) Hn Hd Hpr Hc)
    as (q & Hq & _ & _ & Hqp & Hqc & _).
  apply (insert_ok _ _ _ _ _ _ _ _ _ _ guarded_server) in Hq
    as (_ & [Hvp Hvc] & Hcn & c & Hcs & Hcat).
  rewrite Hqp in Hvp, Hcn. rewrite Hqc in Hvc, Hcat.
  split; [by split|]. split; [by exists (price p), c; rewrite <- Hcat|].
  split; [done|].
  destruct Hr as [[Hl ->]|[Hl ->]]; [left|right]; done.
Qed.

Lemma server_create ctx req st :
  (storeInv st → storeInv (Server.createProduct ctx req st).2)
  ∧ (∀ p, (Server.createProduct ctx req st).1
          = json StatusCodes.CREATED (ProductJson p) →
          validProduct p ∧ (Server.createProduct ctx req st).2 = st ++ [p])
  ∧ (¬ payloadOk (reqBody req) →
     validationFailure (Server.createProduct ctx req st).1
     ∧ (Server.createProduct ctx req st).2 = st).
Proof.
  destruct (server_create_cases ctx req st)
    as [[errs ->]|(p & Hv & Hok & _ & [[_ ->]|[_ ->]])]; simpl.
  - split; [done|]. split; [done|]. done.
  - split; [|split].
    + intros Hst. apply Forall_app. split; [done|]. by constructor.
    + by intros q [= <-].
    + by intros [].
  - split; [done|]. split; [done|]. by intros [].
Qed.

(** The whole chain of the create route: gate, validation middleware,
    handler. *)
Lemma server_create_chain ctx req st :
  (storeInv st → storeInv (serverCreate ctx req st).2)
  ∧ (∀ p, (serverCreate ctx req st).1
          = json StatusCodes.CREATED (ProductJson p) →
          validProduct p ∧ (serverCreate ctx req st).2 = st ++ [p])
  ∧ (¬ payloadOk (reqBody req) →
     (serverCreate ctx req st).2 = st
     ∧ ((Server.authenticate ctx req st).1 = Next →
        validationFailure (serverCreate ctx req st).1)).
Proof.
  unfold serverCreate.
  destruct (inline_gate_outcome ctx req st) as [Ha|Ha].
  - rewrite (runChain_next _ _ _ _ _ _ Ha).
    destruct (validateProduct_outcome ctx req st) as [Hv|[errs Hv]].
    + rewrite (runChain_next _ _ _ _ _ _ Hv), runChain_last.
      destruct (server_create ctx req st) as (H1 & H2 & H3).
      split; [done|]. split; [done|]. intros Hno.
      destruct (H3 Hno). done.
    + rewrite (runChain_send _ _ _ _ _ _ _ Hv). simpl.
      split; [done|]. split; [done|]. intros _. split; [done|].
      intros _. split; [done|]. by eexists.
  - rewrite (runChain_send _ _ _ _ _ _ _ Ha). rewrite Ha. simpl.
    split; [done|]. split; [done|]. done.
Qed.

End Create.

(** C5.  A create, by the controller or through the create route of the
    server script, keeps the invariants of the store: the product it
    inserts has a non-negative price and a category of the enumeration,
    so every record of the store has them afterwards when every record
    had them before.  A create whose payload violates them inserts
    nothing and fails with a validation error: the schema's
    [ValidationError], or the 400 response of the validation middleware
    that the server script runs once the request is authenticated. *)
Theorem create_keeps_invariants `{R : Runtime} (ctx : Ctx) (req : Request)
    (st : Store) :
  ((storeInv st → storeInv (Controller.createProduct ctx req st).2)
   ∧ (∀ p, (Controller.createProduct ctx req st).1
           = json StatusCodes.CREATED (ProductJson p) →
           validProduct p
           ∧ (Controller.createProduct ctx req st).2 = st ++ [p])
   ∧ (¬ payloadOk (reqBody req) →
      validationFailure (Controller.createProduct ctx req st).1
      ∧ (Controller.createProduct ctx req st).2 = st))
  ∧ ((storeInv st → storeInv (serverCreate ctx req st).2)
     ∧ (∀ p, (serverCreate ctx req st).1
             = json StatusCodes.CREATED (ProductJson p) →
             validProduct p ∧ (serverCreate ctx req st).2 = st ++ [p])
     ∧ (¬ payloadOk (reqBody req) →
        (serverCreate ctx req st).2 = st
        ∧ ((Server.authenticate ctx req st).1 = Next →
           validationFailure (serverCreate ctx req st).1))).
Proof.
  split; [apply controller_create|apply server_create_chain].
Qed.

Lemma exStore_valid : storeInv exStore.
Proof.
  unfold storeInv, exStore.
  repeat (apply Forall_cons_2; [split; [reflexivity|run]|]).
  apply Forall_nil_2.
Qed.

Lemma negative_price_not_ok :
  ¬ payloadOk (<[ "price" := VNum (ofZ (-5)) ]> laptopBody).
Proof.
  intros (n & c & Hn & Hle & _). vm_compute in Hn. injection Hn as <-.
  vm_compute in Hle. discriminate.
Qed.

Lemma create_keeps_invariants_witness :
  let good := postReq {[ "x-api-key" := "s3cret" ]} laptopBody in
  let bad := postReq {[ "x-api-key" := "s3cret" ]}
               (<[ "price" := VNum (ofZ (-5)) ]> laptopBody) in
  storeInv (Controller.createProduct exCtx good exStore).2
  ∧ storeInv (serverCreate exCtx good exStore).2
  ∧ validationFailure (Controller.createProduct exCtx bad exStore).1
  ∧ (Controller.createProduct exCtx bad exStore).2 = exStore
  ∧ (serverCreate exCtx bad exStore).2 = exStore
  ∧ validationFailure (serverCreate exCtx bad exStore).1.
Proof.
  intros good bad.
  destruct (create_keeps_invariants exCtx good exStore)
    as [(Hc & _ & _) (Hs & _ & _)].
  destruct (create_keeps_invariants exCtx bad exStore)
    as [(_ & _ & Hcb) (_ & _ & Hsb)].
  split; [apply Hc, exStore_valid|].
  split; [apply Hs, exStore_valid|].
  destruct (Hcb negative_price_not_ok) as [Hf Hst].
  destruct (Hsb negative_price_not_ok) as [Hst' Hf'].
  split; [exact Hf|]. split; [exact Hst|]. split; [exact Hst'|].
  apply Hf'. reflexivity.
Defined.

(** ** Pagination *)

Lemma Qc_le_ceiling (x : Qc) : (x ≤ qz (Qceiling x))%Qc.
Proof.
  unfold Qcle, qz. simpl. rewrite Qred_correct. apply Qle_ceiling.
Qed.

Lemma Qc_ceiling_lt (x : Qc) : (qz (Qceiling x - 1) < x)%Qc.
Proof.
  unfold Qclt, qz. simpl. rewrite Qred_correct. apply Qceiling_lt.
Qed.

Lemma ceil_div (t : Z) (l : Qc) :
  (0 < l)%Qc → isCeil (Qceiling (qz t / l)%Qc) t l.
Proof.
  intros Hl. assert (l ≠ 0%Qc) as Hne.
  { intros ->. by apply Qclt_not_eq in Hl. }
  unfold isCeil. set (x := (qz t / l)%Qc).
  assert (qz t = (x * l)%Qc) as ->.
  { subst x. rewrite Qcmult_comm. by rewrite Qcmult_div_r. }
  split.
  - apply Qcmult_le_compat_r; [apply Qc_le_ceiling|by apply Qclt_le_weak].
  - apply Qcmult_lt_compat_r; [done|apply Qc_ceiling_lt].
Qed.

(** The ceiling is determined by the two inequalities. *)
Lemma isCeil_unique n m t l :
  (0 < l)%Qc → isCeil n t l → isCeil m t l → n = m.
Proof.
  intros Hl [Hn1 Hn2] [Hm1 Hm2].
  assert (∀ a b, (qz (a - 1) * l < qz b * l)%Qc → a - 1 < b) as Hlt.
  { intros a b H. apply Qcmult_lt_mono_pos_r in H; [|done].
    unfold Qclt, qz in H. simpl in H. rewrite !Qred_correct in H.
    by rewrite <- Zlt_Qlt in H. }
  assert (n - 1 < m) by (apply Hlt; eapply Qclt_le_trans; eauto).
  assert (m - 1 < n) by (apply Hlt; eapply Qclt_le_trans; eauto).
  lia.
Qed.

Lemma totalPages_ceil (total : Z) (l : Qc) :
  (0 < l)%Qc →
  num_ceil (num_div (ofZ total) (Fin l)) = ofZ (Qceiling (qz total / l)%Qc).
Proof.
  intros Hl. unfold num_div, ofZ. rewrite decide_False; [done|].
  intros ->. by apply Qclt_not_eq in Hl.
Qed.

Section Pagination.
Context `{R : Runtime}.





End Pagination.



(** ** Statistics *)

Lemma foldl_counts rows a :
  foldl (λ acc curr, acc + count curr) a rows = a + sumCounts rows.
Proof.
  revert a. induction rows as [|r rows IH]; intros a; simpl; [lia|].
  rewrite IH. lia.
Qed.

Lemma sumCounts_perm rows rows' :
  rows ≡ₚ rows' → sumCounts rows = sumCounts rows'.
Proof. induction 1; simpl; lia. Qed.

Lemma sumCounts_cons row rows :
  sumCounts (row :: rows) = count row + sumCounts rows.
Proof. done. Qed.

Lemma filter_all {A} (P : A → Prop) `{∀ x, Decision (P x)} (l : list A) :
  Forall P l → filter P l = l.
Proof.
  induction 1 as [|x l Hx _ IH]; [done|].
  by rewrite filter_cons_True, IH.
Qed.

(** Each document falls in exactly one group when the keys are
    distinct. *)
Lemma groups_partition docs keys :
  NoDup keys →
  sumCounts (groupOf docs <$> keys)
  = Z.of_nat (length (filter (λ p, category p ∈ keys) docs)).
Proof.
  intros Hnd. induction Hnd as [|k keys Hk Hnd IH].
  - simpl. induction docs as [|p docs IHd]; [done|].
    rewrite filter_cons_False; [done|]. by intros ?%elem_of_nil.
  - rewrite fmap_cons, sumCounts_cons, IH. clear IH.
    unfold groupOf at 1. cbn [count].
    induction docs as [|p docs IHd]; [done|].
    rewrite !filter_cons.
    destruct (decide (category p = k)) as [Hpk|Hpk],
      (decide (category p ∈ keys)) as [Hin|Hin],
      (decide (category p ∈ k :: keys)) as [Hin'|Hin'];
      simpl length; try lia; exfalso.
    + subst k. done.
    + subst k. done.
    + apply Hin'. apply elem_of_cons. by left.
    + apply Hin'. apply elem_of_cons. by right.
    + apply elem_of_cons in Hin' as [?|?]; done.
Qed.

Lemma aggregate_counts st : sumCounts (aggregate st) = Z.of_nat (length st).
Proof.
  unfold aggregate. rewrite (sumCounts_perm _ _ (merge_sort_Permutation _ _)).
  rewrite groups_partition by apply NoDup_remove_dups.
  rewrite filter_all; [done|].
  apply Forall_forall. intros p Hp.
  by apply elem_of_remove_dups, list_elem_of_fmap_2.
Qed.

Section Stats.
Context `{R : Runtime}.

Lemma count_all sch st :
  countDocuments sch emptyQuery st = Ok (Z.of_nat (length st)).
Proof.
  unfold countDocuments, selectDocs, queryError. simpl.
  replace (List.filter (matches sch emptyQuery) st) with st; [done|].
  induction st as [|p st IH]; [done|]. simpl. by rewrite <- IH.
Qed.

Lemma count_inStock sch st :
  ∃ n, countDocuments sch Controller.inStockQuery st = Ok n.
Proof. unfold countDocuments, selectDocs, queryError. simpl. by eexists. Qed.

End Stats.

(** C7.  The statistics of the controller and of the server script are
    always produced, and in both the counts of the [byCategory] rows sum
    to [totalProducts] and [inStock + outOfStock] equals [totalProducts];
    [totalProducts] is the number of documents of the store.  In the
    controller the two equations hold by construction, whatever rows and
    whatever count of documents in stock the store returned. *)
Theorem stats_totals `{R : Runtime} (ctx : Ctx) (req : Request) (st : Store) :
  (∃ totalProducts inStockCount outOfStock byCategory,
     Controller.getProductStats ctx req st
     = (json 200 (StatsJson totalProducts inStockCount outOfStock byCategory),
        st)
     ∧ sumCounts byCategory = totalProducts
     ∧ inStockCount + outOfStock = totalProducts
     ∧ totalProducts = Z.of_nat (length st))
  ∧ (∃ totalProducts inStockCount outOfStock byCategory,
       Server.statistics ctx req st
       = (json 200
            (StatsJson totalProducts inStockCount outOfStock byCategory), st)
       ∧ sumCounts byCategory = totalProducts
       ∧ inStockCount + outOfStock = totalProducts
       ∧ totalProducts = Z.of_nat (length st))
  ∧ (∀ rows inStockCount,
       ∃ totalProducts outOfStock,
         Controller.statsData rows inStockCount
         = StatsJson totalProducts inStockCount outOfStock rows
         ∧ sumCounts rows = totalProducts
         ∧ inStockCount + outOfStock = totalProducts).
Proof.
  split; [|split].
  - unfold Controller.getProductStats, Controller.statsData.
    destruct (count_inStock productSchema st) as [n ->].
    eexists _, _, _, _. split; [done|].
    rewrite foldl_counts, aggregate_counts. repeat split; lia.
  - unfold Server.statistics. rewrite count_all.
    destruct (count_inStock Server.productSchema st) as [n ->].
    eexists _, _, _, _. split; [done|].
    rewrite aggregate_counts. repeat split; lia.
  - intros rows n. unfold Controller.statsData.
    eexists _, _. split; [done|]. rewrite foldl_counts. split; lia.
Qed.

(** ** The category filter *)

Section Category.
Context `{R : Runtime}.

Lemma matches_category sch q c p :
  qCategory q = Some c →
  matches sch q p = matchesCategory sch c p && matches sch (otherConds q) p.
Proof.
  unfold matches. intros ->. simpl.
  repeat (destruct (from_option _ true _)); simpl; try done;
    by rewrite ?andb_true_r, ?andb_false_r.
Qed.

Lemma selectDocs_category sch q c st ds :
  qCategory q = Some c →
  selectDocs sch q st = Ok ds →
  ds = List.filter
         (λ p, matchesCategory sch c p && matches sch (otherConds q) p) st.
Proof.
  unfold selectDocs. intros Hc. destruct (queryError q); [done|].
  intros [= <-]. induction st as [|p st IH]; [done|]. simpl.
  rewrite (matches_category _ _ _ _ Hc). by rewrite IH.
Qed.

Lemma controller_category req c :
  query req !! "category" = Some c → c ≠ "" →
  qCategory (Controller.buildQuery req) = Some (CatIn (split "," c)).
Proof.
  intros Hc Hne. unfold Controller.buildQuery, whenPresent. simpl.
  rewrite Hc. simpl. unfold str_truthy. by rewrite bool_decide_eq_true_2.
Qed.

Lemma server_category req c :
  query req !! "category" = Some c → c ≠ "" →
  qCategory (Server.buildQuery req) = Some (CatIs c).
Proof.
  intros Hc Hne. unfold Server.buildQuery, whenPresent. simpl.
  rewrite Hc. simpl. unfold str_truthy. by rewrite bool_decide_eq_true_2.
Qed.

Lemma sortDocs_perm rank sort docs : sortDocs rank sort docs ≡ₚ docs.
Proof. unfold sortDocs. by rewrite !merge_sort_Permutation. Qed.

Lemma selected_items (f : Product → bool) rank sort skip limit st data p :
  window skip limit (sortDocs rank sort (List.filter f st)) = Ok data →
  p ∈ data → p ∈ st ∧ f p = true.
Proof.
  intros Hw Hp. apply (window_sub _ _ _ _ _ Hw) in Hp.
  rewrite sortDocs_perm in Hp.
  apply list_elem_of_In, filter_In in Hp as [Hp Hf].
  by apply list_elem_of_In in Hp.
Qed.

Lemma controller_list_category ctx req st c cnt total pg tp hn hp data :
  query req !! "category" = Some c → c ≠ "" →
  (Controller.getProducts ctx req st).1
  = json 200 (ListJson cnt total pg tp hn hp data) →
  let listed := toLowerCase <$> split "," c in
  let selected :=
    List.filter (λ p, bool_decide (category p ∈ listed)
                      && matches productSchema
                           (otherConds (Controller.buildQuery req)) p) st in
  let page := numParam 1 (query req !! "page") in
  let limit := numParam 10 (query req !! "limit") in
  total = Z.of_nat (length selected)
  ∧ window (num_mul (num_sub page (ofZ 1)) limit) limit
      (sortDocs (tieRank ctx) (default "-createdAt" (query req !! "sort"))
         selected)
    = Ok data
  ∧ cnt = length data
  ∧ ∀ p, p ∈ data → p ∈ st ∧ category p ∈ listed.
Proof.
  intros Hc Hne. unfold Controller.getProducts, countDocuments, findPage.
  destruct (selectDocs _ _ _) as [ds|] eqn:Hs; [|done].
  apply (selectDocs_category _ _ _ _ _ (controller_category _ _ Hc Hne)) in Hs.
  destruct (window _ _ _) as [w|] eqn:Hw; [|done].
  simpl. intros [= <- <- <- <- <- <- <-]. subst ds.
  split; [done|]. split; [done|]. split; [done|].
  intros p Hp. apply (selected_items _ _ _ _ _ _ _ _ Hw) in Hp as [Hp Hf].
  split; [done|]. apply andb_true_iff in Hf as [Hf _].
  by apply bool_decide_eq_true in Hf.
Qed.

Lemma server_list_category ctx req st c total tp cur data :
  query req !! "category" = Some c → c ≠ "" →
  (Server.listProducts ctx req st).1 = json 200 (PageJson total tp cur data) →
  let selected :=
    List.filter (λ p, bool_decide (category p = toLowerCase c)
                      && matches Server.productSchema
                           (otherConds (Server.buildQuery req)) p) st in
  total = Z.of_nat (length selected)
  ∧ ∀ p, p ∈ data → p ∈ st ∧ category p = toLowerCase c.
Proof.
  intros Hc Hne. unfold Server.listProducts, countDocuments, findPage.
  destruct (selectDocs _ _ _) as [ds|] eqn:Hs; [|done].
  apply (selectDocs_category _ _ _ _ _ (server_category _ _ Hc Hne)) in Hs.
  destruct (window _ _ _) as [w|] eqn:Hw; [|done].
  simpl. intros [= <- <- <- <-]. subst ds.
  split; [done|].
  intros p Hp. apply (selected_items _ _ _ _ _ _ _ _ Hw) in Hp as [Hp Hf].
  split; [done|]. apply andb_true_iff in Hf as [Hf _].
  by apply bool_decide_eq_true in Hf.
Qed.

End Category.

(** C8, as amended.  In the list operation of the controller a non-empty
    [category] parameter is read as a comma-separated list: the selected
    records are exactly the records of the store that match the other
    conditions and whose category is one of the listed values, compared
    after the lower-casing of the schema; [total] counts them and the
    returned items are the requested window of them in sort order.  The
    list operation of the server script compares the category with the
    whole parameter as one value. *)
Theorem category_filter `{R : Runtime} (ctx : Ctx) (req : Request)
    (st : Store) (c : string) :
  query req !! "category" = Some c → c ≠ "" →
  let page := numParam 1 (query req !! "page") in
  let limit := numParam 10 (query req !! "limit") in
  let sort := default "-createdAt" (query req !! "sort") in
  (∀ cnt total pg tp hn hp data,
     (Controller.getProducts ctx req st).1
     = json 200 (ListJson cnt total pg tp hn hp data) →
     let listed := toLowerCase <$> split "," c in
     let selected :=
       List.filter (λ p, bool_decide (category p ∈ listed)
                         && matches productSchema
                              (otherConds (Controller.buildQuery req)) p) st in
     total = Z.of_nat (length selected)
     ∧ window (num_mul (num_sub page (ofZ 1)) limit) limit
         (sortDocs (tieRank ctx) sort selected) = Ok data
     ∧ cnt = length data
     ∧ ∀ p, p ∈ data → p ∈ st ∧ category p ∈ listed)
  ∧ (∀ total tp cur data,
       (Server.listProducts ctx req st).1
       = json 200 (PageJson total tp cur data) →
       let selected :=
         List.filter (λ p, bool_decide (category p = toLowerCase c)
                           && matches Server.productSchema
                                (otherConds (Server.buildQuery req)) p) st in
       total = Z.of_nat (length selected)
       ∧ ∀ p, p ∈ data → p ∈ st ∧ category p = toLowerCase c).
Proof.
  intros Hc Hne page limit sort. split.
  - intros. by eapply controller_list_category.
  - intros. by eapply server_list_category.
Qed.

Lemma category_filter_witness :
  let req := getReq ["api"; "products"]
               {[ "category" := "electronics,clothing"; "sort" := "price" ]} in
  (Controller.getProducts exCtx req exStore).1
  = json 200 (ListJson 2 2 (ofZ 1) (ofZ 1) false false [shirt; laptop])
  ∧ (shirt ∈ exStore
     ∧ category shirt ∈ toLowerCase <$> split "," "electronics,clothing")
  ∧ (laptop ∈ exStore
     ∧ category laptop ∈ toLowerCase <$> split "," "electronics,clothing").
Proof.
  intros req.
  assert ((Controller.getProducts exCtx req exStore).1
          = json 200 (ListJson 2 2 (ofZ 1) (ofZ 1) false false
                        [shirt; laptop])) as Hrun.
  { apply (bool_decide_unpack _). vm_compute. exact I. }
  split; [exact Hrun|].
  destruct (category_filter exCtx req exStore "electronics,clothing")
    as [Hc _]; [reflexivity|discriminate|].
  destruct (Hc 2%nat 2 (ofZ 1) (ofZ 1) false false [shirt; laptop] Hrun)
    as (_ & _ & _ & Hin).
  split; apply Hin.
  - apply elem_of_cons. left. reflexivity.
  - apply elem_of_cons. right. apply elem_of_cons. left. reflexivity.
Defined.

(** C8 as stated fails on the server script: with the parameter
    [electronics,clothing] its list returns no item, although the store
    holds a product of each of the two categories. *)
Lemma server_category_not_split :
  ¬ categoryClaim Server.listProducts exCtx "electronics,clothing" exStore.
Proof.
  intros H.
  assert (laptop ∈ ([] : list Product)) as Hin; [|by apply elem_of_nil in Hin].
  apply (H ltac:(simpl; lia) []); [run|].
  split; run.
Qed.

(** ** The scenarios of the specification on the reference runtime *)

(** Scenario A: a create with a valid credential answers 201 and stores
    the category in lower case. *)
Example scenario_create :
  Server.app exCtx (postReq {[ "x-api-key" := "s3cret" ]} laptopBody) []
  = ({| status := 201;
        body := ProductJson
          {| _id := "65f000000000000000000004"; name := "Laptop";
             description := "Fast"; price := Fin (Q2Qc (129999 # 100));
             category := "electronics"; inStock := Some true;
             createdAt := 5000; updatedAt := 5000 |} |},
     [ {| _id := "65f000000000000000000004"; name := "Laptop";
          description := "Fast"; price := Fin (Q2Qc (129999 # 100));
          category := "electronics"; inStock := Some true;
          createdAt := 5000; updatedAt := 5000 |} ]).
Proof. run. Qed.

(** Scenario B: the controller's list with two categories, the stock
    flag and a window of five from the sixth match on. *)
Example scenario_list :
  Controller.getProducts exCtx
    (getReq []
       {[ "category" := "electronics,clothing"; "inStock" := "true";
          "page" := "2"; "limit" := "5" ]}) exStore
  = (json 200 (ListJson 0 1 (ofZ 2) (ofZ 1) false true []), exStore).
Proof. run. Qed.

(** Scenario C: a delete of an unknown id with a valid credential
    answers 404. *)
Example scenario_delete :
  Server.app exCtx
    {| method := DELETE;
       path := ["api"; "products"; "65f0000000000000000000ff"];
       headers := {[ "x-api-key" := "s3cret" ]}; query := ∅; params := ∅;
       reqBody := ∅ |} exStore
  = ({| status := 404;
        body := MessageJson "Product not found"
                  (Some "NotFoundError: Product not found") |}, exStore).
Proof. run. Qed.

(** A create that passes the validation middleware and fails the schema
    reaches the Error Responder without a status code. *)
Example negative_price_answer :
  status (Server.app exCtx
            (postReq {[ "x-api-key" := "s3cret" ]}
               (<[ "price" := VNum (ofZ (-5)) ]> laptopBody)) exStore).1
  = 500.
Proof. run. Qed.

(** * Further properties of the handlers *)

(** ** Dispatch *)

Section DispatchLaws.
Context `{R : Runtime}.

(** Handlers that only read. *)
Lemma welcome_reads ctx req st : (Server.welcome ctx req st).2 = st.
Proof. done. Qed.

Lemma listProducts_reads ctx req st : (Server.listProducts ctx req st).2 = st.
Proof. unfold Server.listProducts. by repeat case_match. Qed.

Lemma getProduct_reads ctx req st : (Server.getProduct ctx req st).2 = st.
Proof. unfold Server.getProduct. by repeat case_match. Qed.

Lemma statistics_reads ctx req st : (Server.statistics ctx req st).2 = st.
Proof. unfold Server.statistics. by repeat case_match. Qed.

Lemma search_reads ctx req st : (Server.search ctx req st).2 = st.
Proof. unfold Server.search. by repeat case_match. Qed.

Lemma authenticate_reads ctx req st : (Server.authenticate ctx req st).2 = st.
Proof. unfold Server.authenticate. by case_match. Qed.

Lemma validateProduct_reads ctx req st :
  (Server.validateProduct ctx req st).2 = st.
Proof. unfold Server.validateProduct. by case_match. Qed.

Lemma getProducts_reads ctx req st : (Controller.getProducts ctx req st).2 = st.
Proof. unfold Controller.getProducts. by repeat case_match. Qed.

Lemma getProductById_reads ctx req st :
  (Controller.getProductById ctx req st).2 = st.
Proof. unfold Controller.getProductById. by repeat case_match. Qed.

Lemma getProductStats_reads ctx req st :
  (Controller.getProductStats ctx req st).2 = st.
Proof. unfold Controller.getProductStats. by repeat case_match. Qed.

(** The result of a dispatch: when the chain of every matching route
    either leaves the store as it was or ends the dispatch with a result
    in [Good], so does the dispatch. *)
Lemma dispatch_result (Good : Outcome * Store → Prop) routes ctx req st :
  (∀ r ps, r ∈ routes → r_method r = method req →
     matchPath (r_path r) (path req) ∅ = Some ps →
     (runChain (r_chain r) ctx (withParams req ps) st).2 = st
     ∨ ((runChain (r_chain r) ctx (withParams req ps) st).1 ≠ Next
        ∧ Good (runChain (r_chain r) ctx (withParams req ps) st))) →
  (dispatch routes ctx req st).2 = st ∨ Good (dispatch routes ctx req st).
Proof.
  induction routes as [|r routes IH]; intros H; [by left|].
  cbn [dispatch].
  destruct (decide (r_method r = method req)) as [Hm|Hm].
  - destruct (matchPath (r_path r) (path req) ∅) as [ps|] eqn:Hp.
    + destruct (H r ps) as [Hs|[Hn Hg]]; [by left|done|done| |].
      * destruct (runChain (r_chain r) ctx (withParams req ps) st)
          as [o st'] eqn:Hr.
        simpl in Hs. subst st'.
        destruct o; try by left.
        apply IH. intros r' ps' Hin. apply H. by right.
      * destruct (runChain (r_chain r) ctx (withParams req ps) st)
          as [o st'] eqn:Hr.
        simpl in *. destruct o; try done; by right.
    + apply IH. intros r' ps' Hin. apply H. by right.
  - apply IH. intros r' ps' Hin. apply H. by right.
Qed.

(** A chain whose handlers before the last one only read. *)
Lemma chain_result (Good : Outcome * Store → Prop) (hs : list Handler)
    (h : Handler) ctx req st :
  Forall (λ g : Handler, ∀ ctx req st, (g ctx req st).2 = st) hs →
  ((h ctx req st).2 = st
   ∨ ((h ctx req st).1 ≠ Next ∧ Good (h ctx req st))) →
  (runChain (hs ++ [h]) ctx req st).2 = st
  ∨ ((runChain (hs ++ [h]) ctx req st).1 ≠ Next
     ∧ Good (runChain (hs ++ [h]) ctx req st)).
Proof.
  intros Hhs Hh. induction Hhs as [|g hs Hg _ IH].
  - simpl app. by rewrite runChain_last.
  - simpl. specialize (Hg ctx req st).
    destruct (g ctx req st) as [o st0]. simpl in Hg. subst st0.
    destruct o; [by left|exact IH|by left..].
Qed.

(** No route matches: the dispatch falls through. *)
Lemma dispatch_unmatched routes ctx req st :
  Forall (λ r, ¬ routeMatches r req) routes →
  dispatch routes ctx req st = (Next, st).
Proof.
  induction 1 as [|r routes Hr _ IH]; [done|].
  cbn [dispatch]. unfold routeMatches in Hr.
  destruct (decide (r_method r = method req)) as [Hm|Hm]; [|done].
  destruct (matchPath (r_path r) (path req) ∅) eqn:Hp; [|done].
  destruct Hr. by split.
Qed.

(** The application after the dispatch: the store is the one the dispatch
    left. *)
Lemma app_store ctx req st :
  (Server.app ctx req st).2 = (dispatch Server.routes ctx req st).2.
Proof.
  unfold Server.app.
  destruct (dispatch Server.routes ctx req st) as [o st'].
  simpl. by destruct o.
Qed.

Lemma app_send ctx req st r :
  (dispatch Server.routes ctx req st).1 = Send r →
  (Server.app ctx req st).1 = r.
Proof.
  unfold Server.app.
  destruct (dispatch Server.routes ctx req st) as [o st'].
  simpl. by intros ->.
Qed.

(** The routes of the server script and of the router, case by case: what
    is shown of the last handler of each chain holds of the dispatch. *)
Lemma server_routes_result (Good : Outcome * Store → Prop) ctx req st :
  (∀ (h : Handler) req',
     method req' = method req →
     h = Server.createProduct ∧ method req = POST
     ∨ h = Server.updateProduct ∧ method req = PUT
     ∨ h = Server.deleteProduct ∧ method req = DELETE →
     (h ctx req' st).2 = st
     ∨ ((h ctx req' st).1 ≠ Next ∧ Good (h ctx req' st))) →
  (dispatch Server.routes ctx req st).2 = st
  ∨ Good (dispatch Server.routes ctx req st).
Proof.
  intros H. apply dispatch_result. intros r ps Hin Hm Hp.
  unfold Server.routes in Hin.
  repeat (apply elem_of_cons in Hin as [->|Hin]);
    [..|by apply elem_of_nil in Hin]; cbn [r_chain r_method r_path] in *.
  - left. by rewrite runChain_last.
  - left. rewrite runChain_last. apply listProducts_reads.
  - left. rewrite runChain_last. apply getProduct_reads.
  - apply (chain_result _ [Server.authenticate; Server.validateProduct]);
      [|apply H; auto].
    repeat constructor; auto using authenticate_reads, validateProduct_reads.
  - apply (chain_result _ [Server.authenticate; Server.validateProduct]);
      [|apply H; auto].
    repeat constructor; auto using authenticate_reads, validateProduct_reads.
  - apply (chain_result _ [Server.authenticate]); [|apply H; auto].
    repeat constructor; auto using authenticate_reads.
  - left. rewrite runChain_last. apply statistics_reads.
  - left. rewrite runChain_last. apply search_reads.
Qed.

Lemma router_result (Good : Outcome * Store → Prop) ctx req st :
  (∀ (h : Handler) req',
     method req' = method req →
     h = Controller.createProduct ∧ method req = POST
     ∨ h = Controller.updateProduct ∧ method req = PUT
     ∨ h = Controller.deleteProduct ∧ method req = DELETE →
     (h ctx req' st).2 = st
     ∨ ((h ctx req' st).1 ≠ Next ∧ Good (h ctx req' st))) →
  (dispatch Controller.router ctx req st).2 = st
  ∨ Good (dispatch Controller.router ctx req st).
Proof.
  intros H. apply dispatch_result. intros r ps Hin Hm Hp.
  unfold Controller.router in Hin.
  repeat (apply elem_of_cons in Hin as [->|Hin]);
    [..|by apply elem_of_nil in Hin]; cbn [r_chain r_method r_path] in *;
    rewrite runChain_last.
  - left. apply getProducts_reads.
  - left. apply getProductStats_reads.
  - left. apply getProductById_reads.
  - apply H; auto.
  - apply H; auto.
  - apply H; auto.
Qed.

End DispatchLaws.

Lemma app_unmatched `{R : Runtime} ctx req st :
  Forall (λ r, ¬ routeMatches r req) Server.routes →
  Server.app ctx req st
  = (Server.errorHandler ctx (NotFoundError "Endpoint not found"), st).
Proof.
  intros H. unfold Server.app. by rewrite (dispatch_unmatched _ _ _ _ H).
Qed.

(** X1.  What a request meets when no route answers it.  The global
    middleware comes first: every [OPTIONS] request is answered 204 with
    no body by [cors()], and a request whose body the JSON parser refuses
    is answered by the error handler with the parser's error, whatever
    its path.  A request past both that no route matches, for a [HEAD]
    request no route for [GET], and every request of a method without
    routes, is answered by the 404 handler through the error handler:
    status 404 with the message of the handler.  In all three cases the
    store is as it was. *)
Theorem unmatched_request_is_404 `{R : Runtime} (ctx : Ctx) (inc : Incoming)
    (st : Store) :
  (i_verb inc = OPTIONS → Server.serve ctx inc st = (Server.preflight, st))
  ∧ (∀ e, i_verb inc ≠ OPTIONS → i_parsed inc = Err e →
       status (Server.serve ctx inc st).1
       = status (Server.errorHandler ctx e)
       ∧ (i_verb inc ≠ HEAD →
          (Server.serve ctx inc st).1 = Server.errorHandler ctx e)
       ∧ (Server.serve ctx inc st).2 = st)
  ∧ (∀ b, i_verb inc ≠ OPTIONS → i_parsed inc = Ok b →
       (∀ m, handledAs (i_verb inc) m →
          Forall (λ r, ¬ routeMatches r (Server.received m inc b))
            Server.routes) →
       status (Server.serve ctx inc st).1 = 404
       ∧ (i_verb inc ≠ HEAD →
          (Server.serve ctx inc st).1
          = Server.errorHandler ctx (NotFoundError "Endpoint not found"))
       ∧ (Server.serve ctx inc st).2 = st).
Proof.
  unfold Server.serve. split; [by intros ->|]. split.
  - intros e Hv ->. by destruct (i_verb inc).
  - intros b Hv -> Hno.
    destruct (i_verb inc) as [m| | |nm]; [| |done|done].
    + by rewrite (app_unmatched ctx _ st (Hno m eq_refl)).
    + by rewrite (app_unmatched ctx _ st (Hno GET eq_refl)).
Qed.

Lemma unmatched_request_is_404_witness :
  Server.serve exCtx (incoming OPTIONS ["api"; "products"] (Ok ∅)) exStore
  = (Server.preflight, exStore)
  ∧ status (Server.serve exCtx
              (incoming (Routed POST) ["api"; "products"] (Err tooLarge))
              exStore).1 = 413
  ∧ Server.serve exCtx (incoming (Routed GET) ["api"; "orders"] (Ok ∅))
      exStore
    = (Server.errorHandler exCtx (NotFoundError "Endpoint not found"),
       exStore)
  ∧ status (Server.serve exCtx
              (incoming (OtherVerb "PATCH") ["api"; "products"] (Ok ∅))
              exStore).1 = 404.
Proof.
  split; [|split; [|split]].
  - apply (unmatched_request_is_404 exCtx
             (incoming OPTIONS ["api"; "products"] (Ok ∅)) exStore).
    reflexivity.
  - destruct (unmatched_request_is_404 exCtx
                (incoming (Routed POST) ["api"; "products"] (Err tooLarge))
                exStore) as (_ & H & _).
    destruct (H tooLarge) as (-> & _); [discriminate|reflexivity|].
    reflexivity.
  - destruct (unmatched_request_is_404 exCtx
                (incoming (Routed GET) ["api"; "orders"] (Ok ∅)) exStore)
      as (_ & _ & H).
    destruct (H ∅) as (_ & He & Hs); [discriminate|reflexivity| |].
    + intros m <-. unfold Server.routes.
      repeat (apply Forall_cons_2;
              [intros [Hm [ps Hp]]; vm_compute in Hm, Hp; discriminate|]).
      apply Forall_nil_2.
    + specialize (He ltac:(discriminate)).
      destruct (Server.serve exCtx
                  (incoming (Routed GET) ["api"; "orders"] (Ok ∅)) exStore)
        as [r s'].
      cbn [fst snd] in He, Hs. rewrite He, Hs. reflexivity.
  - destruct (unmatched_request_is_404 exCtx
                (incoming (OtherVerb "PATCH") ["api"; "products"] (Ok ∅))
                exStore) as (_ & _ & H).
    destruct (H ∅) as (Hs & _); [discriminate|reflexivity| |exact Hs].
    intros m [].
Defined.

(** ** The gate in front of the writes *)

Section Writes.
Context `{R : Runtime}.

Lemma gate_first ctx req st hs :
  ¬ authorized ctx req →
  (runChain (Server.authenticate :: hs) ctx req st).2 = st.
Proof.
  intros Hna.
  rewrite (runChain_send _ _ _ _ _
             {| status := 401;
                body := MessageJson "Invalid or missing API key" None |} st);
    [done|].
  apply inline_gate. unfold authorized in Hna.
  destruct (present (headers req !! "x-api-key")); [|by left].
  right. intros Heq. by apply Hna.
Qed.

Lemma unchanged_without_credential ctx req st :
  ¬ (mutating req ∧ authorized ctx req) →
  (Server.app ctx req st).2 = st.
Proof.
  intros Hno. rewrite app_store.
  destruct (dispatch_result (λ _, False) Server.routes ctx req st)
    as [H|[]]; [|done].
  intros r ps Hin Hm Hp. left.
  unfold Server.routes in Hin.
  repeat (apply elem_of_cons in Hin as [->|Hin]);
    [..|by apply elem_of_nil in Hin]; cbn [r_chain r_method r_path] in *.
  - by rewrite runChain_last.
  - rewrite runChain_last. apply listProducts_reads.
  - rewrite runChain_last. apply getProduct_reads.
  - apply gate_first. intros Ha. apply Hno. split; [|done].
    left. split; [done|]. by rewrite Hp.
  - apply gate_first. intros Ha. apply Hno. split; [|done].
    right. split; [by left|]. by rewrite Hp.
  - apply gate_first. intros Ha. apply Hno. split; [|done].
    right. split; [by right|]. by rewrite Hp.
  - rewrite runChain_last. apply statistics_reads.
  - rewrite runChain_last. apply search_reads.
Qed.

End Writes.

(** X2.  The server script changes the store only for a request on one of
    its mutating routes that carries the configured secret in the
    [x-api-key] header: every other request, whatever it is, leaves the
    store as it was. *)
Theorem writes_need_credential `{R : Runtime} (ctx : Ctx) (req : Request)
    (st : Store) :
  (Server.app ctx req st).2 ≠ st → mutating req ∧ authorized ctx req.
Proof.
  intros Hch.
  destruct (decide (mutating req ∧ authorized ctx req)) as [H|H]; [done|].
  destruct Hch. by apply unchanged_without_credential.
Qed.

Lemma writes_need_credential_witness :
  let req := postReq {[ "x-api-key" := "s3cret" ]} laptopBody in
  mutating req ∧ authorized exCtx req.
Proof.
  intros req. apply (writes_need_credential exCtx req exStore).
  apply (bool_decide_unpack _). vm_compute. exact I.
Defined.

(** ** The store under insertion, replacement and removal *)

Lemma lookupDoc_app_new id st p :
  lookupDoc id st = None → _id p = id → lookupDoc id (st ++ [p]) = Some p.
Proof.
  unfold lookupDoc. intros Hn Hp. induction st as [|q st IH]; simpl in *.
  - by rewrite bool_decide_eq_true_2.
  - destruct (bool_decide (_id q = id)); [done|]. auto.
Qed.

Lemma lookupDoc_app_old id st p :
  _id p ≠ id → lookupDoc id (st ++ [p]) = lookupDoc id st.
Proof.
  unfold lookupDoc. intros Hp. induction st as [|q st IH]; simpl in *.
  - by rewrite bool_decide_eq_false_2.
  - destruct (bool_decide (_id q = id)); [done|]. auto.
Qed.

Lemma lookupDoc_None id st : lookupDoc id st = None ↔ id ∉ ids st.
Proof.
  unfold lookupDoc, ids. induction st as [|q st IH]; simpl.
  - split; [intros _; apply not_elem_of_nil|done].
  - rewrite not_elem_of_cons. case_bool_decide as Hq.
    + split; [done|]. intros [? _]. by subst.
    + rewrite IH. split; [intros ?; split; [congruence|done]|by intros [_ ?]].
Qed.

Lemma lookupDoc_elem id st p : lookupDoc id st = Some p → p ∈ st.
Proof.
  unfold lookupDoc. intros H. apply find_some in H as [H _].
  by apply list_elem_of_In.
Qed.

Lemma lookupDoc_remove_ne id' st id :
  id ≠ id' → lookupDoc id (removeDoc id' st) = lookupDoc id st.
Proof.
  unfold lookupDoc. intros Hne. induction st as [|q st IH]; simpl; [done|].
  destruct (decide (_id q = id')) as [Hq|Hq]; simpl.
  - rewrite bool_decide_eq_false_2; [done|congruence].
  - by rewrite IH.
Qed.

Lemma removeDoc_length id st p :
  lookupDoc id st = Some p → S (length (removeDoc id st)) = length st.
Proof.
  unfold lookupDoc. induction st as [|q st IH]; simpl; [done|].
  case_bool_decide as Hq.
  - intros _. by rewrite decide_True.
  - intros H. rewrite decide_False by done. simpl. by rewrite IH.
Qed.

Lemma removeDoc_sublist id st : removeDoc id st `sublist_of` st.
Proof.
  induction st as [|q st IH]; simpl; [done|].
  case_decide; [by apply sublist_cons|by apply sublist_skip].
Qed.

Lemma removeDoc_gone id st :
  NoDup (ids st) → lookupDoc id (removeDoc id st) = None.
Proof.
  unfold ids. intros Hnd. apply lookupDoc_None. unfold ids.
  induction st as [|q st IH]; simpl; [apply not_elem_of_nil|].
  apply NoDup_cons in Hnd as [Hq Hnd]. case_decide as Hid.
  - by subst.
  - simpl. apply not_elem_of_cons. split; [congruence|auto].
Qed.

Lemma ids_replaceDoc p st : ids (replaceDoc p st) = ids st.
Proof.
  unfold ids. induction st as [|q st IH]; [done|]. cbn [replaceDoc].
  case_decide as Hq; rewrite !fmap_cons; [by rewrite Hq|by rewrite IH].
Qed.

Lemma replaceDoc_valid p st :
  validProduct p → storeInv st → storeInv (replaceDoc p st).
Proof.
  unfold storeInv. intros Hp. induction 1 as [|q st Hq Hst IH]; simpl.
  - constructor.
  - case_decide; by constructor.
Qed.

Lemma storeStep_inv ctx st st' :
  storeStep ctx st st' → storeInv st → storeInv st'.
Proof.
  intros [|p Hid Hp|p Hp|id] Hst; [done| | |].
  - apply Forall_app. split; [done|]. by constructor.
  - apply replaceDoc_valid; auto.
  - unfold storeInv in *. rewrite Forall_forall in *. intros q Hq.
    apply Hst. eapply elem_of_sublist; [done|apply removeDoc_sublist].
Qed.

Lemma storeStep_ids ctx st st' :
  storeStep ctx st st' → freshId ctx ∉ ids st → NoDup (ids st) →
  NoDup (ids st').
Proof.
  intros [|p Hid Hp|p Hp|id] Hf Hnd; [done| | |].
  - assert (_id p ∉ ids st) as Hnew.
    { destruct Hid as [->|Hid]; [done|]. by apply lookupDoc_None. }
    unfold ids in *. rewrite fmap_app. simpl. apply NoDup_app.
    split; [done|]. split; [|apply NoDup_singleton].
    intros x Hx ?%list_elem_of_singleton. congruence.
  - by rewrite ids_replaceDoc.
  - unfold ids in *. apply (sublist_NoDup _ (_id <$> st)); [done|].
    apply fmap_sublist, removeDoc_sublist.
Qed.

Lemma storeStep_length ctx st st' :
  storeStep ctx st st' →
  (length st' ≤ S (length st) ∧ length st ≤ S (length st'))%nat.
Proof.
  intros [|p Hid Hp|p Hp|id].
  - lia.
  - rewrite length_app. simpl. lia.
  - assert (length (ids (replaceDoc p st)) = length (ids st)) as H
      by by rewrite ids_replaceDoc.
    unfold ids in H. rewrite !length_fmap in H. lia.
  - pose proof (sublist_length _ _ (removeDoc_sublist id st)).
    assert (length st ≤ S (length (removeDoc id st)))%nat; [|lia].
    clear. induction st as [|q st IH]; simpl; [lia|].
    case_decide; simpl; lia.
Qed.

(** ** Create, update and delete, handler by handler *)

Section Writers.
Context `{R : Runtime}.

Lemma insert_created sch ctx b v5 st p st' :
  sch = productSchema ∨ sch = Server.productSchema →
  v5 = (if defined (b !! "inStock") then b !! "inStock"
        else Some (VBool true)) →
  save sch ctx
    (assignInStock v5
       (assignCategory sch (b !! "category")
          (assignPrice (b !! "price")
             (assignDescription sch (b !! "description")
                (assignName sch (b !! "name") newDoc))))) st
  = Ok (p, st') →
  st' = st ++ [p] ∧ created ctx b p ∧ validProduct p.
Proof.
  intros Hsch Hv5 Hs.
  assert (guarded sch) as Hg
    by (destruct Hsch as [-> | ->]; [apply guarded_model|apply guarded_server]).
  pose proof (insert_ok _ _ _ _ _ _ _ _ _ _ Hg Hs) as (_ & Hvalid & _).
  unfold save in Hs.
  destruct (validate sch _) eqn:Hv; [|by repeat case_match].
  apply validate_nil in Hv as (Hce & _).
  apply assignInStock_ok in Hce as (b5 & Hb5 & Hd5 & Hce).
  apply assignCategory_ok in Hce as (b4 & Hb4 & Hd4 & Hce).
  apply assignPrice_ok in Hce as (b3 & Hb3 & Hd3 & Hce).
  apply assignDescription_ok in Hce as (b2 & Hb2 & Hd2 & Hce).
  apply assignName_ok in Hce as (b1 & Hb1 & Hd1 & _).
  autorewrite with doc in Hs. rewrite Hd1, Hd2, Hd3, Hd4, Hd5 in Hs.
  destruct b1 as [s1|], b2 as [s2|], b3 as [n|], b4 as [s4|]; try done.
  simpl in Hs. injection Hs as <- <-.
  split; [done|]. split; [|done].
  unfold created, normalised. simpl.
  assert (setString (sName sch) s1 = trim s1
          ∧ setString (sDescription sch) s2 = trim s2
          ∧ setString (sCategory sch) s4 = toLowerCase s4) as (-> & -> & ->)
    by (by destruct Hsch as [-> | ->]).
  repeat (split; [by eauto|]).
  subst v5. destruct (defined (b !! "inStock")); [done|].
  simpl in Hb5. congruence.
Qed.

Lemma controller_create_result ctx req st :
  (∃ e, Controller.createProduct ctx req st = (NextErr e, st))
  ∨ ∃ p, Controller.createProduct ctx req st
         = (json 201 (ProductJson p), st ++ [p])
         ∧ created ctx (reqBody req) p ∧ validProduct p.
Proof.
  unfold Controller.createProduct.
  match goal with |- context [save _ _ ?d _] =>
    destruct (save productSchema ctx d st) as [[p st']|e] eqn:Hs end;
    [|by left; eexists].
  apply (insert_created _ _ (reqBody req)) in Hs as (-> & Hc & Hv);
    [|by left|done].
  right. by exists p.
Qed.

Lemma server_create_result ctx req st :
  (∃ e, Server.createProduct ctx req st = (NextErr e, st))
  ∨ ∃ p, Server.createProduct ctx req st
         = (json 201 (ProductJson p), st ++ [p])
         ∧ createdFrom ctx (reqBody req) p ∧ validProduct p
         ∧ lookupDoc (_id p) st = None.
Proof.
  set (b := reqBody req).
  pose proof (server_create_cases ctx req st) as Hcases.
  cbv zeta in Hcases. fold b in Hcases.
  destruct Hcases as [[errs ->]|(p0 & _ & _ & _ & [Hok|[_ ->]])];
    [by left; eexists| |by left; eexists].
  clear p0 Hok. unfold Server.createProduct. fold b.
  match goal with |- context [saveAs _ _ ?i ?t (Server.assignMeta _ ?d) _] =>
    set (doc := d);
    destruct (saveAs_result Server.productSchema ctx i t
                (Server.assignMeta b doc) st)
      as [[errs ->]|(p & Hv & Hn & Hd & Hpr & Hc & Hs & Hid & Ht & Hu & Hr)]
  end; [by left; eexists|].
  destruct Hr as [[Hl ->]|[_ ->]]; [|by left; eexists].
  right. exists p. split; [done|].
  apply assignMeta_validate in Hv as (Hv & [i Hi] & [t Hti] & _).
  destruct (assignMeta_fields b doc) as (Hfn & Hfd & Hfp & Hfc & Hfs & _).
  rewrite Hfn in Hn. rewrite Hfd in Hd. rewrite Hfp in Hpr.
  rewrite Hfc in Hc. rewrite Hfs in Hs.
  destruct (save_valid_new Server.productSchema ctx doc st _ _ _ _ Hv
              ltac:(subst doc; by autorewrite with doc) Hn Hd Hpr Hc)
    as (q & Hq & Hqn & Hqd & Hqp & Hqc & Hqs).
  apply (insert_created _ _ b) in Hq as (_ & (_ & _ & _ & Hnorm) & Hvalid);
    [|by right|done].
  rewrite Hs in Hqs.
  split; [|split; [|done]].
  - unfold createdFrom. rewrite Hi in Hid. rewrite Hti in Ht.
    unfold Server.bodyId in Hi. unfold Server.bodyDate in Hti.
    split; [|split; [|split; [done|]]].
    + destruct (b !! "_id") as [v|]; simpl in Hi.
      * destruct (castObjectId v) as [j|]; by simplify_eq/=.
      * by simplify_eq/=.
    + destruct (b !! "createdAt") as [v|]; simpl in Hti.
      * rewrite Hti. destruct t; simpl in Ht; [left|right]; by rewrite ?Ht.
      * by simplify_eq/=.
    + unfold normalised in *. by rewrite <- Hqn, <- Hqd, <- Hqp, <- Hqc, <- Hqs.
  - destruct Hvalid as [? ?]. split; by rewrite <- ?Hqp, <- ?Hqc.
Qed.

(** A successful create, of the controller or of the server script. *)
Lemma create_success (create : Handler) ctx req st p :
  create ∈ [Controller.createProduct; Server.createProduct] →
  (create ctx req st).1 = json 201 (ProductJson p) →
  normalised (reqBody req) p ∧ validProduct p
  ∧ (create ctx req st).2 = st ++ [p]
  ∧ (_id p = freshId ctx ∨ lookupDoc (_id p) st = None).
Proof.
  intros Hc Hr.
  apply elem_of_cons in Hc as [->|Hc];
    [|apply list_elem_of_singleton in Hc as ->].
  - destruct (controller_create_result ctx req st)
      as [[e He]|(q & Hq & (Hid & _ & _ & Hn) & Hv)];
      [by rewrite He in Hr|].
    rewrite Hq in *. simpl in *. injection Hr as ->. auto.
  - destruct (server_create_result ctx req st)
      as [[e He]|(q & Hq & (_ & _ & _ & Hn) & Hv & Hl)];
      [by rewrite He in Hr|].
    rewrite Hq in *. simpl in *. injection Hr as ->. auto.
Qed.

Lemma saved_valid sch ctx d st p st' :
  guarded sch → save sch ctx d st = Ok (p, st') → validProduct p.
Proof.
  intros ((m1 & Hmin) & (m2 & Henum) & _) Hs. unfold save in Hs.
  destruct (validate sch d) eqn:Hv; [|by repeat case_match].
  apply validate_nil in Hv as (_ & _ & _ & Hvp & Hvc).
  destruct (d_name d), (d_description d), (d_price d) as [pr|],
    (d_category d) as [c|]; try done.
  assert (num_leb (ofZ 0) pr = true ∧ c ∈ categories) as [? ?]
    by eauto using validateNumber_min, validateString_enum.
  destruct (d_orig d); [case_decide as Heq|]; injection Hs as <- <-;
    try done.
  rewrite <- Heq. done.
Qed.

(** The update of the controller: it fails and leaves the store, or it
    answers 200 with the document it wrote back under the id of the
    request. *)
Lemma controller_update_result ctx req st :
  ((Controller.updateProduct ctx req st).2 = st
   ∧ ∀ q, (Controller.updateProduct ctx req st).1 ≠ json 200 (ProductJson q))
  ∨ ∃ o p, lookupDoc (paramId req) st = Some o
           ∧ isObjectId (paramId req) = true
           ∧ Controller.updateProduct ctx req st
             = (json 200 (ProductJson p), replaceDoc p st)
           ∧ _id p = paramId req ∧ validProduct p.
Proof.
  unfold Controller.updateProduct, findById.
  destruct (isObjectId (paramId req)); [|by left].
  destruct (lookupDoc (paramId req) st) as [o|] eqn:Ho; [|by left].
  match goal with |- context [save _ _ ?d _] => set (doc := d) end.
  assert (d_orig doc = Some o) as Hd.
  { subst doc. repeat case_match; by autorewrite with doc. }
  destruct (save productSchema ctx doc st) as [[p st']|e] eqn:Hs;
    [|by left].
  pose proof (saved_valid _ _ _ _ _ _ guarded_model Hs) as Hv.
  apply (save_loaded _ _ _ _ _ _ _ Hd) in Hs as (-> & Hid & _).
  right. exists o, p.
  split; [done|]. split; [done|]. split; [done|]. split; [|done].
  rewrite Hid. by eapply lookupDoc_id.
Qed.

Lemma update_valid sch upd o :
  guarded sch →
  d_castErrors (Server.castUpdate sch upd) = [] →
  Server.validateUpdate sch upd (Server.castUpdate sch upd) = [] →
  validProduct o →
  num_leb (ofZ 0)
    (default (price o) (d_price (Server.castUpdate sch upd))) = true
  ∧ default (category o) (d_category (Server.castUpdate sch upd))
    ∈ categories.
Proof.
  intros ((m1 & Hmin) & (m2 & Henum) & _) Hce Hv [Hop Hoc].
  unfold Server.validateUpdate in Hv.
  apply app_eq_nil in Hv as [_ Hv]. apply app_eq_nil in Hv as [_ Hv].
  apply app_eq_nil in Hv as [Hp Hc].
  split.
  - destruct (defined (upd !! "price")) eqn:Hd.
    + apply pathError_nil in Hp.
      destruct (d_price _) as [n|]; [|done].
      change (num_leb (ofZ 0) n = true).
      eauto using validateNumber_min.
    + unfold Server.castUpdate. rewrite Hd.
      by repeat case_match; autorewrite with doc.
  - destruct (defined (upd !! "category")) eqn:Hd.
    + apply pathError_nil in Hc.
      destruct (d_category _) as [c|]; [|done].
      change (c ∈ categories).
      eauto using validateString_enum.
    + unfold Server.castUpdate. rewrite Hd.
      by repeat case_match; autorewrite with doc.
Qed.

Lemma server_update_result ctx req st :
  ((Server.updateProduct ctx req st).2 = st
   ∧ ∀ q, (Server.updateProduct ctx req st).1 ≠ json 200 (ProductJson q))
  ∨ ∃ o p, lookupDoc (paramId req) st = Some o
           ∧ isObjectId (paramId req) = true
           ∧ Server.updateProduct ctx req st
             = (json 200 (ProductJson p), replaceDoc p st)
           ∧ _id p = paramId req ∧ updatedAt p = now ctx
           ∧ (storeInv st → validProduct p).
Proof.
  unfold Server.updateProduct, Server.findByIdAndUpdate.
  destruct (isObjectId (paramId req)); simpl; [|by left].
  destruct (d_castErrors _) as [|[??]?] eqn:Hce; [|by left].
  destruct (Server.validateUpdate _ _ _) eqn:Hv; [|by left].
  destruct (lookupDoc (paramId req) st) as [o|] eqn:Ho; [|by left].
  right. eexists o, _.
  split; [done|]. split; [done|]. split; [done|].
  split; [simpl; by eapply lookupDoc_id|]. split; [done|].
  intros Hst.
  assert (validProduct o) as Hvo.
  { unfold storeInv in Hst. rewrite Forall_forall in Hst. apply Hst.
    by eapply lookupDoc_elem. }
  by apply (update_valid _ _ _ guarded_server Hce Hv Hvo).
Qed.

Lemma controller_delete ctx req st :
  isObjectId (paramId req) = true →
  match lookupDoc (paramId req) st with
  | None =>
      Controller.deleteProduct ctx req st
      = (json 404
           (ErrorJson ("Product not found with id of " +:+ paramId req)), st)
  | Some _ =>
      Controller.deleteProduct ctx req st
      = (json 200 EmptyJson, removeDoc (paramId req) st)
  end.
Proof.
  intros Hid. unfold Controller.deleteProduct, findById. rewrite Hid.
  destruct (lookupDoc (paramId req) st) as [p|] eqn:Hp; [|done].
  by rewrite (lookupDoc_id _ _ _ Hp).
Qed.

Lemma server_delete ctx req st :
  isObjectId (paramId req) = true →
  match lookupDoc (paramId req) st with
  | None =>
      Server.deleteProduct ctx req st
      = (NextErr (NotFoundError "Product not found"), st)
  | Some _ =>
      Server.deleteProduct ctx req st
      = (Send {| status := 204; body := NoBody |}, removeDoc (paramId req) st)
  end.
Proof.
  intros Hid. unfold Server.deleteProduct, Server.findByIdAndDelete, findById.
  rewrite Hid. by destruct (lookupDoc (paramId req) st).
Qed.

(** Each writer leaves the store or makes one step, answered with the
    success status of its method. *)
Lemma controller_create_step deleted ctx req st :
  (Controller.createProduct ctx req st).2 = st
  ∨ ((Controller.createProduct ctx req st).1 ≠ Next
     ∧ wrote deleted ctx st POST (Controller.createProduct ctx req st)).
Proof.
  destruct (controller_create_result ctx req st)
    as [[e ->]|(p & -> & (Hid & _) & Hv)]; [by left|].
  right. split; [done|]. split; [apply step_insert; auto|]. by eexists.
Qed.

Lemma server_create_step deleted ctx req st :
  (Server.createProduct ctx req st).2 = st
  ∨ ((Server.createProduct ctx req st).1 ≠ Next
     ∧ wrote deleted ctx st POST (Server.createProduct ctx req st)).
Proof.
  destruct (server_create_result ctx req st)
    as [[e ->]|(p & -> & _ & Hv & Hl)]; [by left|].
  right. split; [done|]. split; [apply step_insert; auto|]. by eexists.
Qed.

Lemma controller_update_step deleted ctx req st :
  (Controller.updateProduct ctx req st).2 = st
  ∨ ((Controller.updateProduct ctx req st).1 ≠ Next
     ∧ wrote deleted ctx st PUT (Controller.updateProduct ctx req st)).
Proof.
  destruct (controller_update_result ctx req st)
    as [[? _]|(o & p & _ & _ & -> & _ & Hv)]; [by left|].
  right. split; [done|]. split; [by constructor|]. by eexists.
Qed.

Lemma server_update_step deleted ctx req st :
  (Server.updateProduct ctx req st).2 = st
  ∨ ((Server.updateProduct ctx req st).1 ≠ Next
     ∧ wrote deleted ctx st PUT (Server.updateProduct ctx req st)).
Proof.
  destruct (server_update_result ctx req st)
    as [[? _]|(o & p & _ & _ & -> & _ & _ & Hv)]; [by left|].
  right. split; [done|]. split; [by constructor|]. by eexists.
Qed.

Lemma controller_delete_step ctx req st :
  (Controller.deleteProduct ctx req st).2 = st
  ∨ ((Controller.deleteProduct ctx req st).1 ≠ Next
     ∧ wrote 200 ctx st DELETE (Controller.deleteProduct ctx req st)).
Proof.
  unfold Controller.deleteProduct.
  destruct (findById _ _) as [[found|]|]; [|by left..].
  right. split; [done|]. split; [constructor|]. by eexists.
Qed.

Lemma server_delete_step ctx req st :
  (Server.deleteProduct ctx req st).2 = st
  ∨ ((Server.deleteProduct ctx req st).1 ≠ Next
     ∧ wrote 204 ctx st DELETE (Server.deleteProduct ctx req st)).
Proof.
  unfold Server.deleteProduct, Server.findByIdAndDelete.
  destruct (findById _ _) as [[found|]|]; [|by left..].
  right. split; [done|]. split; [constructor|]. by eexists.
Qed.

(** Every request to the server script or to the router leaves the store
    or is a write. *)
Lemma server_request ctx req st :
  (dispatch Server.routes ctx req st).2 = st
  ∨ wrote 204 ctx st (method req) (dispatch Server.routes ctx req st).
Proof.
  apply (server_routes_result (wrote 204 ctx st (method req))).
  intros h req' Hm [[-> ->]|[[-> ->]|[-> ->]]].
  - apply server_create_step.
  - apply server_update_step.
  - apply server_delete_step.
Qed.

Lemma router_request ctx req st :
  (dispatch Controller.router ctx req st).2 = st
  ∨ wrote 200 ctx st (method req) (dispatch Controller.router ctx req st).
Proof.
  apply (router_result (wrote 200 ctx st (method req))).
  intros h req' Hm [[-> ->]|[[-> ->]|[-> ->]]].
  - apply controller_create_step.
  - apply controller_update_step.
  - apply controller_delete_step.
Qed.

Lemma server_step ctx req st : storeStep ctx st (Server.app ctx req st).2.
Proof.
  rewrite app_store.
  destruct (server_request ctx req st) as [->|[H _]]; [constructor|done].
Qed.

Lemma router_step ctx req st :
  storeStep ctx st (dispatch Controller.router ctx req st).2.
Proof.
  destruct (router_request ctx req st) as [->|[H _]]; [constructor|done].
Qed.

End Writers.

(** ** Writes *)

(** X3.  A request that changes the store is answered with the success
    status of its method: 201 for a POST, 200 for a PUT, for a DELETE 204
    by the server script and 200 by the router, and a GET never changes
    the store.  So every request that is answered with an error, by the
    server script or by the router, leaves the store exactly as it
    was. *)
Theorem changes_only_on_success `{R : Runtime} (ctx : Ctx) (req : Request)
    (st : Store) :
  ((Server.app ctx req st).2 ≠ st →
   successFor 204 (method req) (status (Server.app ctx req st).1))
  ∧ ((dispatch Controller.router ctx req st).2 ≠ st →
     ∃ r, (dispatch Controller.router ctx req st).1 = Send r
          ∧ successFor 200 (method req) (status r)).
Proof.
  split; intros Hch.
  - rewrite app_store in Hch.
    destruct (server_request ctx req st) as [?|[_ (r & Hr & Hs)]]; [done|].
    by rewrite (app_send _ _ _ _ Hr).
  - destruct (router_request ctx req st) as [?|[_ H]]; done.
Qed.

Lemma changes_only_on_success_witness :
  let req := postReq {[ "x-api-key" := "s3cret" ]} laptopBody in
  successFor 204 (method req) (status (Server.app exCtx req exStore).1)
  ∧ ∃ r, (dispatch Controller.router exCtx
            {| method := DELETE; path := ["65f000000000000000000002"];
               headers := ∅; query := ∅; params := ∅; reqBody := ∅ |}
            exStore).1 = Send r
         ∧ successFor 200 DELETE (status r).
Proof.
  intros req. split.
  - apply (changes_only_on_success exCtx req exStore).
    apply (bool_decide_unpack _). vm_compute. exact I.
  - apply (changes_only_on_success exCtx
             {| method := DELETE; path := ["65f000000000000000000002"];
                headers := ∅; query := ∅; params := ∅; reqBody := ∅ |}
             exStore).
    apply (bool_decide_unpack _). vm_compute. exact I.
Defined.

(** X4.  Whatever the request, the server script and the router do at
    most one thing to the store: nothing, one insertion of a valid
    document, under the id the store assigns or under an id that no
    document of the store has (the create of the server script keeps an
    [_id] of the body), one replacement of a document under its own id,
    or one removal. *)
Theorem request_changes_one_document `{R : Runtime} (ctx : Ctx)
    (req : Request) (st : Store) :
  storeStep ctx st (Server.app ctx req st).2
  ∧ storeStep ctx st (dispatch Controller.router ctx req st).2.
Proof. split; [apply server_step|apply router_step]. Qed.

(** X5.  The invariants of the store, a non-negative price and a category
    of the enumeration for every product, are kept by every sequence of
    requests, to the server script and to the router, whatever the
    requests are and whether they succeed or fail. *)
Theorem requests_keep_invariants `{R : Runtime}
    (reqs : list (Ctx * Request)) (st : Store) :
  storeInv st →
  storeInv (after (λ ctx req s, (Server.app ctx req s).2) reqs st)
  ∧ storeInv
      (after (λ ctx req s, (dispatch Controller.router ctx req s).2) reqs st).
Proof.
  unfold after. intros Hst. split.
  - revert st Hst. induction reqs as [|[ctx req] reqs IH]; intros st Hst;
      [done|].
    simpl. apply IH. eapply storeStep_inv; [apply server_step|done].
  - revert st Hst. induction reqs as [|[ctx req] reqs IH]; intros st Hst;
      [done|].
    simpl. apply IH. eapply storeStep_inv; [apply router_step|done].
Qed.

Lemma requests_keep_invariants_witness :
  let reqs :=
    [(exCtx, postReq {[ "x-api-key" := "s3cret" ]} laptopBody);
     (testCtx, deleteReq "65f000000000000000000002");
     (exCtx, putReq "65f000000000000000000003"
               {[ "price" := VNum (ofZ (-5)) ]})] in
  storeInv (after (λ ctx req s, (Server.app ctx req s).2) reqs exStore)
  ∧ storeInv
      (after (λ ctx req s, (dispatch Controller.router ctx req s).2)
         reqs exStore).
Proof.
  intros reqs. apply (requests_keep_invariants reqs exStore).
  apply exStore_valid.
Defined.

(** X6.  A request keeps the ids of the store distinct, provided the id
    the store assigns to the next document is not yet in use. *)
Theorem requests_keep_ids_unique `{R : Runtime} (ctx : Ctx) (req : Request)
    (st : Store) :
  NoDup (ids st) → freshId ctx ∉ ids st →
  NoDup (ids (Server.app ctx req st).2)
  ∧ NoDup (ids (dispatch Controller.router ctx req st).2).
Proof.
  intros Hnd Hf.
  split; eapply storeStep_ids; eauto using server_step, router_step.
Qed.

Lemma requests_keep_ids_unique_witness :
  let req := postReq {[ "x-api-key" := "s3cret" ]} laptopBody in
  NoDup (ids (Server.app exCtx req exStore).2)
  ∧ NoDup (ids (dispatch Controller.router exCtx req exStore).2).
Proof.
  intros req. apply (requests_keep_ids_unique exCtx req exStore).
  - apply (bool_decide_unpack _). vm_compute. exact I.
  - apply (bool_decide_unpack _). vm_compute. exact I.
Defined.

(** ** Create, read back, update, delete *)

(** X7.  What a successful create stores and returns.  Both creates
    append one product with the name and the description trimmed, the
    price cast to a number, the category in lower case, and the stock
    flag [true] when the body has none.  The controller passes on the
    five declared paths only: its product has the id the store assigns
    and both timestamps at the time of the request.  The server script
    passes on the whole body: an [_id] of the body is the id of the
    product, which no document had before, a [createdAt] of the body is
    its creation time, and [updatedAt] is the creation time; what the
    body leaves out is the id the store assigns and the time of the
    request. *)
Theorem create_stores_normalised `{R : Runtime} (ctx : Ctx) (req : Request)
    (st : Store) (p : Product) :
  ((Controller.createProduct ctx req st).1 = json 201 (ProductJson p) →
   created ctx (reqBody req) p
   ∧ (Controller.createProduct ctx req st).2 = st ++ [p])
  ∧ ((Server.createProduct ctx req st).1 = json 201 (ProductJson p) →
     createdFrom ctx (reqBody req) p
     ∧ lookupDoc (_id p) st = None
     ∧ (Server.createProduct ctx req st).2 = st ++ [p]).
Proof.
  split; intros Hr.
  - destruct (controller_create_result ctx req st)
      as [[e He]|(q & Hq & Hc & _)]; [by rewrite He in Hr|].
    rewrite Hq in *. simpl in *. by injection Hr as ->.
  - destruct (server_create_result ctx req st)
      as [[e He]|(q & Hq & Hc & _ & Hl)]; [by rewrite He in Hr|].
    rewrite Hq in *. simpl in *. by injection Hr as ->.
Qed.

Lemma create_stores_normalised_witness :
  let req := postReq ∅ taggedBody in
  let p := {| _id := "65f0000000000000000000aa"; name := "Laptop";
              description := "Fast"; price := Fin (Q2Qc (129999 # 100));
              category := "electronics"; inStock := Some true;
              createdAt := 1234; updatedAt := 1234 |} in
  let q := {| _id := "65f000000000000000000004"; name := "Laptop";
              description := "Fast"; price := Fin (Q2Qc (129999 # 100));
              category := "electronics"; inStock := Some true;
              createdAt := 5000; updatedAt := 5000 |} in
  (created exCtx (reqBody req) q
   ∧ (Controller.createProduct exCtx req exStore).2 = exStore ++ [q])
  ∧ (createdFrom exCtx (reqBody req) p
     ∧ lookupDoc (_id p) exStore = None
     ∧ (Server.createProduct exCtx req exStore).2 = exStore ++ [p]).
Proof.
  intros req p q. split.
  - apply (create_stores_normalised exCtx req exStore q).
    apply (bool_decide_unpack _). vm_compute. exact I.
  - apply (create_stores_normalised exCtx req exStore p).
    apply (bool_decide_unpack _). vm_compute. exact I.
Defined.

(** X8.  Create, then read back: the product that a successful create
    returns is the one that a lookup by its id finds afterwards, in the
    controller and in the server script, when that id is well formed, and
    every other id finds what it found before.  The id is the one the
    store assigns, which is assumed not to be in use, or, in the server
    script, the [_id] of the body. *)
Theorem create_then_lookup `{R : Runtime} (ctx : Ctx) (req req' : Request)
    (st : Store) (p : Product) :
  isObjectId (_id p) = true →
  freshId ctx ∉ ids st →
  paramId req' = _id p →
  ∀ create, create ∈ [Controller.createProduct; Server.createProduct] →
    (create ctx req st).1 = json 201 (ProductJson p) →
    Controller.getProductById ctx req' (create ctx req st).2
    = (json 200 (ProductJson p), (create ctx req st).2)
    ∧ Server.getProduct ctx req' (create ctx req st).2
      = (json 200 (ProductJson p), (create ctx req st).2)
    ∧ ∀ id, id ≠ _id p →
        lookupDoc id (create ctx req st).2 = lookupDoc id st.
Proof.
  intros Hoid Hfresh Hid create Hc Hr.
  destruct (create_success create ctx req st p Hc Hr)
    as (_ & _ & Hst & Hnew).
  rewrite Hst.
  assert (lookupDoc (_id p) st = None) as Hno.
  { destruct Hnew as [->|?]; [by apply lookupDoc_None|done]. }
  assert (lookupDoc (_id p) (st ++ [p]) = Some p) as Hl
    by by apply lookupDoc_app_new.
  unfold Controller.getProductById, Server.getProduct, findById.
  rewrite Hid, Hoid, Hl. split; [done|]. split; [done|].
  intros id Hne. apply lookupDoc_app_old. congruence.
Qed.

Lemma create_then_lookup_witness :
  let req := postReq ∅ taggedBody in
  let req' := getReq ["api"; "products"; "65f0000000000000000000aa"] ∅ in
  let req' := withParams req' {[ "id" := "65f0000000000000000000aa" ]} in
  let p := {| _id := "65f0000000000000000000aa"; name := "Laptop";
              description := "Fast"; price := Fin (Q2Qc (129999 # 100));
              category := "electronics"; inStock := Some true;
              createdAt := 1234; updatedAt := 1234 |} in
  Server.getProduct exCtx req' (Server.createProduct exCtx req exStore).2
  = (json 200 (ProductJson p), (Server.createProduct exCtx req exStore).2).
Proof.
  intros req req0 req' p.
  destruct (create_then_lookup exCtx req req' exStore p)
    with (create := Server.createProduct) as (_ & H & _).
  - reflexivity.
  - apply (bool_decide_unpack _). vm_compute. exact I.
  - reflexivity.
  - apply elem_of_cons. right. apply elem_of_cons. left. reflexivity.
  - apply (bool_decide_unpack _). vm_compute. exact I.
  - exact H.
Defined.

(** X9.  Update, then read back: the product that a successful update
    returns, in the controller and in the server script, is the one
    stored under the id of the request, which a lookup by that id finds
    afterwards; every other id finds what it found before, and the
    number of documents is unchanged. *)
Theorem update_then_lookup `{R : Runtime} (ctx : Ctx) (req req' : Request)
    (st : Store) (p : Product) :
  paramId req' = paramId req →
  ∀ update, update ∈ [Controller.updateProduct; Server.updateProduct] →
    (update ctx req st).1 = json 200 (ProductJson p) →
    _id p = paramId req
    ∧ Controller.getProductById ctx req' (update ctx req st).2
      = (json 200 (ProductJson p), (update ctx req st).2)
    ∧ Server.getProduct ctx req' (update ctx req st).2
      = (json 200 (ProductJson p), (update ctx req st).2)
    ∧ (∀ id, id ≠ paramId req →
         lookupDoc id (update ctx req st).2 = lookupDoc id st)
    ∧ length (update ctx req st).2 = length st.
Proof.
  intros Hid update Hu Hr.
  assert (∃ o, lookupDoc (paramId req) st = Some o
               ∧ isObjectId (paramId req) = true
               ∧ (update ctx req st).2 = replaceDoc p st
               ∧ _id p = paramId req) as (o & Ho & Hoid & Hst & Hp).
  { apply elem_of_cons in Hu as [->|Hu];
      [|apply list_elem_of_singleton in Hu as ->].
    - destruct (controller_update_result ctx req st)
        as [[_ Hno]|(o & q & Ho & Hoid & Hq & Hqid & _)];
        [by destruct (Hno p)|].
      rewrite Hq in Hr. simpl in Hr. injection Hr as ->.
      exists o. by rewrite Hq.
    - destruct (server_update_result ctx req st)
        as [[_ Hno]|(o & q & Ho & Hoid & Hq & Hqid & _)];
        [by destruct (Hno p)|].
      rewrite Hq in Hr. simpl in Hr. injection Hr as ->.
      exists o. by rewrite Hq. }
  rewrite Hst. split; [done|].
  assert (lookupDoc (paramId req) (replaceDoc p st) = Some p) as Hl.
  { rewrite <- Hp. apply (lookupDoc_replace _ _ o). by rewrite Hp. }
  unfold Controller.getProductById, Server.getProduct, findById.
  rewrite Hid, Hoid, Hl. split; [done|]. split; [done|]. split.
  - intros id Hne. apply lookupDoc_replace_ne. congruence.
  - assert (length (ids (replaceDoc p st)) = length (ids st)) as H
      by by rewrite ids_replaceDoc.
    unfold ids in H. by rewrite !length_fmap in H.
Qed.

Lemma update_then_lookup_witness :
  let req := putReq "65f000000000000000000002" {[ "price" := VNum (ofZ 25) ]} in
  let p := {| _id := "65f000000000000000000002"; name := "Shirt";
              description := "Cotton"; price := ofZ 25;
              category := "clothing"; inStock := Some false;
              createdAt := 2000; updatedAt := 5000 |} in
  _id p = paramId req
  ∧ Controller.getProductById exCtx req
      (Controller.updateProduct exCtx req exStore).2
    = (json 200 (ProductJson p), (Controller.updateProduct exCtx req exStore).2).
Proof.
  intros req p.
  destruct (update_then_lookup exCtx req req exStore p)
    with (update := Controller.updateProduct) as (H1 & H2 & _).
  - reflexivity.
  - apply elem_of_cons. left. reflexivity.
  - apply (bool_decide_unpack _). vm_compute. exact I.
  - split; [exact H1|exact H2].
Defined.

(** X10.  Delete of a well-formed id, in the controller and in the server
    script: when no document has the id the answer is 404 and the store
    is left as it was; when one has, the answer is 200 from the
    controller and 204 from the server script, exactly one document is
    removed, every other id finds what it found before, and with distinct
    ids the deleted id finds nothing afterwards. *)
Theorem delete_removes_one `{R : Runtime} (ctx : Ctx) (req : Request)
    (st : Store) :
  isObjectId (paramId req) = true →
  ∀ delete code,
    (delete, code) ∈ [(Controller.deleteProduct, 200);
                      (Server.deleteProduct, 204)] →
    (lookupDoc (paramId req) st = None →
     failsWith 404 (delete ctx req st).1 ∧ (delete ctx req st).2 = st)
    ∧ (is_Some (lookupDoc (paramId req) st) →
       (∃ r, (delete ctx req st).1 = Send r ∧ status r = code)
       ∧ (delete ctx req st).2 = removeDoc (paramId req) st
       ∧ S (length (delete ctx req st).2) = length st
       ∧ (∀ id, id ≠ paramId req →
            lookupDoc id (delete ctx req st).2 = lookupDoc id st)
       ∧ (NoDup (ids st) →
          lookupDoc (paramId req) (delete ctx req st).2 = None)).
Proof.
  intros Hid delete code Hd.
  pose proof (controller_delete ctx req st Hid) as Hc.
  pose proof (server_delete ctx req st Hid) as Hs.
  assert (delete = Controller.deleteProduct ∧ code = 200
          ∨ delete = Server.deleteProduct ∧ code = 204) as Hd'.
  { apply elem_of_cons in Hd as [[= -> ->]|Hd]; [by left|].
    apply list_elem_of_singleton in Hd as [= -> ->]. by right. }
  clear Hd.
  destruct (lookupDoc (paramId req) st) as [p|] eqn:Hp.
  - split; [done|]. intros _.
    assert ((delete ctx req st).2 = removeDoc (paramId req) st) as Hst.
    { by destruct Hd' as [[-> _]|[-> _]]; [rewrite Hc|rewrite Hs]. }
    split; [destruct Hd' as [[-> ->]|[-> ->]]; [rewrite Hc|rewrite Hs]; eauto|].
    rewrite Hst. split; [done|].
    split; [by eapply removeDoc_length|].
    split; [intros; by apply lookupDoc_remove_ne|apply removeDoc_gone].
  - split; [|by intros [? ?]]. intros _.
    by destruct Hd' as [[-> _]|[-> _]]; [rewrite Hc|rewrite Hs].
Qed.

Lemma delete_removes_one_witness :
  let req := deleteReq "65f000000000000000000002" in
  (Server.deleteProduct exCtx req exStore).2 = removeDoc (paramId req) exStore
  ∧ S (length (Server.deleteProduct exCtx req exStore).2) = length exStore.
Proof.
  intros req.
  destruct (delete_removes_one exCtx req exStore) with
    (delete := Server.deleteProduct) (code := 204) as [_ H].
  - reflexivity.
  - apply elem_of_cons. right. apply elem_of_cons. left. reflexivity.
  - destruct H as (_ & H1 & H2 & _).
    + eexists. reflexivity.
    + split; [exact H1|exact H2].
Defined.

(** ** Lists: the window of a page, the order, the filters *)

Lemma qz_sub a b : (qz a - qz b)%Qc = qz (a - b).
Proof.
  apply Qc_is_canon. unfold qz, Qcminus, Qcplus, Qcopp. simpl.
  rewrite !Qred_correct. unfold Qeq. simpl. lia.
Qed.

Lemma qz_mul a b : (qz a * qz b)%Qc = qz (a * b).
Proof.
  apply Qc_is_canon. unfold qz, Qcmult. simpl.
  rewrite !Qred_correct. unfold Qeq. simpl. lia.
Qed.

Lemma Qred_inject z : Qred (inject_Z z) = inject_Z z.
Proof.
  unfold Qred, inject_Z.
  pose proof (Z.ggcd_gcd z 1) as Hg.
  pose proof (Z.ggcd_correct_divisors z 1) as Hd.
  destruct (Z.ggcd z 1) as [g [r1 r2]]. simpl in *.
  rewrite Z.gcd_1_r in Hg. subst g. destruct Hd as [-> Hr2].
  assert (r2 = 1) as -> by lia.
  f_equal. lia.
Qed.

Lemma num_to_nat_ofZ (n : nat) : num_to_nat (ofZ (Z.of_nat n)) = Some n.
Proof.
  unfold num_to_nat, ofZ. simpl. rewrite Qred_inject. simpl.
  rewrite decide_True by (split; [done|lia]). by rewrite Nat2Z.id.
Qed.

(** The skip of page [pg] with [lim] items a page. *)
Lemma skip_of_page (pg lim : nat) :
  (1 ≤ pg)%nat →
  num_mul (num_sub (ofZ (Z.of_nat pg)) (ofZ 1)) (ofZ (Z.of_nat lim))
  = ofZ (Z.of_nat ((pg - 1) * lim)).
Proof.
  intros Hpg. unfold num_mul, num_sub, ofZ. fold (qz (Z.of_nat pg)).
  fold (qz 1). fold (qz (Z.of_nat lim)). rewrite qz_sub, qz_mul.
  unfold qz. do 3 f_equal.
  replace (Z.of_nat pg - 1) with (Z.of_nat (pg - 1)) by lia.
  by rewrite Nat2Z.inj_mul.
Qed.

Lemma limit_times_one (lim : nat) :
  num_mul (ofZ (Z.of_nat lim)) (ofZ 1) = ofZ (Z.of_nat lim).
Proof.
  unfold num_mul, ofZ. fold (qz (Z.of_nat lim)). fold (qz 1).
  rewrite qz_mul. unfold qz. do 3 f_equal. lia.
Qed.

Lemma window_page (pg lim : nat) docs :
  (1 ≤ pg)%nat → (1 ≤ lim)%nat →
  window (num_mul (num_sub (ofZ (Z.of_nat pg)) (ofZ 1)) (ofZ (Z.of_nat lim)))
    (ofZ (Z.of_nat lim)) docs
  = Ok (take lim (drop ((pg - 1) * lim) docs)).
Proof.
  intros Hpg Hlim. rewrite skip_of_page by done. unfold window.
  rewrite !num_to_nat_ofZ. rewrite decide_False by lia. done.
Qed.

Lemma page_lookup (pg lim j : nat) (docs : list Product) :
  (j < lim)%nat →
  take lim (drop ((pg - 1) * lim) docs) !! j
  = docs !! ((pg - 1) * lim + j)%nat.
Proof. intros Hj. rewrite lookup_take_lt by done. by rewrite lookup_drop. Qed.

(** Sortedness of a window. *)
Lemma Sorted_drop {A} (R : relation A) n l : Sorted R l → Sorted R (drop n l).
Proof.
  revert l. induction n as [|n IH]; intros l Hl; [done|].
  destruct l as [|x l]; [done|]. simpl. apply IH. by inversion Hl.
Qed.

Lemma Sorted_take {A} (R : relation A) n l : Sorted R l → Sorted R (take n l).
Proof.
  revert l. induction n as [|n IH]; intros l Hl; [constructor|].
  destruct l as [|x l]; [done|]. simpl. inversion Hl as [|?? Hs Hh]; subst.
  constructor; [by apply IH|].
  destruct Hh; destruct n; simpl; by constructor.
Qed.

Lemma Sorted_weaken {A} (R1 R2 : relation A) l :
  (∀ x y, R1 x y → R2 x y) → Sorted R1 l → Sorted R2 l.
Proof.
  intros H. induction 1 as [|x l Hl IH Hx]; constructor; [done|].
  destruct Hx; constructor; auto.
Qed.

Lemma StronglySorted_lookup {A} (R : relation A) l i j a b :
  StronglySorted R l → (i < j)%nat →
  l !! i = Some a → l !! j = Some b → R a b.
Proof.
  intros Hl. revert i j. induction Hl as [|x l Hl IH Hx]; intros i j Hij Hi Hj;
    [done|].
  destruct j as [|j]; [lia|]. simpl in Hj. destruct i as [|i].
  - simpl in Hi. injection Hi as ->.
    rewrite Forall_forall in Hx. apply Hx. by eapply list_elem_of_lookup_2.
  - simpl in Hi. apply (IH i j); [lia|done..].
Qed.

(** The order of the sort specification is total. *)
Lemma numCmp_antisym a b : numCmp b a = CompOpp (numCmp a b).
Proof.
  unfold numCmp.
  destruct a as [x| | |], b as [y| | |]; simpl; try done.
  repeat case_bool_decide; try done.
  exfalso. eapply Qclt_not_le; [done|]. by apply Qclt_le_weak.
Qed.

Lemma stockCmp_antisym a b : stockCmp b a = CompOpp (stockCmp a b).
Proof. by destruct a as [[]|], b as [[]|]. Qed.

Lemma fieldCmp_antisym f a b : fieldCmp f b a = CompOpp (fieldCmp f a b).
Proof.
  unfold fieldCmp.
  repeat case_decide;
    auto using String.compare_antisym, numCmp_antisym, stockCmp_antisym,
      Z.compare_antisym.
Qed.

Lemma sortCmp_antisym spec a b : sortCmp spec b a = CompOpp (sortCmp spec a b).
Proof.
  induction spec as [|[f asc] spec IH]; [done|]. simpl.
  destruct asc.
  - rewrite (fieldCmp_antisym f a b). by destruct (fieldCmp f a b).
  - rewrite (fieldCmp_antisym f b a). by destruct (fieldCmp f b a).
Qed.

Lemma sortLe_total spec : Total (sortLe spec).
Proof.
  intros a b. unfold sortLe. rewrite (sortCmp_antisym spec a b).
  destruct (sortCmp spec a b); simpl; auto.
Qed.

Lemma window_sorted (R : relation Product) skip limit docs items :
  Sorted R docs → window skip limit docs = Ok items → Sorted R items.
Proof.
  unfold window. intros Hd.
  destruct (num_to_nat skip) as [s|]; [|done].
  destruct (num_to_nat limit) as [l|]; [|done].
  intros [= <-]. case_decide; auto using Sorted_drop, Sorted_take.
Qed.

Section Lists.
Context `{R : Runtime}.

(** The items of a list response are a window of the selection. *)
Lemma controller_items ctx req st items :
  returnedItems (Controller.getProducts ctx req st).1 = Some items →
  ∃ skip limit,
    window skip limit (selection ctx productSchema (Controller.buildQuery req)
                         req st) = Ok items.
Proof.
  unfold Controller.getProducts, countDocuments, findPage, selectDocs.
  destruct (queryError _); [done|].
  destruct (window _ _ _) as [w|] eqn:Hw; [|done].
  simpl. intros [= <-]. eauto.
Qed.

Lemma server_items ctx req st items :
  returnedItems (Server.listProducts ctx req st).1 = Some items →
  ∃ skip limit,
    window skip limit (selection ctx Server.productSchema (Server.buildQuery req)
                         req st) = Ok items.
Proof.
  unfold Server.listProducts, countDocuments, findPage, selectDocs.
  destruct (queryError _); [done|].
  destruct (window _ _ _) as [w|] eqn:Hw; [|done].
  simpl. intros [= <-]. eauto.
Qed.

Lemma selection_elem ctx sch q req st p :
  p ∈ selection ctx sch q req st ↔ p ∈ st ∧ matches sch q p = true.
Proof.
  unfold selection. rewrite sortDocs_perm.
  rewrite list_elem_of_In, filter_In. by rewrite list_elem_of_In.
Qed.

Lemma selection_length ctx sch q req st :
  length (selection ctx sch q req st) = length (List.filter (matches sch q) st).
Proof.
  unfold selection. by rewrite sortDocs_perm.
Qed.

Lemma selection_sorted ctx sch q req st :
  Sorted (sortLe (parseSort (default "-createdAt" (query req !! "sort"))))
    (selection ctx sch q req st).
Proof.
  unfold selection, sortDocs.
  apply (@Sorted_merge_sort _ _ _ (sortLe_total _)).
Qed.

(** The conditions of the two filters, parameter by parameter. *)
Lemma whenPresent_Some v s : whenPresent v = Some s ↔ v = Some s ∧ s ≠ "".
Proof.
  unfold whenPresent, present, str_truthy. destruct v as [s'|].
  - case_bool_decide; split.
    + by intros [= ->].
    + by intros [[= ->] ?].
    + done.
    + by intros [[= ->] ?].
  - split; [done|]. by intros [? _].
Qed.

Lemma whenPresent_None v : whenPresent v = None ↔ ∀ s, v = Some s → s = "".
Proof.
  unfold whenPresent, present, str_truthy. destruct v as [s'|].
  - case_bool_decide as H; split; try done.
    + intros Hs. destruct H. by apply Hs.
    + by intros _ s [= <-].
  - split; done.
Qed.

Lemma stockCond_spec v p :
  from_option (λ b, bool_decide (inStock p = Some b)) true (stockCond v) = true
  ↔ (v = Some "true" → inStock p = Some true)
    ∧ (v = Some "false" → inStock p = Some false).
Proof.
  unfold stockCond. case_bool_decide as Hv.
  - simpl. rewrite bool_decide_eq_true. destruct Hv as [-> | ->].
    + rewrite bool_decide_eq_true_2 by done. split; [by split|].
      intros [H _]. by apply H.
    + rewrite bool_decide_eq_false_2 by done. split; [by split|].
      intros [_ H]. by apply H.
  - simpl. split; [|done]. intros _. split; intros ->; destruct Hv; auto.
Qed.

Lemma controller_matches req p :
  matches productSchema (Controller.buildQuery req) p = true ↔ meets req p.
Proof.
  unfold matches, meets, Controller.buildQuery.
  cbn [qName qPrice qCategory qInStock qOr from_option].
  rewrite andb_true_r, !andb_true_iff, stockCond_spec.
  set (nm := query req !! "name"). set (lo := query req !! "minPrice").
  set (hi := query req !! "maxPrice"). set (ct := query req !! "category").
  assert (from_option (λ pat, regexTest pat (name p)) true (whenPresent nm)
          = true
          ↔ ∀ n, nm = Some n → n ≠ "" → regexTest n (name p) = true) as ->.
  { destruct (whenPresent nm) as [s|] eqn:Hs; simpl.
    - apply whenPresent_Some in Hs as [-> Hne]. split.
      + by intros ? ? [= <-].
      + intros H. by apply H.
    - split; [|done]. intros _ n Hn Hne.
      destruct Hne. by eapply whenPresent_None. }
  assert (from_option
            (λ b : option num * option num,
               from_option (λ lo, num_leb lo (price p)) true b.1
               && from_option (λ hi, num_leb (price p) hi) true b.2) true
            (if present lo || present hi
             then Some (toNumber <$> whenPresent lo,
                        toNumber <$> whenPresent hi)
             else None) = true
          ↔ (∀ s, lo = Some s → s ≠ "" →
               num_leb (toNumber s) (price p) = true)
            ∧ (∀ s, hi = Some s → s ≠ "" →
                 num_leb (price p) (toNumber s) = true)) as ->.
  { assert (∀ v, present v = false → ∀ s, v = Some s → s = "") as Hno.
    { intros v Hv s ->. unfold present, str_truthy in Hv.
      apply bool_decide_eq_false in Hv. by apply dec_stable. }
    assert (∀ v (f : num → bool),
              from_option f true (toNumber <$> whenPresent v) = true
              ↔ ∀ s, v = Some s → s ≠ "" → f (toNumber s) = true) as Hb.
    { intros v f. destruct (whenPresent v) as [s|] eqn:Hs; simpl.
      - apply whenPresent_Some in Hs as [-> Hne]. split.
        + by intros ? ? [= <-].
        + intros H. by apply H.
      - split; [|done]. intros _ n Hn Hne.
        destruct Hne. by eapply whenPresent_None. }
    destruct (present lo || present hi) eqn:Hp; simpl.
    - by rewrite andb_true_iff, !Hb.
    - apply orb_false_iff in Hp as [Hlo Hhi]. split; [|done]. intros _.
      split; intros s Hs Hne; destruct Hne; eauto. }
  assert (from_option (λ c, matchesCategory productSchema c p) true
            ((λ c, CatIn (split "," c)) <$> whenPresent ct) = true
          ↔ ∀ c, ct = Some c → c ≠ "" →
              category p ∈ toLowerCase <$> split "," c) as ->.
  { destruct (whenPresent ct) as [s|] eqn:Hs; simpl.
    - apply whenPresent_Some in Hs as [-> Hne].
      rewrite bool_decide_eq_true. split.
      + by intros ? ? [= <-].
      + intros H. by apply H.
    - split; [|done]. intros _ n Hn Hne.
      destruct Hne. by eapply whenPresent_None. }
  tauto.
Qed.

Lemma server_matches req p :
  matches Server.productSchema (Server.buildQuery req) p = true
  ↔ serverMeets req p.
Proof.
  unfold matches, serverMeets, Server.buildQuery.
  cbn [qName qPrice qCategory qInStock qOr from_option].
  rewrite !andb_true_iff, stockCond_spec.
  set (ct := query req !! "category"). set (se := query req !! "search").
  assert (from_option (λ c, matchesCategory Server.productSchema c p) true
            (CatIs <$> whenPresent ct) = true
          ↔ ∀ c, ct = Some c → c ≠ "" → category p = toLowerCase c) as ->.
  { destruct (whenPresent ct) as [s|] eqn:Hs; simpl.
    - apply whenPresent_Some in Hs as [-> Hne].
      rewrite bool_decide_eq_true. split.
      + by intros ? ? [= <-].
      + intros H. by apply H.
    - split; [|done]. intros _ n Hn Hne.
      destruct Hne. by eapply whenPresent_None. }
  assert (from_option
            (λ pat, regexTest pat (name p) || regexTest pat (description p))
            true (whenPresent se) = true
          ↔ ∀ s, se = Some s → s ≠ "" →
              regexTest s (name p) = true
              ∨ regexTest s (description p) = true) as ->.
  { destruct (whenPresent se) as [s|] eqn:Hs; simpl.
    - apply whenPresent_Some in Hs as [-> Hne].
      rewrite orb_true_iff. split.
      + by intros ? ? [= <-].
      + intros H. by apply H.
    - split; [|done]. intros _ n Hn Hne.
      destruct Hne. by eapply whenPresent_None. }
  tauto.
Qed.

End Lists.

(** X11.  The window of a page, request by request.  For a page number
    [pg >= 1] and a limit [lim >= 1] and a filter the store accepts, the
    list of the controller and the list of the server script answer 200
    with the items [(pg - 1) * lim .. pg * lim - 1] of the documents that
    this request selects, in the order in which the store returns them
    for this request: never more than [lim] items, the count of the
    controller's response is their number, and [total] is the number of
    selected documents.  The order among documents that tie on the sort
    key is the store's choice for each request, so nothing is said about
    the pages of two requests taken together. *)
Theorem list_page_window `{R : Runtime} (ctx : Ctx) (req : Request)
    (st : Store) (pg lim : nat) :
  numParam 1 (query req !! "page") = ofZ (Z.of_nat pg) →
  numParam 10 (query req !! "limit") = ofZ (Z.of_nat lim) →
  (1 ≤ pg)%nat → (1 ≤ lim)%nat →
  (queryError (Controller.buildQuery req) = None →
   let docs := selection ctx productSchema (Controller.buildQuery req) req st in
   let items := take lim (drop ((pg - 1) * lim) docs) in
   (∃ tp hn hp,
      Controller.getProducts ctx req st
      = (json 200 (ListJson (length items) (Z.of_nat (length docs))
                     (ofZ (Z.of_nat pg)) tp hn hp items), st))
   ∧ (length items ≤ lim)%nat
   ∧ ∀ j, (j < lim)%nat → items !! j = docs !! ((pg - 1) * lim + j)%nat)
  ∧ (queryError (Server.buildQuery req) = None →
     let docs :=
       selection ctx Server.productSchema (Server.buildQuery req) req st in
     let items := take lim (drop ((pg - 1) * lim) docs) in
     (∃ tp cur,
        Server.listProducts ctx req st
        = (json 200 (PageJson (Z.of_nat (length docs)) tp cur items), st))
     ∧ (length items ≤ lim)%nat
     ∧ ∀ j, (j < lim)%nat → items !! j = docs !! ((pg - 1) * lim + j)%nat).
Proof.
  intros Hpage Hlimit Hpg Hlim. split; intros Hq docs items.
  - split; [|split; [subst items; rewrite length_take; lia
                    |intros j Hj; by apply page_lookup]].
    unfold Controller.getProducts, countDocuments, findPage, selectDocs.
    rewrite Hq, Hpage, Hlimit.
    fold (selection ctx productSchema (Controller.buildQuery req) req st).
    fold docs. rewrite window_page by done. fold items.
    rewrite <- (selection_length ctx _ _ req). fold docs. by eexists _, _, _.
  - split; [|split; [subst items; rewrite length_take; lia
                    |intros j Hj; by apply page_lookup]].
    unfold Server.listProducts, countDocuments, findPage, selectDocs.
    rewrite Hq, Hpage, Hlimit, limit_times_one.
    fold (selection ctx Server.productSchema (Server.buildQuery req) req st).
    fold docs. rewrite window_page by done. fold items.
    rewrite <- (selection_length ctx _ _ req). fold docs. by eexists _, _.
Qed.

Lemma list_page_window_witness :
  let req := getReq ["api"; "products"]
               {[ "page" := "2"; "limit" := "2"; "sort" := "price" ]} in
  let docs :=
    selection exCtx productSchema (Controller.buildQuery req) req exStore in
  let items := take 2 (drop ((2 - 1) * 2) docs) in
  (∃ tp hn hp,
     Controller.getProducts exCtx req exStore
     = (json 200 (ListJson (length items) (Z.of_nat (length docs))
                    (ofZ (Z.of_nat 2)) tp hn hp items), exStore))
  ∧ (length items ≤ 2)%nat
  ∧ items = [laptop].
Proof.
  intros req docs items.
  destruct (list_page_window exCtx req exStore 2 2) as [H _].
  - apply (bool_decide_unpack _). vm_compute. exact I.
  - apply (bool_decide_unpack _). vm_compute. exact I.
  - lia.
  - lia.
  - destruct H as (H1 & H2 & _); [reflexivity|].
    split; [exact H1|]. split; [exact H2|].
    apply (bool_decide_unpack _). vm_compute. exact I.
Defined.

(** X12.  The items of every list response, of the controller and of the
    server script, are in the order of the sort parameter: each item
    precedes the next one in the order of the specification.  Without a
    sort parameter the order is by creation time, newest first. *)
Theorem list_sorted `{R : Runtime} (ctx : Ctx) (req : Request) (st : Store)
    (items : list Product) :
  ∀ list, list ∈ [Controller.getProducts; Server.listProducts] →
    returnedItems (list ctx req st).1 = Some items →
    Sorted (sortLe (parseSort (default "-createdAt" (query req !! "sort"))))
      items
    ∧ (query req !! "sort" = None →
       ∀ i j a b, (i < j)%nat → items !! i = Some a → items !! j = Some b →
                  createdAt b ≤ createdAt a).
Proof.
  intros list Hl Hi.
  assert (∃ sch q skip limit,
            window skip limit (selection ctx sch q req st) = Ok items)
    as (sch & q & skip & limit & Hw).
  { apply elem_of_cons in Hl as [->|Hl];
      [|apply list_elem_of_singleton in Hl as ->].
    - apply controller_items in Hi as (? & ? & ?). eauto.
    - apply server_items in Hi as (? & ? & ?). eauto. }
  assert (Sorted
            (sortLe (parseSort (default "-createdAt" (query req !! "sort"))))
            items) as Hs.
  { eapply window_sorted; [apply selection_sorted|done]. }
  split; [done|]. intros Hnone i j a b Hij Ha Hb.
  rewrite Hnone in Hs. simpl default in Hs.
  change (parseSort "-createdAt") with [("createdAt", false)] in Hs.
  assert (Sorted (λ x y, createdAt y ≤ createdAt x) items) as Hs'.
  { eapply Sorted_weaken; [|done].
    intros x y Hxy. apply Z.compare_le_iff. intros Hgt. apply Hxy.
    change (match createdAt y ?= createdAt x with
            | Eq => Eq
            | c => c
            end = Gt).
    by rewrite Hgt. }
  apply Sorted_StronglySorted in Hs'; [|intros x y z ??; lia].
  by eapply (StronglySorted_lookup _ _ i j a b) in Hs'.
Qed.

Lemma list_sorted_witness :
  let req := getReq ["api"; "products"] ∅ in
  Sorted (sortLe (parseSort "-createdAt")) [kettle; shirt; laptop]
  ∧ createdAt laptop ≤ createdAt kettle.
Proof.
  intros req.
  destruct (list_sorted exCtx req exStore [kettle; shirt; laptop]
              Controller.getProducts) as [H1 H2].
  - apply elem_of_cons. left. reflexivity.
  - apply (bool_decide_unpack _). vm_compute. exact I.
  - split; [exact H1|].
    apply (H2 eq_refl 0%nat 2%nat kettle laptop); [lia|reflexivity..].
Defined.

(** X13.  What the filters of a list select.  In the controller a product
    passes the filter exactly when it meets every condition that a
    non-empty query parameter states: the name pattern, the inclusive
    price bounds, one of the comma-separated categories, and the stock
    flag, which counts only as the literal [true] or [false].  In the
    server script the conditions are the category as one value, the stock
    flag, and the search pattern on the name or the description.  Every
    item of a list response is a document of the store that meets the
    conditions. *)
Theorem list_filters `{R : Runtime} (ctx : Ctx) (req : Request) (st : Store) :
  (∀ p, matches productSchema (Controller.buildQuery req) p = true
        ↔ meets req p)
  ∧ (∀ p, matches Server.productSchema (Server.buildQuery req) p = true
          ↔ serverMeets req p)
  ∧ (∀ items p,
       returnedItems (Controller.getProducts ctx req st).1 = Some items →
       p ∈ items → p ∈ st ∧ meets req p)
  ∧ (∀ items p,
       returnedItems (Server.listProducts ctx req st).1 = Some items →
       p ∈ items → p ∈ st ∧ serverMeets req p).
Proof.
  split; [apply controller_matches|]. split; [apply server_matches|].
  split; intros items p Hi Hp.
  - apply controller_items in Hi as (skip & limit & Hw).
    apply (window_sub _ _ _ _ _ Hw), selection_elem in Hp as [Hp Hm].
    split; [done|]. by apply controller_matches.
  - apply server_items in Hi as (skip & limit & Hw).
    apply (window_sub _ _ _ _ _ Hw), selection_elem in Hp as [Hp Hm].
    split; [done|]. by apply server_matches.
Qed.

Lemma list_filters_witness :
  let req := getReq ["api"; "products"]
               {[ "minPrice" := "30"; "inStock" := "yes" ]} in
  kettle ∈ exStore ∧ meets req kettle.
Proof.
  intros req.
  destruct (list_filters exCtx req exStore) as (_ & _ & H & _).
  apply (H [kettle; laptop] kettle).
  - apply (bool_decide_unpack _). vm_compute. exact I.
  - apply elem_of_cons. left. reflexivity.
Defined.

(** ** The two gates *)

(** X14.  Who passes.  The middleware gate lets a request through exactly
    when its credential, the [x-api-key] header or else the [apiKey]
    query parameter, is non-empty and equal to the configured secret; a
    non-empty header is the credential whatever the query says.  The
    inline gate of the server script lets a request through exactly when
    the header itself is non-empty and equal to the secret: a secret
    sent only in the query string passes the middleware gate and is
    refused by the inline gate. *)
Theorem gate_admits `{R : Runtime} (ctx : Ctx) (req : Request) (st : Store) :
  (Middleware.authenticate ctx req st = (Next, st)
   ↔ present (credential req) = true ∧ credential req = env ctx !! "API_KEY")
  ∧ (Server.authenticate ctx req st = (Next, st) ↔ authorized ctx req)
  ∧ (present (headers req !! "x-api-key") = true →
     credential req = headers req !! "x-api-key")
  ∧ (headers req !! "x-api-key" = None →
     present (query req !! "apiKey") = true →
     query req !! "apiKey" = env ctx !! "API_KEY" →
     Middleware.authenticate ctx req st = (Next, st)
     ∧ Server.authenticate ctx req st
       = (json 401 (MessageJson "Invalid or missing API key" None), st)).
Proof.
  assert (Middleware.authenticate ctx req st = (Next, st)
          ↔ present (credential req) = true
            ∧ credential req = env ctx !! "API_KEY") as Hm.
  { unfold Middleware.authenticate. fold (credential req).
    destruct (present (credential req)); simpl.
    - case_bool_decide as Hk; [split; [done|by intros [_ ?]]|done].
    - split; [done|]. by intros [? _]. }
  split; [done|]. split; [|split].
  - unfold Server.authenticate, authorized.
    destruct (present (headers req !! "x-api-key")); simpl.
    + case_bool_decide as Hk; [split; [done|by intros [_ ?]]|done].
    + split; [done|]. by intros [? _].
  - unfold credential. by intros ->.
  - intros Hh Hq Hk.
    assert (credential req = query req !! "apiKey") as Hc.
    { unfold credential. by rewrite Hh. }
    split; [apply Hm; by rewrite Hc|].
    apply inline_gate. left. by rewrite Hh.
Qed.

Lemma gate_admits_witness :
  let req := {| method := POST; path := ["api"; "products"]; headers := ∅;
                query := {[ "apiKey" := "s3cret" ]}; params := ∅;
                reqBody := laptopBody |} in
  Middleware.authenticate exCtx req exStore = (Next, exStore)
  ∧ Server.authenticate exCtx req exStore
    = (json 401 (MessageJson "Invalid or missing API key" None), exStore).
Proof.
  intros req.
  destruct (gate_admits exCtx req exStore) as (_ & _ & _ & H).
  apply H; reflexivity.
Defined.

(** ** The order of the routes *)

(** X15.  The statistics routes.  The server script registers
    [/api/products/:id] before [/api/products/statistics], so a
    statistics request is answered by the lookup with the id
    [statistics], which the store refuses: status 500, whatever the
    store holds.  The router registers [/stats] before [/:id], and a
    request for [/stats] is answered by the statistics handler with
    status 200. *)
Theorem stats_route_order `{R : Runtime} (ctx : Ctx)
    (qs : gmap string string) (st : Store) :
  isObjectId "statistics" = false →
  (Server.app ctx (getReq ["api"; "products"; "statistics"] qs) st
   = (Server.errorHandler ctx (CastError "_id"), st)
   ∧ status (Server.app ctx
               (getReq ["api"; "products"; "statistics"] qs) st).1 = 500)
  ∧ dispatch Controller.router ctx (getReq ["stats"] qs) st
    = Controller.getProductStats ctx (getReq ["stats"] qs) st
  ∧ ∃ rows, statsRows (dispatch Controller.router ctx
                         (getReq ["stats"] qs) st).1 = Some rows.
Proof.
  intros H. split.
  - unfold getReq. rewrite get_by_id_route by done.
    unfold findById. by rewrite H.
  - assert (dispatch Controller.router ctx (getReq ["stats"] qs) st
            = Controller.getProductStats ctx (getReq ["stats"] qs) st) as ->.
    { unfold Controller.router, getReq.
      cbn [dispatch r_method r_path r_chain method path matchPath].
      rewrite !decide_True by done. cbn [runChain].
      unfold Controller.getProductStats.
      by destruct (countDocuments _ _ _). }
    split; [done|]. unfold Controller.getProductStats.
    destruct (count_inStock productSchema st) as [n ->]. by eexists.
Qed.

Lemma stats_route_order_witness :
  status (Server.app exCtx
            (getReq ["api"; "products"; "statistics"] ∅) exStore).1 = 500
  ∧ dispatch Controller.router exCtx (getReq ["stats"] ∅) exStore
    = Controller.getProductStats exCtx (getReq ["stats"] ∅) exStore.
Proof.
  destruct (stats_route_order exCtx ∅ exStore) as ((_ & H1) & H2 & _).
  - reflexivity.
  - split; [exact H1|exact H2].
Defined.

(** ** The rows of the statistics *)
















(** ** The validation middleware in front of create and update *)

Ltac listed :=
  repeat first [apply elem_of_cons; left; reflexivity
               |apply elem_of_cons; right].

Section Validation.
Context `{R : Runtime}.

Lemma inline_pass ctx req st :
  authorized ctx req → Server.authenticate ctx req st = (Next, st).
Proof.
  intros [Hp Hk]. unfold Server.authenticate. rewrite Hp. simpl.
  by rewrite bool_decide_eq_false_2 by (by intros ?).
Qed.

(** The middleware passes a body that meets every check and answers 400
    with one entry for every failed check otherwise. *)
Lemma validate_outcome ctx req st :
  let b := reqBody req in
  (Server.validateProduct ctx req st = (Next, st) ∧ checked b)
  ∨ ∃ errs,
      Server.validateProduct ctx req st = (json 400 (ErrorsJson errs), st)
      ∧ ¬ checked b ∧ errs ≠ []
      ∧ (notEmpty (b !! "name") = false →
         ("name", "Name is required") ∈ errs)
      ∧ (notEmpty (b !! "description") = false →
         ("description", "Description is required") ∈ errs)
      ∧ (isNumeric (b !! "price") = false →
         ("price", "Price must be a number") ∈ errs)
      ∧ (notEmpty (b !! "category") = false →
         ("category", "Category is required") ∈ errs)
      ∧ (defined (b !! "inStock") = true →
         isBoolean (b !! "inStock") = false →
         ("inStock", "inStock must be a boolean") ∈ errs).
Proof.
  intros b. unfold Server.validateProduct, checked. fold b.
  destruct (notEmpty (b !! "name")), (notEmpty (b !! "description")),
    (isNumeric (b !! "price")), (notEmpty (b !! "category")),
    (defined (b !! "inStock")), (isBoolean (b !! "inStock")); simpl;
    first [by left; repeat split
          |right; eexists; split; [reflexivity|];
           split; [by intros (? & ? & ? & ? & H); try done; specialize (H eq_refl)|];
           split; [done|];
           repeat split; intros; try done; listed].
Qed.

Lemma validateProduct_body ctx req ps st :
  Server.validateProduct ctx (withParams req ps) st
  = Server.validateProduct ctx req st.
Proof. done. Qed.

(** The create and update routes with the secret: the gate passes and
    the validation middleware runs next. *)
Lemma checked_route ctx req st errs :
  mutating req → method req ≠ DELETE → authorized ctx req →
  Server.validateProduct ctx req st = (json 400 (ErrorsJson errs), st) →
  Server.app ctx req st = ({| status := 400; body := ErrorsJson errs |}, st).
Proof.
  intros Hm Hd Ha Hv. unfold Server.app, Server.routes.
  destruct Hm as [[Hmeth [ps Hps]]|[[Hmeth|Hmeth] [ps Hps]]]; [| |done].
  - cbn [dispatch r_method r_path r_chain]. rewrite Hmeth.
    repeat (rewrite decide_False by done).
    rewrite decide_True by done. rewrite Hps.
    cbn [runChain]. rewrite inline_pass by done.
    by rewrite validateProduct_body, Hv.
  - cbn [dispatch r_method r_path r_chain]. rewrite Hmeth.
    repeat (rewrite decide_False by done).
    rewrite decide_True by done. rewrite Hps.
    cbn [runChain]. rewrite inline_pass by done.
    by rewrite validateProduct_body, Hv.
Qed.

End Validation.

(** X17.  The validation middleware of the server script passes a body
    exactly when it meets every check.  On the create and the update
    route, a request with the secret whose body fails a check is
    answered 400 with a list of field errors that has an entry for every
    failed check, and the store is left as it was: the handler does not
    run, so an update through the server script needs the complete body
    of a create. *)
Theorem invalid_body_rejected `{R : Runtime} (ctx : Ctx) (req : Request)
    (st : Store) :
  let b := reqBody req in
  (Server.validateProduct ctx req st = (Next, st) ↔ checked b)
  ∧ (mutating req → method req ≠ DELETE → authorized ctx req →
     ¬ checked b →
     ∃ errs,
       Server.app ctx req st
       = ({| status := 400; body := ErrorsJson errs |}, st)
       ∧ errs ≠ []
       ∧ (notEmpty (b !! "name") = false →
          ("name", "Name is required") ∈ errs)
       ∧ (notEmpty (b !! "description") = false →
          ("description", "Description is required") ∈ errs)
       ∧ (isNumeric (b !! "price") = false →
          ("price", "Price must be a number") ∈ errs)
       ∧ (notEmpty (b !! "category") = false →
          ("category", "Category is required") ∈ errs)
       ∧ (defined (b !! "inStock") = true →
          isBoolean (b !! "inStock") = false →
          ("inStock", "inStock must be a boolean") ∈ errs)).
Proof.
  intros b. split.
  - destruct (validate_outcome ctx req st) as [[Hv Hc]|(errs & Hv & Hc & _)].
    + by split.
    + split; [|done]. rewrite Hv. by intros [=].
  - intros Hm Hd Ha Hno.
    destruct (validate_outcome ctx req st)
      as [[_ Hc]|(errs & Hv & _ & Hrest)]; [done|].
    exists errs. split; [|exact Hrest].
    by apply checked_route.
Qed.

Lemma invalid_body_rejected_witness :
  let req := putReq "65f000000000000000000002" {[ "price" := VNum (ofZ 25) ]} in
  ∃ errs,
    Server.app exCtx req exStore
    = ({| status := 400; body := ErrorsJson errs |}, exStore)
    ∧ errs ≠ [].
Proof.
  intros req.
  destruct (invalid_body_rejected exCtx req exStore) as [_ H].
  destruct H as (errs & H1 & H2 & _).
  - right. split; [left; reflexivity|]. vm_compute. eexists. reflexivity.
  - discriminate.
  - split; reflexivity.
  - intros (H & _). vm_compute in H. discriminate.
  - exists errs. split; [exact H1|exact H2].
Defined.

(** ** The bounds of the schema on what is stored *)

Section Lengths.
Context `{R : Runtime}.

Lemma validateString_bounds p n msg s :
  s_maxlength p = Some (n, msg) →
  validateString p (Some s) = None →
  (0 < strLength s ≤ n)%nat.
Proof.
  unfold validateString. intros ->. case_decide as H0; [done|].
  case_decide; [lia|]. by destruct (s_enum p) as [[??]|]; [case_bool_decide|].
Qed.

Lemma validateString_required p s :
  validateString p (Some s) = None → (0 < strLength s)%nat.
Proof. unfold validateString. case_decide; [done|lia]. Qed.

Lemma insert_lengths sch ctx d st p st' :
  sch = productSchema ∨ sch = Server.productSchema →
  d_orig d = None →
  save sch ctx d st = Ok (p, st') →
  (0 < strLength (name p) ≤ 100)%nat
  ∧ (0 < strLength (description p) ≤ 1000)%nat
  ∧ (0 < strLength (category p))%nat.
Proof.
  intros Hsch Ho Hs.
  apply save_new in Hs as (_ & _ & Hn & Hd & _ & Hc & _ & Hv); [|done].
  apply validate_nil in Hv as (_ & Hvn & Hvd & _ & Hvc).
  rewrite Hn in Hvn. rewrite Hd in Hvd. rewrite Hc in Hvc.
  split; [|split].
  - eapply validateString_bounds; [|done]. by destruct Hsch as [-> | ->].
  - eapply validateString_bounds; [|done]. by destruct Hsch as [-> | ->].
  - by eapply validateString_required.
Qed.

Lemma insertAs_lengths sch ctx id t d st p st' :
  sch = productSchema ∨ sch = Server.productSchema →
  saveAs sch ctx id t d st = Ok (p, st') →
  (0 < strLength (name p) ≤ 100)%nat
  ∧ (0 < strLength (description p) ≤ 1000)%nat
  ∧ (0 < strLength (category p))%nat.
Proof.
  intros Hsch Hs.
  destruct (saveAs_result sch ctx id t d st)
    as [[errs He]|(q & Hv & Hn & Hd & _ & Hc & _ & _ & _ & _ & Hq)];
    [congruence|].
  destruct Hq as [[_ Hq]|[_ Hq]]; [|congruence].
  rewrite Hq in Hs. injection Hs as -> _.
  apply validate_nil in Hv as (_ & Hvn & Hvd & _ & Hvc).
  rewrite Hn in Hvn. rewrite Hd in Hvd. rewrite Hc in Hvc.
  split; [|split].
  - eapply validateString_bounds; [|done]. by destruct Hsch as [-> | ->].
  - eapply validateString_bounds; [|done]. by destruct Hsch as [-> | ->].
  - by eapply validateString_required.
Qed.

End Lengths.

(** X18.  The product that a successful create stores, in the controller
    and in the server script, has a name of 1 to 100 characters, a
    description of 1 to 1000 characters and a non-empty category, all
    measured after the trimming and lower-casing of the schema. *)
Theorem create_respects_lengths `{R : Runtime} (ctx : Ctx) (req : Request)
    (st : Store) (p : Product) :
  ∀ create, create ∈ [Controller.createProduct; Server.createProduct] →
    (create ctx req st).1 = json 201 (ProductJson p) →
    (0 < strLength (name p) ≤ 100)%nat
    ∧ (0 < strLength (description p) ≤ 1000)%nat
    ∧ (0 < strLength (category p))%nat.
Proof.
  intros create Hc Hr.
  apply elem_of_cons in Hc as [->|Hc];
    [|apply list_elem_of_singleton in Hc as ->].
  - unfold Controller.createProduct in Hr.
    match type of Hr with context [save _ _ ?d _] =>
      destruct (save productSchema ctx d st) as [[q st']|e] eqn:Hs end;
      [|done].
    simpl in Hr. injection Hr as ->.
    eapply insert_lengths; [by left| |done]. by autorewrite with doc.
  - unfold Server.createProduct in Hr.
    match type of Hr with context [saveAs _ _ ?i ?t ?d _] =>
      destruct (saveAs Server.productSchema ctx i t d st)
        as [[q st']|e] eqn:Hs end;
      [|done].
    simpl in Hr. injection Hr as ->.
    eapply insertAs_lengths; [by right|done].
Qed.

Lemma create_respects_lengths_witness :
  let req := postReq ∅ laptopBody in
  let p := {| _id := "65f000000000000000000004"; name := "Laptop";
              description := "Fast"; price := Fin (Q2Qc (129999 # 100));
              category := "electronics"; inStock := Some true;
              createdAt := 5000; updatedAt := 5000 |} in
  (0 < strLength (name p) ≤ 100)%nat
  ∧ (0 < strLength (description p) ≤ 1000)%nat
  ∧ (0 < strLength (category p))%nat.
Proof.
  intros req p.
  apply (create_respects_lengths exCtx req exStore p
           Controller.createProduct).
  - apply elem_of_cons. left. reflexivity.
  - apply (bool_decide_unpack _). vm_compute. exact I.
Defined.

(** ** Deleting twice *)

(** X19.  After a delete of a well-formed id from a store with distinct
    ids, whether it removed a document or found none, a second delete of
    the same id finds nothing: it is answered 404 and leaves the store as
    the first delete left it. *)
Theorem delete_twice `{R : Runtime} (ctx ctx' : Ctx) (req : Request)
    (st : Store) :
  isObjectId (paramId req) = true → NoDup (ids st) →
  ∀ delete, delete ∈ [Controller.deleteProduct; Server.deleteProduct] →
    failsWith 404 (delete ctx' req (delete ctx req st).2).1
    ∧ (delete ctx' req (delete ctx req st).2).2 = (delete ctx req st).2.
Proof.
  intros Hid Hnd delete Hd.
  assert (lookupDoc (paramId req) (delete ctx req st).2 = None) as Hgone.
  { pose proof (controller_delete ctx req st Hid) as Hc.
    pose proof (server_delete ctx req st Hid) as Hs.
    destruct (lookupDoc (paramId req) st) eqn:Hl;
      (apply elem_of_cons in Hd as [->|Hd];
        [rewrite Hc|apply list_elem_of_singleton in Hd as ->; rewrite Hs]);
      simpl; auto using removeDoc_gone. }
  pose proof (controller_delete ctx' req (delete ctx req st).2 Hid) as Hc.
  pose proof (server_delete ctx' req (delete ctx req st).2 Hid) as Hs.
  rewrite Hgone in Hc, Hs.
  apply elem_of_cons in Hd as [->|Hd];
    [by rewrite Hc|apply list_elem_of_singleton in Hd as ->; by rewrite Hs].
Qed.

Lemma delete_twice_witness :
  let req := deleteReq "65f000000000000000000002" in
  failsWith 404
    (Server.deleteProduct testCtx req
       (Server.deleteProduct exCtx req exStore).2).1
  ∧ (Server.deleteProduct testCtx req
       (Server.deleteProduct exCtx req exStore).2).2
    = (Server.deleteProduct exCtx req exStore).2.
Proof.
  intros req.
  apply (delete_twice exCtx testCtx req exStore).
  - reflexivity.
  - apply (bool_decide_unpack _). vm_compute. exact I.
  - apply elem_of_cons. right. apply elem_of_cons. left. reflexivity.
Defined.

(** ** The timestamps of an update *)

Lemma save_stamp `{R : Runtime} sch ctx d st o p st' :
  d_orig d = Some o →
  save sch ctx d st = Ok (p, st') →
  createdAt p = createdAt o ∧ (p = o ∨ updatedAt p = now ctx).
Proof.
  unfold save. intros Ho.
  destruct (validate sch d);
    [|by destruct (d_name d), (d_description d), (d_price d), (d_category d)].
  destruct (d_name d) as [n|]; [|done].
  destruct (d_description d) as [de|]; [|done].
  destruct (d_price d) as [pr|]; [|done].
  destruct (d_category d) as [c|]; [|done].
  rewrite Ho. case_decide as Heq; intros [= <- <-].
  - split; [done|]. by left.
  - split; [done|]. by right.
Qed.

(** X20.  The timestamps of a successful update.  Neither handler touches
    [createdAt].  The server script stamps [updatedAt] with the time of
    the request on every successful update, also one with an empty body;
    the controller saves the loaded document, which gets a new
    [updatedAt] only when a path has changed, and is otherwise returned
    as it was stored. *)
Theorem update_stamps `{R : Runtime} (ctx : Ctx) (req : Request) (st : Store)
    (o p : Product) :
  lookupDoc (paramId req) st = Some o →
  ((Server.updateProduct ctx req st).1 = json 200 (ProductJson p) →
   createdAt p = createdAt o ∧ updatedAt p = now ctx)
  ∧ ((Controller.updateProduct ctx req st).1 = json 200 (ProductJson p) →
     createdAt p = createdAt o ∧ (p = o ∨ updatedAt p = now ctx)).
Proof.
  intros Ho. split.
  - unfold Server.updateProduct, Server.findByIdAndUpdate.
    destruct (isObjectId (paramId req)); simpl; [|done].
    destruct (d_castErrors _) as [|[??]?]; [|done].
    destruct (Server.validateUpdate _ _ _); [|done].
    rewrite Ho. simpl. by intros [= <-].
  - unfold Controller.updateProduct, findById.
    destruct (isObjectId (paramId req)); [|done]. rewrite Ho.
    match goal with |- context [save _ _ ?d _] => set (doc := d) end.
    assert (d_orig doc = Some o) as Hd.
    { subst doc. repeat case_match; by autorewrite with doc. }
    destruct (save productSchema ctx doc st) as [[q st']|e] eqn:Hs; [|done].
    simpl. intros [= <-]. by eapply save_stamp.
Qed.

Lemma update_stamps_witness :
  let req := putReq "65f000000000000000000002" ∅ in
  let p := {| _id := "65f000000000000000000002"; name := "Shirt";
              description := "Cotton"; price := ofZ 20;
              category := "clothing"; inStock := Some false;
              createdAt := 2000; updatedAt := 5000 |} in
  (createdAt p = createdAt shirt ∧ updatedAt p = now exCtx)
  ∧ (createdAt shirt = createdAt shirt
     ∧ (shirt = shirt ∨ updatedAt shirt = now exCtx)).
Proof.
  intros req p.
  destruct (update_stamps exCtx req exStore shirt p) as [H1 _];
    [reflexivity|].
  destruct (update_stamps exCtx req exStore shirt shirt) as [_ H2];
    [reflexivity|].
  split.
  - apply H1. apply (bool_decide_unpack _). vm_compute. exact I.
  - apply H2. apply (bool_decide_unpack _). vm_compute. exact I.
Defined.

(** ** The search handler *)

(** X21.  The search handler of the server script, as a function: without
    a non-empty [q] it answers 400; with a pattern the store accepts it
    answers 200 with the documents whose name or description matches, in
    the order of the store, and their number; it never changes the
    store. *)
Theorem search_results `{R : Runtime} (ctx : Ctx) (req : Request)
    (st : Store) :
  (Server.search ctx req st).2 = st
  ∧ (present (query req !! "q") = false →
     failsWith 400 (Server.search ctx req st).1)
  ∧ (∀ q, query req !! "q" = Some q → q ≠ "" → regexValid q = true →
     ∃ items,
       Server.search ctx req st
       = (json 200 (SearchJson (length items) items), st)
       ∧ items `sublist_of` st
       ∧ ∀ p, p ∈ items
              ↔ p ∈ st ∧ (regexTest q (name p) = true
                          ∨ regexTest q (description p) = true)).
Proof.
  split; [apply search_reads|].
  destruct (search_handler ctx req st) as [H1 H2]. split.
  - intros Hq. destruct (H1 Hq) as [msg ->]. done.
  - intros q Hq Hne Hv. eexists. split; [by apply H2|]. split.
    + clear. induction st as [|p st IH]; simpl; [done|].
      destruct (_ || _); [by apply sublist_skip|by apply sublist_cons].
    + intros p. rewrite list_elem_of_In, filter_In, <- list_elem_of_In.
      by rewrite orb_true_iff.
Qed.

Lemma search_results_witness :
  let req := getReq ["api"; "products"; "search"] {[ "q" := "shirt" ]} in
  ∃ items,
    Server.search exCtx req exStore
    = (json 200 (SearchJson (length items) items), exStore)
    ∧ items `sublist_of` exStore.
Proof.
  intros req.
  destruct (search_results exCtx req exStore) as (_ & _ & H).
  destruct (H "shirt") as (items & H1 & H2 & _).
  - reflexivity.
  - discriminate.
  - reflexivity.
  - exists items. split; [exact H1|exact H2].
Defined.

(** ** The statuses of the answers *)

Section Outcomes.
Context `{R : Runtime}.












End Outcomes.

Section Answers.
Context `{R : Runtime}.



End Answers.



(** ** Repeating an update *)

Lemma replaceDoc_twice p st : replaceDoc p (replaceDoc p st) = replaceDoc p st.
Proof.
  induction st as [|q st IH]; [done|]. simpl.
  destruct (decide (_id q = _id p)) as [Hq|Hq]; simpl.
  - by rewrite decide_True.
  - by rewrite decide_False, IH.
Qed.

Section Again.
Context `{R : Runtime}.

(** Saving a loaded document that no assignment has changed writes it
    back as it is. *)
Lemma save_hydrate sch ctx p st :
  validateString (sName sch) (Some (name p)) = None →
  validateString (sDescription sch) (Some (description p)) = None →
  validateNumber (sPrice sch) (Some (price p)) = None →
  validateString (sCategory sch) (Some (category p)) = None →
  save sch ctx (hydrate p) st = Ok (p, replaceDoc p st).
Proof.
  intros Hn Hd Hp Hc. unfold save, validate, hydrate.
  cbn [d_name d_description d_price d_category d_castErrors d_orig d_inStock].
  rewrite Hn, Hd, Hp, Hc. cbn [pathError app].
  rewrite decide_True by by destruct p. done.
Qed.

(** A successful update of the controller, with what the save checked. *)
Lemma controller_update_saved ctx req st p :
  (Controller.updateProduct ctx req st).1 = json 200 (ProductJson p) →
  ∃ o, isObjectId (paramId req) = true
       ∧ lookupDoc (paramId req) st = Some o
       ∧ (Controller.updateProduct ctx req st).2 = replaceDoc p st
       ∧ _id p = paramId req
       ∧ controllerUpdated (reqBody req) o p
       ∧ validate productSchema (hydrate p) = [].
Proof.
  intros Hr.
  destruct (isObjectId (paramId req)) eqn:Hoid;
    [|by unfold Controller.updateProduct, findById in Hr; rewrite Hoid in Hr].
  destruct (lookupDoc (paramId req) st) as [o|] eqn:Ho;
    [|by unfold Controller.updateProduct, findById in Hr;
         rewrite Hoid, Ho in Hr].
  exists o. split; [done|]. split; [done|].
  destruct (controller_update_cases ctx req st o Ho)
    as [[_ Hno]|(q & Hq & Hu)]; [by destruct (Hno p)|].
  rewrite Hq in Hr. simpl in Hr. injection Hr as ->.
  rewrite Hq. split; [done|].
  split; [destruct Hu as [-> _]; by eapply lookupDoc_id|]. split; [done|].
  revert Hq. unfold Controller.updateProduct, findById. rewrite Hoid, Ho.
  match goal with |- context [save _ _ ?d _] => set (doc := d) end.
  assert (d_orig doc = Some o) as Hd.
  { subst doc. repeat case_match; by autorewrite with doc. }
  destruct (save productSchema ctx doc st) as [[q st']|e] eqn:Hs; [|done].
  intros [= -> ->].
  apply (save_loaded _ _ _ _ _ _ _ Hd) in Hs
    as (_ & _ & _ & Hn & Hde & Hpr & Hcat & _ & Hv).
  apply validate_nil in Hv as (_ & Hvn & Hvd & Hvp & Hvc).
  unfold validate, hydrate.
  cbn [d_name d_description d_price d_category d_castErrors].
  rewrite Hn in Hvn. rewrite Hde in Hvd. rewrite Hpr in Hvp.
  rewrite Hcat in Hvc. by rewrite Hvn, Hvd, Hvp, Hvc.
Qed.

(** The same body applied to the updated document assigns what it holds
    already. *)
Lemma controller_update_again ctx req st o p :
  isObjectId (paramId req) = true →
  lookupDoc (paramId req) st = Some p →
  controllerUpdated (reqBody req) o p →
  validate productSchema (hydrate p) = [] →
  Controller.updateProduct ctx req st
  = (json 200 (ProductJson p), replaceDoc p st).
Proof.
  intros Hoid Hp (_ & _ & Hn & Hd & Hpr & Hc & Hs) Hv.
  apply validate_nil in Hv as (_ & Hvn & Hvd & Hvp & Hvc).
  cbn [hydrate d_name d_description d_price d_category] in Hvn, Hvd, Hvp, Hvc.
  unfold Controller.updateProduct, findById. rewrite Hoid, Hp.
  match goal with |- context [save _ _ ?d _] =>
    assert (d = hydrate p) as -> end.
  { destruct (truthy (reqBody req !! "name"));
      [destruct Hn as (s1 & Hc1 & Hn)|];
    (destruct (truthy (reqBody req !! "description"));
      [destruct Hd as (s2 & Hc2 & Hd)|]);
    (destruct (truthy (reqBody req !! "price")); [|]);
    (destruct (truthy (reqBody req !! "category"));
      [destruct Hc as (s4 & Hc4 & Hc)|]);
    (destruct (defined (reqBody req !! "inStock")); [|]);
    unfold assignName, assignDescription, assignPrice, assignCategory,
      assignInStock, hydrate, setString;
    rewrite ?Hc1, ?Hc2, ?Hpr, ?Hc4, ?Hs; simpl;
    rewrite <- ?Hn, <- ?Hd, <- ?Hc; done. }
  by rewrite save_hydrate.
Qed.

End Again.

(** X23.  Repeating an update.  When an update has succeeded, the same
    request once more succeeds again and changes no data: the controller
    returns the product of the first update and leaves the store exactly
    as the first update left it, without a new [updatedAt]; the server
    script returns the same product with [updatedAt] at the time of the
    second request, and nothing else differs. *)
Theorem update_idempotent `{R : Runtime} (ctx ctx' : Ctx) (req : Request)
    (st : Store) (p : Product) :
  ((Controller.updateProduct ctx req st).1 = json 200 (ProductJson p) →
   Controller.updateProduct ctx' req (Controller.updateProduct ctx req st).2
   = (json 200 (ProductJson p), (Controller.updateProduct ctx req st).2))
  ∧ ((Server.updateProduct ctx req st).1 = json 200 (ProductJson p) →
     ∃ p', Server.updateProduct ctx' req (Server.updateProduct ctx req st).2
           = (json 200 (ProductJson p'),
              replaceDoc p' (Server.updateProduct ctx req st).2)
           ∧ sameData p p' ∧ updatedAt p' = now ctx').
Proof.
  split; intros Hr.
  - destruct (controller_update_saved ctx req st p Hr)
      as (o & Hoid & Ho & -> & Hid & Hu & Hv).
    rewrite (controller_update_again ctx' req (replaceDoc p st) o p);
      [by rewrite replaceDoc_twice|done| |done|done].
    rewrite <- Hid. apply (lookupDoc_replace _ _ o). by rewrite Hid.
  - revert Hr. unfold Server.updateProduct, Server.findByIdAndUpdate.
    destruct (isObjectId (paramId req)) eqn:Hoid; simpl; [|done].
    destruct (d_castErrors _) as [|[??]?] eqn:Hce; [|done].
    destruct (Server.validateUpdate _ _ _) eqn:Hv; [|done].
    destruct (lookupDoc (paramId req) st) as [o|] eqn:Ho; [|done].
    simpl. intros [= <-].
    match goal with |- context [replaceDoc ?q st] => set (p := q) end.
    assert (_id o = paramId req) as Hid by by eapply lookupDoc_id.
    assert (lookupDoc (paramId req) (replaceDoc p st) = Some p) as ->.
    { rewrite <- Hid. change (_id o) with (_id p).
      apply (lookupDoc_replace _ _ o). change (_id p) with (_id o).
      by rewrite Hid. }
    eexists. split; [done|]. split; [|done].
    unfold sameData. simpl.
    repeat split; try by destruct (d_name _), (d_description _), (d_price _),
      (d_category _).
    by destruct (defined _).
Qed.

Lemma update_idempotent_witness :
  let req := putReq "65f000000000000000000002" {[ "price" := VNum (ofZ 25) ]} in
  let p := {| _id := "65f000000000000000000002"; name := "Shirt";
              description := "Cotton"; price := ofZ 25;
              category := "clothing"; inStock := Some false;
              createdAt := 2000; updatedAt := 5000 |} in
  let ctx' := {| env := env exCtx; now := 6000; freshId := freshId exCtx;
                 tieRank := tieRank exCtx |} in
  Controller.updateProduct ctx' req (Controller.updateProduct exCtx req exStore).2
  = (json 200 (ProductJson p), (Controller.updateProduct exCtx req exStore).2).
Proof.
  intros req p ctx'.
  apply (update_idempotent exCtx ctx' req exStore p).
  apply (bool_decide_unpack _). vm_compute. exact I.
Defined.

(** ** The flags of a page and what is left *)

Lemma qz_le a b : (qz a ≤ qz b)%Qc ↔ a ≤ b.
Proof.
  unfold Qcle, qz. simpl. rewrite !Qred_correct. by rewrite <- Zle_Qle.
Qed.

Lemma qz_lt a b : (qz a < qz b)%Qc ↔ a < b.
Proof.
  unfold Qclt, qz. simpl. rewrite !Qred_correct. by rewrite <- Zlt_Qlt.
Qed.

(** The ceiling of a quotient of integers, in integers. *)
Lemma ceil_of_integers (t l : Z) :
  0 < l →
  let n := Qceiling (qz t / qz l)%Qc in
  t ≤ n * l ∧ (n - 1) * l < t.
Proof.
  intros Hl n.
  destruct (ceil_div t (qz l)) as [H1 H2]; [by apply qz_lt|].
  fold n in H1, H2. rewrite qz_mul in H1, H2.
  split; [by apply qz_le|by apply qz_lt].
Qed.

Section Flags.
Context `{R : Runtime}.

(** The list response of the controller for a page [pg >= 1] of
    [lim >= 1] items. *)
Lemma controller_page ctx req st (pg lim : nat) :
  numParam 1 (query req !! "page") = ofZ (Z.of_nat pg) →
  numParam 10 (query req !! "limit") = ofZ (Z.of_nat lim) →
  (1 ≤ pg)%nat → (1 ≤ lim)%nat →
  queryError (Controller.buildQuery req) = None →
  let docs := selection ctx productSchema (Controller.buildQuery req) req st in
  let items := take lim (drop ((pg - 1) * lim) docs) in
  let total := Z.of_nat (length docs) in
  let tp := Qceiling (qz total / qz (Z.of_nat lim))%Qc in
  Controller.getProducts ctx req st
  = (json 200 (ListJson (length items) total (ofZ (Z.of_nat pg)) (ofZ tp)
                 (bool_decide (Z.of_nat pg < tp))
                 (bool_decide (1 < pg)%nat) items), st).
Proof.
  intros Hpage Hlimit Hpg Hlim Hq docs items total tp.
  unfold Controller.getProducts, countDocuments, findPage, selectDocs.
  rewrite Hq, Hpage, Hlimit.
  fold (selection ctx productSchema (Controller.buildQuery req) req st).
  fold docs. rewrite window_page by done. fold items.
  rewrite <- (selection_length ctx _ _ req). fold docs. fold total.
  assert (num_ceil (num_div (ofZ total) (ofZ (Z.of_nat lim))) = ofZ tp)
    as ->.
  { change (ofZ (Z.of_nat lim)) with (Fin (qz (Z.of_nat lim))).
    apply totalPages_ceil, (qz_lt 0). lia. }
  do 4 f_equal.
  - unfold num_ltb, ofZ. fold (qz (Z.of_nat pg)). fold (qz tp).
    apply bool_decide_ext, qz_lt.
  - unfold num_ltb, ofZ. fold (qz 1). fold (qz (Z.of_nat pg)).
    apply bool_decide_ext. rewrite qz_lt. lia.
Qed.

End Flags.

(** X24.  The flags of a page against what the store holds.  For a page
    [pg >= 1] of [lim >= 1] items and a filter the store accepts, the
    list of the controller answers with [totalPages] the least integer
    [n] with [total <= n * lim]; [hasNextPage] is true exactly when
    selected documents remain after this page, that is when
    [pg * lim < total]; [hasPreviousPage] is true exactly when [pg > 1];
    and the page holds [min lim (total - (pg - 1) * lim)] items, none
    when the page lies beyond the last one. *)
Theorem next_page_exists `{R : Runtime} (ctx : Ctx) (req : Request)
    (st : Store) (pg lim : nat) :
  numParam 1 (query req !! "page") = ofZ (Z.of_nat pg) →
  numParam 10 (query req !! "limit") = ofZ (Z.of_nat lim) →
  (1 ≤ pg)%nat → (1 ≤ lim)%nat →
  queryError (Controller.buildQuery req) = None →
  let total :=
    length (selection ctx productSchema (Controller.buildQuery req) req st) in
  ∃ items tp hn hp,
    Controller.getProducts ctx req st
    = (json 200 (ListJson (length items) (Z.of_nat total)
                   (ofZ (Z.of_nat pg)) (ofZ tp) hn hp items), st)
    ∧ (Z.of_nat total ≤ tp * Z.of_nat lim
       ∧ (tp - 1) * Z.of_nat lim < Z.of_nat total)
    ∧ (hn = true ↔ (pg * lim < total)%nat)
    ∧ (hp = true ↔ (1 < pg)%nat)
    ∧ length items = Nat.min lim (total - (pg - 1) * lim).
Proof.
  intros Hpage Hlimit Hpg Hlim Hq total.
  pose proof (controller_page ctx req st pg lim Hpage Hlimit Hpg Hlim Hq)
    as Hr.
  cbv zeta in Hr. fold total in Hr.
  pose proof (ceil_of_integers (Z.of_nat total) (Z.of_nat lim)
                ltac:(lia)) as Hc.
  cbv zeta in Hc.
  set (tp := Qceiling (qz (Z.of_nat total) / qz (Z.of_nat lim))%Qc) in *.
  eexists _, tp, _, _. split; [exact Hr|]. split; [exact Hc|].
  split; [|split].
  - rewrite bool_decide_eq_true. destruct Hc as [Hc1 Hc2]. split.
    + intros Hlt. apply Nat2Z.inj_lt. rewrite Nat2Z.inj_mul.
      eapply Z.le_lt_trans; [|exact Hc2].
      apply Z.mul_le_mono_nonneg_r; lia.
    + intros Hlt. apply Nat2Z.inj_lt in Hlt. rewrite Nat2Z.inj_mul in Hlt.
      apply (Z.mul_lt_mono_pos_r (Z.of_nat lim)); [lia|].
      eapply Z.lt_le_trans; [exact Hlt|exact Hc1].
  - by rewrite bool_decide_eq_true.
  - rewrite length_take, length_drop. done.
Qed.

Lemma next_page_exists_witness :
  let req := getReq ["api"; "products"]
               {[ "page" := "1"; "limit" := "2"; "sort" := "price" ]} in
  ∃ items tp hn hp,
    Controller.getProducts exCtx req exStore
    = (json 200 (ListJson (length items)
                   (Z.of_nat
                      (length (selection exCtx productSchema
                                 (Controller.buildQuery req) req exStore)))
                   (ofZ (Z.of_nat 1)) (ofZ tp) hn hp items), exStore)
    ∧ (hn = true
       ↔ (1 * 2 < length (selection exCtx productSchema
                            (Controller.buildQuery req) req exStore))%nat).
Proof.
  intros req.
  destruct (next_page_exists exCtx req exStore 1 2)
    as (items & tp & hn & hp & H1 & _ & H2 & _).
  - apply (bool_decide_unpack _). vm_compute. exact I.
  - apply (bool_decide_unpack _). vm_compute. exact I.
  - lia.
  - lia.
  - reflexivity.
  - exists items, tp, hn, hp. split; [exact H1|exact H2].
Defined.

(** ** Create, then delete *)

Lemma removeDoc_app_new id st p :
  id ∉ ids st → _id p = id → removeDoc id (st ++ [p]) = st.
Proof.
  unfold ids. intros Hid Hp. induction st as [|q st IH]; simpl.
  - by rewrite decide_True.
  - rewrite fmap_cons in Hid. apply not_elem_of_cons in Hid as [Hq Hid].
    rewrite decide_False by done. by rewrite IH.
Qed.

(** X25.  Create, then delete: deleting the product that a successful
    create has stored, by its id, restores the store exactly, whichever of
    the two creates and of the two deletes is used, when that id is well
    formed.  The id is the one the store assigns, which is assumed not to
    be in use, or, in the server script, the [_id] of the body. *)
Theorem create_then_delete `{R : Runtime} (ctx ctx' : Ctx)
    (req req' : Request) (st : Store) (p : Product) :
  isObjectId (_id p) = true →
  freshId ctx ∉ ids st →
  paramId req' = _id p →
  ∀ create delete,
    create ∈ [Controller.createProduct; Server.createProduct] →
    delete ∈ [Controller.deleteProduct; Server.deleteProduct] →
    (create ctx req st).1 = json 201 (ProductJson p) →
    (delete ctx' req' (create ctx req st).2).2 = st
    ∧ ∃ r, (delete ctx' req' (create ctx req st).2).1 = Send r.
Proof.
  intros Hoid Hfresh Hid create delete Hc Hd Hr.
  destruct (create_success create ctx req st p Hc Hr)
    as (_ & _ & Hst & Hnew).
  rewrite Hst.
  assert (_id p ∉ ids st) as Hno.
  { destruct Hnew as [->|?]; [done|by apply lookupDoc_None]. }
  assert (lookupDoc (paramId req') (st ++ [p]) = Some p) as Hl.
  { rewrite Hid. apply lookupDoc_app_new; [by apply lookupDoc_None|done]. }
  rewrite <- Hid in Hoid.
  pose proof (controller_delete ctx' req' (st ++ [p]) Hoid) as H1.
  pose proof (server_delete ctx' req' (st ++ [p]) Hoid) as H2.
  rewrite Hl in H1, H2.
  assert (removeDoc (paramId req') (st ++ [p]) = st) as Hrm.
  { rewrite Hid. by apply removeDoc_app_new. }
  apply elem_of_cons in Hd as [->|Hd];
    [rewrite H1|apply list_elem_of_singleton in Hd as ->; rewrite H2];
    simpl; (split; [done|by eexists]).
Qed.

Lemma create_then_delete_witness :
  let req := postReq ∅ taggedBody in
  let req' := deleteReq "65f0000000000000000000aa" in
  (Controller.deleteProduct testCtx req'
     (Server.createProduct exCtx req exStore).2).2 = exStore.
Proof.
  intros req req'.
  destruct (create_then_delete exCtx testCtx req req' exStore
              {| _id := "65f0000000000000000000aa"; name := "Laptop";
                 description := "Fast"; price := Fin (Q2Qc (129999 # 100));
                 category := "electronics"; inStock := Some true;
                 createdAt := 1234; updatedAt := 1234 |})
    with (create := Server.createProduct)
         (delete := Controller.deleteProduct) as [H _].
  - reflexivity.
  - apply (bool_decide_unpack _). vm_compute. exact I.
  - reflexivity.
  - apply elem_of_cons. right. apply elem_of_cons. left. reflexivity.
  - apply elem_of_cons. left. reflexivity.
  - apply (bool_decide_unpack _). vm_compute. exact I.
  - exact H.
Defined.

(** ** The two lists side by side *)

Lemma num_mul_one a : num_mul a (ofZ 1) = a.
Proof.
  destruct a as [x| | |]; try done.
  unfold num_mul, ofZ. f_equal. apply Qcmult_1_r.
Qed.

Section Agreement.
Context `{R : Runtime}.

Lemma matches_schema sch sch' q p :
  qCategory q = None → matches sch q p = matches sch' q p.
Proof. unfold matches. by intros ->. Qed.

Lemma selectDocs_schema sch sch' q st :
  qCategory q = None → selectDocs sch q st = selectDocs sch' q st.
Proof.
  intros Hq. unfold selectDocs. destruct (queryError q); [done|]. f_equal.
  induction st as [|p st IH]; [done|]. simpl.
  by rewrite (matches_schema sch sch' q p Hq), IH.
Qed.

Lemma queries_agree req :
  query req !! "name" = None → query req !! "minPrice" = None →
  query req !! "maxPrice" = None → query req !! "category" = None →
  query req !! "search" = None →
  Controller.buildQuery req = Server.buildQuery req
  ∧ qCategory (Server.buildQuery req) = None.
Proof.
  intros Hn Hlo Hhi Hc Hs. unfold Controller.buildQuery, Server.buildQuery.
  by rewrite Hn, Hlo, Hhi, Hc, Hs.
Qed.

End Agreement.

(** X26.  The two lists side by side.  For a request without the
    parameters that only one of them reads ([name], [minPrice],
    [maxPrice], [search]) and without [category], which they read
    differently, the list of the controller and the list of the server
    script select, order and cut the same way: they answer with the same
    total, the same number of pages and the same items, or they pass on
    the same error. *)
Theorem lists_agree `{R : Runtime} (ctx : Ctx) (req : Request) (st : Store) :
  query req !! "name" = None → query req !! "minPrice" = None →
  query req !! "maxPrice" = None → query req !! "category" = None →
  query req !! "search" = None →
  listSummary (Controller.getProducts ctx req st).1
  = listSummary (Server.listProducts ctx req st).1
  ∧ (∀ e, (Controller.getProducts ctx req st).1 = NextErr e
          ↔ (Server.listProducts ctx req st).1 = NextErr e)
  ∧ (is_Some (listSummary (Controller.getProducts ctx req st).1)
     ∨ ∃ e, (Controller.getProducts ctx req st).1 = NextErr e).
Proof.
  intros Hn Hlo Hhi Hc Hs.
  destruct (queries_agree req Hn Hlo Hhi Hc Hs) as [Hq Hcat].
  unfold Controller.getProducts, Server.listProducts, countDocuments,
    findPage.
  rewrite Hq, num_mul_one.
  rewrite (selectDocs_schema productSchema Server.productSchema _ _ Hcat).
  destruct (selectDocs _ _ _) as [ds|e];
    [|split; [done|split; [done|right; by eexists]]].
  destruct (window _ _ _) as [w|e];
    [|split; [done|split; [done|right; by eexists]]].
  split; [done|]. split; [done|]. left. by eexists.
Qed.

Lemma lists_agree_witness :
  let req := getReq ["api"; "products"]
               {[ "inStock" := "true"; "limit" := "1" ]} in
  listSummary (Controller.getProducts exCtx req exStore).1
  = listSummary (Server.listProducts exCtx req exStore).1.
Proof.
  intros req.
  destruct (lists_agree exCtx req exStore) as [H _].
  - reflexivity.
  - reflexivity.
  - reflexivity.
  - reflexivity.
  - reflexivity.
  - exact H.
Defined.
